(** * LMReview: the single-folder review workflow (notebooklm_single_folder_flow.py)

    A shallow embedding of the file catalogue, the tagger, the Word export
    naming, the prompt template, the watchdog handler and the Tk timer
    logic (debounced refresh, clipboard polling), with the properties the
    specification states about them.

    Conventions of the embedding.
    - A Python [str] is a [string] holding its UTF-8 bytes.  On well-formed
      UTF-8, [startswith], [endswith], concatenation and the code-point
      order of Python coincide with their byte-wise counterparts, and the
      characters the code inspects one by one are all ASCII.
    - [os.path] is the POSIX flavour ([posixpath]).
    - The file system is a finite map from directory paths to directories,
      a directory a finite map from entry names to nodes.
    - Tk's [after] queue, the clock and the side effects that matter
      (calls of [refresh_all], of [_export_content], dialogs) are explicit
      fields of the application state. *)

From Stdlib Require Import Ascii.
From stdpp Require Import gmap strings list fin_maps sorting.

(** ** Python string primitives *)

Module Py.

(** [s.startswith(p)] *)
Definition startswith (s p : string) : bool := String.prefix p s.

(** [s.endswith(p)] *)
Definition endswith (s p : string) : bool :=
  String.prefix (String.rev p) (String.rev s).

(** [sep.join(items)] *)
Fixpoint join (sep : string) (items : list string) : string :=
  match items with
  | [] => ""
  | [x] => x
  | x :: rest => x +:+ sep +:+ join sep rest
  end.

(** [sorted(l)] on a list of [str]: a stable merge sort along the
    lexicographic order of the strings. *)
Definition sorted (l : list string) : list string := merge_sort String.le l.

(** [any(f.startswith(t) for t in tags)] *)
Definition any_startswith (f : string) (tags : list string) : bool :=
  existsb (startswith f) tags.

(** [x or default] for a list [x]: the empty list is falsy. *)
Definition list_or {A} (x default : list A) : list A :=
  match x with [] => default | _ => x end.

(** [sub in s] *)
Definition contains (sub s : string) : Prop :=
  ∃ pre post, s = pre +:+ sub +:+ post.

End Py.

(** ** Configuration *)

Record AppConfig := {
  base_path : string;
  notebook_url : string;
  projects : list string;
  deliveries : list string;
  input_folder : string;
  output_folder : string;
  tags : list string
}.

Definition tag_standard : string := "【標準】".
Definition tag_template : string := "【範本】".
Definition tag_review : string := "【待審】".

(** [AppConfig()] with the defaults of the dataclass and of [__post_init__]. *)
Definition default_config (base : string) : AppConfig := {|
  base_path := base;
  notebook_url := "https://notebooklm.google.com/";
  projects := ["【雲端案】"; "【整合案】"; "【Trod案】"];
  deliveries := ["【契約交付】"; "【其他交付】"];
  input_folder := "input";
  output_folder := "output";
  tags := [tag_standard; tag_template; tag_review]
|}.

(** ** Tools *)

Definition is_skip_file (fn : string) : bool :=
  Py.startswith fn "~$" || Py.startswith fn "." || Py.endswith fn ".tmp".

(** ** The file system *)

(** What [os.stat] finds under a name, symbolic links followed: a regular
    file, a directory, nothing (the name is a link whose target is
    missing) or something else. *)
Inductive node_kind := RegularFile | SubDirectory | DanglingLink | OtherNode.

Record node := Node { kind : node_kind; data : string }.

Global Instance node_kind_eq_dec : EqDecision node_kind.
Proof. solve_decision. Defined.

Global Instance node_eq_dec : EqDecision node.
Proof. solve_decision. Defined.

(** [posixpath.join(path, b)] for one component. *)
Definition os_path_join (path b : string) : string :=
  if Py.startswith b "/" then b
  else if bool_decide (path = "") || Py.endswith path "/" then path +:+ b
  else path +:+ "/" +:+ b.

Fixpoint basename_aux (cand s : string) : string :=
  match s with
  | EmptyString => cand
  | String c r =>
      if Ascii.eqb c "/" then basename_aux r r else basename_aux cand r
  end.

(** [posixpath.basename(p)]: what follows the last slash. *)
Definition os_path_basename (p : string) : string := basename_aux p p.

(** A file system: directory path to directory, directory: name to node. *)
Abbreviation directory := (gmap string node).
Abbreviation filesystem := (gmap string (gmap string node)).

(** [os.path.exists(folder)] for a directory path. *)
Definition dir_exists (fs : filesystem) (folder : string) : bool :=
  bool_decide (is_Some (fs !! folder)).

(** [os.path.exists(os.path.join(folder, name))].  [os.path.join(folder, "")]
    is the folder itself, followed by a slash, which exists when the folder
    does; [os.path.exists] follows links, so a link whose target is missing
    does not exist, although [os.listdir] lists it. *)
Definition entry_exists (fs : filesystem) (folder name : string) : bool :=
  match fs !! folder with
  | Some d =>
      if bool_decide (name = "") then true
      else
        match d !! name with
        | Some n => negb (bool_decide (kind n = DanglingLink))
        | None => false
        end
  | None => false
  end.

(** [os.path.isfile(os.path.join(folder, f))] inside a directory. *)
Definition os_path_isfile (d : directory) (f : string) : bool :=
  match d !! f with
  | Some n => bool_decide (kind n = RegularFile)
  | None => false
  end.

(** ** FileManager *)

Section FileManager.

Variable cfg : AppConfig.

(** [os.listdir]: the names of a directory in an order the operating
    system chooses. *)
Variable os_listdir : directory → list string.

Definition project_root (project delivery : string) : string :=
  os_path_join (os_path_join (base_path cfg) project) delivery.

Definition input_dir (project delivery : string) : string :=
  os_path_join (project_root project delivery) (input_folder cfg).

Definition output_dir (project delivery : string) : string :=
  os_path_join (project_root project delivery) (output_folder cfg).

Definition list_input_files (fs : filesystem) (project delivery : string)
  : list string * list string :=
  let folder := input_dir project delivery in
  match fs !! folder with
  | None => ([], [])
  | Some d =>
      let all_files :=
        filter (λ f, os_path_isfile d f && negb (is_skip_file f))
               (os_listdir d) in
      let tagged :=
        filter (λ f, Py.any_startswith f (tags cfg)) all_files in
      let untagged :=
        filter (λ f, negb (Py.any_startswith f (tags cfg))) all_files in
      (Py.sorted tagged, Py.sorted untagged)
  end.

End FileManager.

(** ** What a call into the operating system or a library does *)

Inductive outcome (A : Type) :=
| Returns (x : A)
| Raises (e : string).
Arguments Returns {A} x.
Arguments Raises {A} e.

(** How [os.rename(old_path, new_path)] ends, as the operating system
    decides (it does not succeed when [old_path] is the folder itself). *)
Inductive rename_outcome :=
| RenameDone
| RenamePermissionError
| RenameError (e : string).

(** One round of the stability wait of [tag_file]: [sizes k] is what the
    [k]-th call of [os.path.getsize(old_path)] gives ([None]: it raises).
    The state is (calls made, calls of [time.sleep(0.1)]); the flag says
    whether the loop breaks. *)
Definition stability_round (sizes : nat → option nat) (st : nat * nat)
  : nat * nat * bool :=
  let '(calls, sleeps) := st in
  match sizes calls with
  | None => (S calls, S sleeps, false)
  | Some size1 =>
      match sizes (S calls) with
      | None => (S (S calls), S (S sleeps), false)
      | Some size2 => (S (S calls), S sleeps, bool_decide (size1 = size2))
      end
  end.

(** [for _ in range(n): ...] of the stability wait. *)
Fixpoint stability_wait (n : nat) (sizes : nat → option nat) (st : nat * nat)
  : nat * nat :=
  match n with
  | 0 => st
  | S n' =>
      let '(st', stop) := stability_round sizes st in
      if stop then st' else stability_wait n' sizes st'
  end.

Record tag_result := {
  tr_fs : filesystem;        (* the file system afterwards *)
  tr_ret : bool * string;    (* the returned pair *)
  tr_log : list string;      (* what went to the logger *)
  tr_sleeps : nat            (* calls of time.sleep(0.1) *)
}.

Definition msg_not_found : string := "檔案不存在".
Definition msg_conflict : string := "目標檔名已存在".
Definition msg_busy : string := "檔案被佔用，請關閉後再試".

(** [os.rename(old, new)] inside one directory, when it succeeds: the
    node moves to the new name, replacing what was there (for [tag_file]
    that can only be a link whose target is missing). *)
Definition rename_entry (d : directory) (old new : string) : directory :=
  match d !! old with
  | Some n => <[new := n]> (delete old d)
  | None => d
  end.

Section Tagger.

Variable cfg : AppConfig.

Definition tag_file (fs : filesystem) (sizes : nat → option nat)
    (rn : rename_outcome) (project delivery filename tag : string)
  : tag_result :=
  let directory := input_dir cfg project delivery in
  let new_filename := tag +:+ filename in
  if negb (entry_exists fs directory filename) then
    {| tr_fs := fs; tr_ret := (false, msg_not_found);
       tr_log := []; tr_sleeps := 0 |}
  else if entry_exists fs directory new_filename then
    {| tr_fs := fs; tr_ret := (false, msg_conflict);
       tr_log := []; tr_sleeps := 0 |}
  else
    let sleeps := (stability_wait 5 sizes (0, 0)).2 in
    match rn with
    | RenameDone =>
        {| tr_fs := alter (λ d, rename_entry d filename new_filename)
                      directory fs;
           tr_ret := (true, new_filename);
           tr_log := ["✓ 標記完成：" +:+ filename +:+ " → " +:+ new_filename];
           tr_sleeps := sleeps |}
    | RenamePermissionError =>
        {| tr_fs := fs; tr_ret := (false, msg_busy);
           tr_log := []; tr_sleeps := sleeps |}
    | RenameError e =>
        {| tr_fs := fs; tr_ret := (false, e);
           tr_log := ["標記失敗：" +:+ e]; tr_sleeps := sleeps |}
    end.

End Tagger.

(** ** Export naming *)

(** The character class of [sanitize_filename]: backslash, slash, colon,
    star, question mark, double quote (code 34), less, greater, bar. *)
Definition forbidden_char (c : ascii) : bool :=
  match c with
  | "\" | "/" | ":" | "*" | "?" | "034" | "<" | ">" | "|" => true
  | _ => false
  end%char.

(** [re.sub('[cls]+', repl, s)]: scanning from the left, every maximal run
    of characters of the class is replaced by [repl].  [in_run] tells that
    the character before the current one belongs to a run already
    replaced. *)
Fixpoint re_sub_class_plus (cls : ascii → bool) (repl : string)
    (in_run : bool) (s : string) : string :=
  match s with
  | EmptyString => EmptyString
  | String c r =>
      if cls c then
        if in_run then re_sub_class_plus cls repl true r
        else repl +:+ re_sub_class_plus cls repl true r
      else String c (re_sub_class_plus cls repl false r)
  end.

Definition sanitize_filename (name : string) : string :=
  re_sub_class_plus forbidden_char "_" false name.

(** [time.struct_time], the fields [now_ts] prints. *)
Record struct_time := {
  tm_year : Z; tm_mon : Z; tm_mday : Z;
  tm_hour : Z; tm_min : Z; tm_sec : Z
}.

(** A calendar time as [time.localtime()] gives it, with a year of four
    digits. *)
Definition valid_time (t : struct_time) : Prop :=
  (1000 ≤ tm_year t ≤ 9999 ∧ 1 ≤ tm_mon t ≤ 12 ∧ 1 ≤ tm_mday t ≤ 31 ∧
   0 ≤ tm_hour t ≤ 23 ∧ 0 ≤ tm_min t ≤ 59 ∧ 0 ≤ tm_sec t ≤ 61)%Z.

Definition digit (n : Z) : ascii := ascii_of_N (Z.to_N (48 + n `mod` 10)).

(** The decimal digits of [n ≥ 0], most significant first ([fuel] bounds
    the number of digits). *)
Fixpoint decimal_aux (fuel : nat) (n : Z) (acc : string) : string :=
  match fuel with
  | 0 => acc
  | S fuel' =>
      let acc' := String (digit n) acc in
      if (n <? 10)%Z then acc' else decimal_aux fuel' (n `div` 10)%Z acc'
  end.

Definition decimal (n : Z) : string :=
  decimal_aux (S (Z.to_nat (Z.log2 n))) n "".

(** [%m], [%d], [%H], [%M], [%S]: two digits, padded with a zero. *)
Definition strftime_2 (n : Z) : string :=
  if (n <? 10)%Z then "0" +:+ decimal n else decimal n.

(** [time.strftime("%Y%m%d_%H%M%S", t)] *)
Definition now_ts (t : struct_time) : string :=
  decimal (tm_year t) +:+ strftime_2 (tm_mon t) +:+ strftime_2 (tm_mday t)
  +:+ "_" +:+ strftime_2 (tm_hour t) +:+ strftime_2 (tm_min t)
  +:+ strftime_2 (tm_sec t).

(** The name [WordExporter.export] gives the document. *)
Definition export_name (source_filename : string) (t : struct_time) : string :=
  "Review_" +:+ sanitize_filename source_filename +:+ "_" +:+ now_ts t
  +:+ ".docx".

(** [WordExporter.export] once [docx] is imported: [docx] is how creating
    the folder, building and saving the document end; on success the path
    of the saved document is returned. *)
Definition WordExporter_export (docx : outcome unit) (t : struct_time)
    (output_dir source_filename content : string) : outcome string :=
  match docx with
  | Raises e => Raises e
  | Returns _ =>
      Returns (os_path_join output_dir (export_name source_filename t))
  end.

(** ** More of [os.path] and [str] *)

Definition LF : string := String "010"%char "".

Definition bytes (l : list N) : string :=
  String.string_of_list_ascii (ascii_of_N <$> l).

(** The white space [str.strip()] removes, in UTF-8: U+0009 to U+000D,
    U+001C to U+0020, U+0085, U+00A0, U+1680, U+2000 to U+200A, U+2028,
    U+2029, U+202F, U+205F and U+3000. *)
Definition whitespace : list string :=
  bytes <$>
    [ [9]; [10]; [11]; [12]; [13]; [28]; [29]; [30]; [31]; [32];
      [194; 133]; [194; 160]; [225; 154; 128];
      [226; 128; 128]; [226; 128; 129]; [226; 128; 130]; [226; 128; 131];
      [226; 128; 132]; [226; 128; 133]; [226; 128; 134]; [226; 128; 135];
      [226; 128; 136]; [226; 128; 137]; [226; 128; 138];
      [226; 128; 168]; [226; 128; 169]; [226; 128; 175];
      [226; 129; 159]; [227; 128; 128] ]%N.

(** [s] without its first [n] bytes. *)
Fixpoint string_drop (n : nat) (s : string) : string :=
  match n, s with
  | 0, _ => s
  | S n', String _ r => string_drop n' r
  | S _, EmptyString => EmptyString
  end.

(** Removes one leading element of [ws] from [s], if there is one. *)
Definition drop_one_of (ws : list string) (s : string) : option string :=
  (λ w, string_drop (String.length w) s) <$>
    List.find (λ w, String.prefix w s) ws.

Fixpoint lstrip_aux (ws : list string) (fuel : nat) (s : string) : string :=
  match fuel with
  | 0 => s
  | S fuel' =>
      match drop_one_of ws s with
      | Some r => lstrip_aux ws fuel' r
      | None => s
      end
  end.

Definition lstrip_chars (ws : list string) (s : string) : string :=
  lstrip_aux ws (String.length s) s.

Definition rstrip_chars (ws : list string) (s : string) : string :=
  String.rev (lstrip_chars (String.rev <$> ws) (String.rev s)).

(** [s.strip()] *)
Definition strip (s : string) : string :=
  rstrip_chars whitespace (lstrip_chars whitespace s).

Definition all_slashes (s : string) : bool :=
  forallb (λ c, Ascii.eqb c "/") (String.list_ascii_of_string s).

(** [posixpath.dirname(p)] *)
Definition os_path_dirname (p : string) : string :=
  let i := String.length p - String.length (os_path_basename p) in
  let head := String.substring 0 i p in
  if negb (bool_decide (head = "")) && negb (all_slashes head)
  then rstrip_chars ["/"] head
  else head.

(** [os.path.exists(p)] for a full path: a directory of the file system or
    an entry of one. *)
Definition os_path_exists (fs : filesystem) (p : string) : bool :=
  dir_exists fs p || entry_exists fs (os_path_dirname p) (os_path_basename p).

(** ** The prompt *)

Definition sentinel_none : string := "(無)".

Definition bullets (items : list string) : string :=
  Py.join LF ((λ x, "- " +:+ x) <$> Py.list_or items [sentinel_none]).

Definition checklist : string :=
  LF +:+ LF +:+ "請輸出：" +:+ LF +:+ "1) 不符合之處" +:+ LF +:+ "2) 風險" +:+ LF
  +:+ "3) 具體修改建議" +:+ LF +:+ "4) 需人工確認事項" +:+ LF.

(** The string [generate_prompt] builds. *)
Definition prompt_text (std tpl : list string) (tgt : string) : string :=
  ("請以【標準】與【範本】作為依據，逐條審查【待審】文件：" +:+ tgt +:+ LF +:+ LF
   +:+ "【標準】" +:+ LF)
  +:+ bullets std
  +:+ (LF +:+ LF +:+ "【範本】" +:+ LF)
  +:+ bullets tpl
  +:+ checklist.

(** ** The application state *)

(** What Tk's [after] can be asked to call. *)
Inductive callback :=
| cb_poll_clipboard                     (* self._poll_clipboard *)
| cb_run_refresh                        (* self._run_refresh *)
| cb_handle_file (filepath : string)    (* lambda: self.handle_file(filepath) *)
| cb_clear_notification.                (* lambda: self.notification.configure(...) *)

Global Instance callback_eq_dec : EqDecision callback.
Proof. solve_decision. Defined.

(** A pending [after] job: its id, the clock value at which it is due
    (milliseconds) and its callback. *)
Record after_job := { job_id : nat; job_due : nat; job_cb : callback }.

(** The side effects recorded, oldest first. *)
Inductive effect :=
| RefreshAll (tagged untagged : list string)   (* refresh_all recomputed the catalogue *)
| ExportContent (content : string)             (* _export_content was called *)
| WordSaved (path : string)                    (* exporter.export returned *)
| OpenFolder (path : string)
| ShowWarning (msg : string)
| ShowError (msg : string)
| LogError (msg : string).

Record App := mkApp {
  clock : nat;
  after_seq : nat;
  after_queue : list after_job;
  _refresh_job : option nat;
  _clipboard_job : option nat;
  _last_clipboard : option string;
  _clipboard_poll_ms : nat;
  clipboard_auto_var : bool;
  combo_project : string;
  combo_delivery : string;
  combo_review_var : string;
  combo_review_values : list string;
  prompt_display : string;
  reply_display : string;
  notification : string;
  processing : gset string;
  effects : list effect
}.

Definition set_clock (v : nat) (a : App) : App :=
  let '(mkApp _ f2 f3 f4 f5 f6 f7 f8 f9 f10 f11 f12 f13 f14 f15 f16 f17) := a in
  mkApp v f2 f3 f4 f5 f6 f7 f8 f9 f10 f11 f12 f13 f14 f15 f16 f17.
Definition set_after_seq (v : nat) (a : App) : App :=
  let '(mkApp f1 _ f3 f4 f5 f6 f7 f8 f9 f10 f11 f12 f13 f14 f15 f16 f17) := a in
  mkApp f1 v f3 f4 f5 f6 f7 f8 f9 f10 f11 f12 f13 f14 f15 f16 f17.
Definition set_after_queue (v : list after_job) (a : App) : App :=
  let '(mkApp f1 f2 _ f4 f5 f6 f7 f8 f9 f10 f11 f12 f13 f14 f15 f16 f17) := a in
  mkApp f1 f2 v f4 f5 f6 f7 f8 f9 f10 f11 f12 f13 f14 f15 f16 f17.
Definition set_refresh_job (v : option nat) (a : App) : App :=
  let '(mkApp f1 f2 f3 _ f5 f6 f7 f8 f9 f10 f11 f12 f13 f14 f15 f16 f17) := a in
  mkApp f1 f2 f3 v f5 f6 f7 f8 f9 f10 f11 f12 f13 f14 f15 f16 f17.
Definition set_clipboard_job (v : option nat) (a : App) : App :=
  let '(mkApp f1 f2 f3 f4 _ f6 f7 f8 f9 f10 f11 f12 f13 f14 f15 f16 f17) := a in
  mkApp f1 f2 f3 f4 v f6 f7 f8 f9 f10 f11 f12 f13 f14 f15 f16 f17.
Definition set_last_clipboard (v : option string) (a : App) : App :=
  let '(mkApp f1 f2 f3 f4 f5 _ f7 f8 f9 f10 f11 f12 f13 f14 f15 f16 f17) := a in
  mkApp f1 f2 f3 f4 f5 v f7 f8 f9 f10 f11 f12 f13 f14 f15 f16 f17.
Definition set_clipboard_auto_var (v : bool) (a : App) : App :=
  let '(mkApp f1 f2 f3 f4 f5 f6 f7 _ f9 f10 f11 f12 f13 f14 f15 f16 f17) := a in
  mkApp f1 f2 f3 f4 f5 f6 f7 v f9 f10 f11 f12 f13 f14 f15 f16 f17.
Definition set_combo_review (v : string) (vs : list string) (a : App) : App :=
  let '(mkApp f1 f2 f3 f4 f5 f6 f7 f8 f9 f10 _ _ f13 f14 f15 f16 f17) := a in
  mkApp f1 f2 f3 f4 f5 f6 f7 f8 f9 f10 v vs f13 f14 f15 f16 f17.
Definition set_prompt_display (v : string) (a : App) : App :=
  let '(mkApp f1 f2 f3 f4 f5 f6 f7 f8 f9 f10 f11 f12 _ f14 f15 f16 f17) := a in
  mkApp f1 f2 f3 f4 f5 f6 f7 f8 f9 f10 f11 f12 v f14 f15 f16 f17.
Definition set_reply_display (v : string) (a : App) : App :=
  let '(mkApp f1 f2 f3 f4 f5 f6 f7 f8 f9 f10 f11 f12 f13 _ f15 f16 f17) := a in
  mkApp f1 f2 f3 f4 f5 f6 f7 f8 f9 f10 f11 f12 f13 v f15 f16 f17.
Definition set_notification (v : string) (a : App) : App :=
  let '(mkApp f1 f2 f3 f4 f5 f6 f7 f8 f9 f10 f11 f12 f13 f14 _ f16 f17) := a in
  mkApp f1 f2 f3 f4 f5 f6 f7 f8 f9 f10 f11 f12 f13 f14 v f16 f17.
Definition set_processing (v : gset string) (a : App) : App :=
  let '(mkApp f1 f2 f3 f4 f5 f6 f7 f8 f9 f10 f11 f12 f13 f14 f15 _ f17) := a in
  mkApp f1 f2 f3 f4 f5 f6 f7 f8 f9 f10 f11 f12 f13 f14 f15 v f17.
Definition emit (e : effect) (a : App) : App :=
  let '(mkApp f1 f2 f3 f4 f5 f6 f7 f8 f9 f10 f11 f12 f13 f14 f15 f16 f17) := a in
  mkApp f1 f2 f3 f4 f5 f6 f7 f8 f9 f10 f11 f12 f13 f14 f15 f16 (f17 ++ [e]).

(** The state [__init__] leaves (before [_build_ui] and the first refresh). *)
Definition initial_app (project delivery : string) : App := {|
  clock := 0; after_seq := 0; after_queue := [];
  _refresh_job := None; _clipboard_job := None; _last_clipboard := None;
  _clipboard_poll_ms := 700; clipboard_auto_var := false;
  combo_project := project; combo_delivery := delivery;
  combo_review_var := sentinel_none; combo_review_values := [];
  prompt_display := ""; reply_display := ""; notification := "";
  processing := ∅; effects := []
|}.

(** What the application reads from outside when a handler runs. *)
Record World := {
  w_fs : filesystem;
  w_clipboard : outcome string;   (* clipboard_get(); Raises: TclError *)
  w_docx_import : outcome unit;   (* from docx import Document; Raises: ImportError *)
  w_docx : outcome unit;          (* how building and saving the document ends *)
  w_time : struct_time
}.

(** ** Tk timers *)

(** [self.after(delay, cb)]: a new job, with the next id. *)
Definition after (delay : nat) (cb : callback) (a : App) : nat * App :=
  let id := after_seq a in
  (id,
   set_after_seq (S id)
     (set_after_queue
        (after_queue a ++ [{| job_id := id; job_due := clock a + delay;
                              job_cb := cb |}]) a)).

(** [self.after_cancel(id)] *)
Definition after_cancel (id : nat) (a : App) : App :=
  set_after_queue (filter (λ j, job_id j ≠ id) (after_queue a)) a.

(** [if job: self.after_cancel(job)]: an id of Tk is a non-empty string, so
    every job that is not [None] is truthy. *)
Definition cancel_if_set (job : option nat) (a : App) : App :=
  match job with
  | Some id => after_cancel id a
  | None => a
  end.

Definition show_notification (message : string) (a : App) : App :=
  (after 3000 cb_clear_notification
     (set_notification ("  " +:+ message +:+ "  ") a)).2.

Definition clear_notification (a : App) : App := set_notification "" a.

(** ** The application *)

Record fs_event := { is_directory : bool; src_path : string }.

Section Application.

Variable cfg : AppConfig.
Variable os_listdir : directory → list string.

Definition current_project (a : App) : string := combo_project a.
Definition current_delivery (a : App) : string := combo_delivery a.

(** [combo_review.set] also sets [combo_review_var], the variable of the
    option menu. *)
Definition refresh_review_combo (tagged : list string) (a : App) : App :=
  let review := filter (λ f, Py.startswith f tag_review) tagged in
  match review with
  | first :: _ => set_combo_review first review a
  | [] => set_combo_review sentinel_none [sentinel_none] a
  end.

Definition refresh_all (w : World) (a : App) : App :=
  let '(tagged, untagged) :=
    list_input_files cfg os_listdir (w_fs w)
      (current_project a) (current_delivery a) in
  emit (RefreshAll tagged untagged) (refresh_review_combo tagged a).

Definition schedule_refresh (delay_ms : nat) (a : App) : App :=
  let a1 := cancel_if_set (_refresh_job a) a in
  let '(id, a2) := after delay_ms cb_run_refresh a1 in
  set_refresh_job (Some id) a2.

Definition _run_refresh (w : World) (a : App) : App :=
  refresh_all w (set_refresh_job None a).

Definition _get_clipboard_text (w : World) : string :=
  match w_clipboard w with
  | Raises _ => ""
  | Returns text => strip text
  end.

Definition _set_reply_text (text : string) (a : App) : App :=
  set_reply_display text a.

Definition msg_missing_docx : string :=
  "缺少 python-docx，執行：pip install python-docx".

(** [self.exporter.export(...)] as [_export_content] calls it: the import
    of [docx] comes first, and when it fails the exporter logs a hint
    and raises the error again.  The result is what the exporter wrote to
    the log at level error and how the call ends. *)
Definition exporter_export (w : World)
    (output_dir source_filename content : string)
  : list string * outcome string :=
  match w_docx_import w with
  | Raises e => ([msg_missing_docx], Raises e)
  | Returns _ =>
      ([], WordExporter_export (w_docx w) (w_time w)
             output_dir source_filename content)
  end.

(** [self.logger.error(m)] for each [m]. *)
Definition log_errors (logged : list string) (a : App) : App :=
  fold_left (λ a m, emit (LogError m) a) logged a.

(** [_export_content]; with [open_dir] the folder is opened after the
    export (a failure of that step is not modelled). *)
Definition _export_content (w : World) (content : string)
    (open_dir show_error_dialog : bool) (a : App) : App * bool :=
  let a := emit (ExportContent content) a in
  let tgt := combo_review_var a in
  if bool_decide (content = "") then
    (if show_error_dialog then emit (ShowWarning "回覆內容是空的") a
     else show_notification "⚠ 回覆內容是空的" a, false)
  else if bool_decide (tgt = sentinel_none) then
    (if show_error_dialog then emit (ShowWarning "沒有選擇待審檔案") a
     else show_notification "⚠ 請先選擇待審檔案" a, false)
  else
    let '(logged, result) :=
      exporter_export w
        (output_dir cfg (current_project a) (current_delivery a))
        tgt content in
    let a := log_errors logged a in
    match result with
    | Returns path =>
        let a := emit (WordSaved path) a in
        let a :=
          show_notification ("✓ Word 已輸出：" +:+ os_path_basename path) a in
        (if open_dir then emit (OpenFolder (os_path_dirname path)) a else a,
         true)
    | Raises e =>
        let a := emit (LogError ("Word 輸出失敗：" +:+ e)) a in
        (if show_error_dialog then emit (ShowError ("Word 輸出失敗：" +:+ e)) a
         else show_notification "⚠ Word 輸出失敗" a, false)
    end.

Definition _schedule_clipboard_poll (immediate : bool) (a : App) : App :=
  let a1 := cancel_if_set (_clipboard_job a) a in
  let delay := if immediate then 10 else _clipboard_poll_ms a1 in
  let '(id, a2) := after delay cb_poll_clipboard a1 in
  set_clipboard_job (Some id) a2.

Definition toggle_clipboard_watch (a : App) : App :=
  if clipboard_auto_var a then
    let a := set_last_clipboard None a in
    let a := show_notification "✓ 已啟用剪貼簿監聽" a in
    _schedule_clipboard_poll true a
  else
    let a :=
      match _clipboard_job a with
      | Some id => set_clipboard_job None (after_cancel id a)
      | None => a
      end in
    show_notification "✓ 已停止剪貼簿監聽" a.

Definition _poll_clipboard (w : World) (a : App) : App :=
  let a := set_clipboard_job None a in
  if negb (clipboard_auto_var a) then a
  else
    let content := _get_clipboard_text w in
    let a :=
      if negb (bool_decide (content = ""))
         && negb (bool_decide (Some content = _last_clipboard a))
      then
        let a := set_last_clipboard (Some content) a in
        let a := _set_reply_text content a in
        (_export_content w content false false a).1
      else a in
    _schedule_clipboard_poll false a.

Definition generate_prompt (w : World) (a : App) : App :=
  let '(tagged, untagged) :=
    list_input_files cfg os_listdir (w_fs w)
      (current_project a) (current_delivery a) in
  let a := refresh_review_combo tagged a in
  let std := filter (λ f, Py.startswith f tag_standard) tagged in
  let tpl := filter (λ f, Py.startswith f tag_template) tagged in
  let tgt := combo_review_var a in
  if bool_decide (tgt = sentinel_none) then
    emit (ShowWarning "沒有待審檔案") a
  else
    let prompt := prompt_text std tpl tgt in
    show_notification "✓ 提示詞已生成" (set_prompt_display prompt a).

(** *** AutoTagHandler *)

Definition on_created (event : fs_event) (a : App) : App :=
  if is_directory event then a
  else
    let filepath := src_path event in
    let filename := os_path_basename filepath in
    if is_skip_file filename || bool_decide (filepath ∈ processing a) then a
    else
      (after 800 (cb_handle_file filepath)
         (set_processing ({[filepath]} ∪ processing a) a)).2.

Definition on_modified (event : fs_event) (a : App) : App :=
  if is_directory event then a
  else
    let filename := os_path_basename (src_path event) in
    if is_skip_file filename then a
    else schedule_refresh 300 a.

Definition on_moved (event : fs_event) (a : App) : App :=
  if is_directory event then a else schedule_refresh 300 a.

Definition on_deleted (event : fs_event) (a : App) : App :=
  if is_directory event then a else schedule_refresh 300 a.

Definition handle_file (w : World) (filepath : string) (a : App) : App :=
  if negb (os_path_exists (w_fs w) filepath) then
    set_processing (processing a ∖ {[filepath]}) a
  else
    let a := show_notification "📥 偵測到新檔案，請標記" a in
    let a := schedule_refresh 200 a in
    set_processing (processing a ∖ {[filepath]}) a.

(** *** The event loop *)

Definition run_callback (w : World) (cb : callback) (a : App) : App :=
  match cb with
  | cb_poll_clipboard => _poll_clipboard w a
  | cb_run_refresh => _run_refresh w a
  | cb_handle_file filepath => handle_file w filepath a
  | cb_clear_notification => clear_notification a
  end.

(** Tk runs the job [id] if it is pending and due: the job leaves the
    queue, then its callback is called. *)
Definition fire (w : World) (id : nat) (a : App) : App :=
  match List.find (λ j, Nat.eqb (job_id j) id) (after_queue a) with
  | Some j =>
      if job_due j <=? clock a
      then run_callback w (job_cb j) (after_cancel id a)
      else a
  | None => a
  end.

(** What can happen to the application. *)
Inductive input :=
| Elapse (ms : nat)                 (* time passes *)
| TkFire (id : nat)                 (* Tk runs a due job *)
| Created (event : fs_event)        (* watchdog events *)
| Modified (event : fs_event)
| Moved (event : fs_event)
| Deleted (event : fs_event)
| ClickClipboardWatch               (* the user flips the check box *)
| ClickGeneratePrompt.

(** One input, handled as a whole: the handler or callback runs from its
    first statement to its return, and nothing else happens in between.
    This is how the callbacks of the Tk thread follow one another.  The
    handlers of the file events run on the observer thread; as a step
    they stand for a call that no callback of the Tk thread overlaps
    ([move], further down, takes such a call apart). *)
Definition step (w : World) (i : input) (a : App) : App :=
  match i with
  | Elapse ms => set_clock (clock a + ms) a
  | TkFire id => fire w id a
  | Created event => on_created event a
  | Modified event => on_modified event a
  | Moved event => on_moved event a
  | Deleted event => on_deleted event a
  | ClickClipboardWatch =>
      toggle_clipboard_watch
        (set_clipboard_auto_var (negb (clipboard_auto_var a)) a)
  | ClickGeneratePrompt => generate_prompt w a
  end.

(** A run: the inputs in order, each with the world it meets. *)
Fixpoint run (tr : list (World * input)) (a : App) : App :=
  match tr with
  | [] => a
  | (w, i) :: rest => run rest (step w i a)
  end.

End Application.


(** ** Vocabulary of the specification *)

(** [f] begins with [p]. *)
Definition begins_with (f p : string) : Prop := ∃ r, f = p +:+ r.

(** [f] ends with [p]. *)
Definition ends_with (f p : string) : Prop := ∃ u, f = u +:+ p.

(** The skip predicate: a lock marker or a hidden-file marker in front, or
    the temporary-file suffix at the end. *)
Definition skip_eligible (fn : string) : Prop :=
  begins_with fn "~$" ∨ begins_with fn "." ∨ ends_with fn ".tmp".

(** [f] carries one of the tag prefixes. *)
Definition has_tag (tgs : list string) (f : string) : Prop :=
  ∃ t, t ∈ tgs ∧ begins_with f t.

(** The regular files of a directory, and those of them the skip predicate
    hides. *)
Definition regular_entries (d : directory) : nat :=
  size (filter (λ kv : string * node, kind kv.2 = RegularFile) d).

Definition skipped_entries (d : directory) : nat :=
  size (filter (λ kv : string * node,
                  kind kv.2 = RegularFile ∧ is_skip_file kv.1) d).

(** [f] names a regular file of [d] that the skip predicate does not hide. *)
Definition listed (d : directory) (f : string) : Prop :=
  (∃ n, d !! f = Some n ∧ kind n = RegularFile) ∧ ¬ skip_eligible f.

(** [os.listdir] enumerates exactly the entries of a directory, each once,
    in some order. *)
Definition listdir_ok (os_listdir : directory → list string) : Prop :=
  ∀ d : directory, os_listdir d ≡ₚ (map_to_list d).*1.

(** The order in which a [gmap] enumerates its keys: one admissible
    [os.listdir]. *)
Definition listdir_keys (d : directory) : list string := (map_to_list d).*1.

(** ** Sample data *)

Definition sample_cfg : AppConfig := default_config "/srv/review".

Definition sample_input : string := input_dir sample_cfg "P" "D".

Definition sample_dir : directory :=
  list_to_map
    [ ("draft.pdf", Node RegularFile "pdf");
      ("【待審】report.docx", Node RegularFile "docx");
      ("【標準】rules.txt", Node RegularFile "rules");
      ("~$report.docx", Node RegularFile "lock");
      (".cache", Node RegularFile "");
      ("upload.tmp", Node RegularFile "partial");
      ("archive", Node SubDirectory "") ].

Definition sample_fs : filesystem := {[ sample_input := sample_dir ]}.


(** ** Vocabulary for the export name *)

(** Replacing every single forbidden character by an underscore: the
    sanitization as the specification words it. *)
Fixpoint replace_each_forbidden (s : string) : string :=
  match s with
  | EmptyString => EmptyString
  | String c r =>
      String (if forbidden_char c then "_"%char else c)
             (replace_each_forbidden r)
  end.

Definition all_forbidden (s : string) : Prop :=
  Forall (λ c, forbidden_char c = true) (String.list_ascii_of_string s).

(** [s] is empty or begins with a character that is not forbidden. *)
Definition run_ended (s : string) : Prop :=
  match s with
  | EmptyString => True
  | String c _ => forbidden_char c = false
  end.

(** [collapsed s s']: [s'] is [s] with every maximal run of forbidden
    characters replaced by one underscore, everything else kept. *)
Inductive collapsed : string → string → Prop :=
| collapsed_nil : collapsed "" ""
| collapsed_keep c s s' :
    forbidden_char c = false → collapsed s s' →
    collapsed (String c s) (String c s')
| collapsed_run run s s' :
    run ≠ "" → all_forbidden run → run_ended s → collapsed s s' →
    collapsed (run +:+ s) ("_" +:+ s').

(** No two forbidden characters stand next to each other in [s]. *)
Fixpoint no_adjacent_forbidden (s : string) : Prop :=
  match s with
  | EmptyString => True
  | String c r =>
      (forbidden_char c = true → run_ended r) ∧ no_adjacent_forbidden r
  end.

Definition is_digit (c : ascii) : bool :=
  (48 <=? N_of_ascii c)%N && (N_of_ascii c <=? 57)%N.

(** [s] consists of exactly [k] decimal digits. *)
Definition digits (k : nat) (s : string) : Prop :=
  String.length s = k ∧
  forallb is_digit (String.list_ascii_of_string s) = true.

Definition digitsb (k : nat) (s : string) : bool :=
  Nat.eqb (String.length s) k
  && forallb is_digit (String.list_ascii_of_string s).

(** The form YYYYMMDD_HHMMSS. *)
Definition timestamp_form (s : string) : Prop :=
  ∃ year mon mday hour min sec,
    s = year +:+ mon +:+ mday +:+ "_" +:+ hour +:+ min +:+ sec ∧
    digits 4 year ∧ digits 2 mon ∧ digits 2 mday ∧
    digits 2 hour ∧ digits 2 min ∧ digits 2 sec.

Definition sample_time : struct_time :=
  {| tm_year := 2026; tm_mon := 1; tm_mday := 9;
     tm_hour := 0; tm_min := 59; tm_sec := 7 |}.


(** ** Vocabulary for the prompt *)

(** What the specification asks of a prompt built from the standards
    [std], the templates [tpl] and the target [tgt]: the target name, every
    standard and every template as a bulleted line of its own, the
    placeholder as the only bullet under a heading whose list is empty,
    and the four numbered requests. *)
Definition prompt_ok (std tpl : list string) (tgt p : string) : Prop :=
  Py.contains tgt p ∧
  (∀ x, x ∈ std → Py.contains (LF +:+ "- " +:+ x +:+ LF) p) ∧
  (∀ x, x ∈ tpl → Py.contains (LF +:+ "- " +:+ x +:+ LF) p) ∧
  (std = [] →
   Py.contains
     ("【標準】" +:+ LF +:+ "- " +:+ sentinel_none +:+ LF +:+ LF +:+ "【範本】") p) ∧
  (tpl = [] →
   Py.contains
     ("【範本】" +:+ LF +:+ "- " +:+ sentinel_none +:+ LF +:+ LF +:+ "請輸出：") p) ∧
  Py.contains
    (LF +:+ "1) 不符合之處" +:+ LF +:+ "2) 風險" +:+ LF +:+ "3) 具體修改建議"
     +:+ LF +:+ "4) 需人工確認事項" +:+ LF) p.


(** ** Vocabulary for the timers and the runs *)

(** The pending jobs that will call [_run_refresh]. *)
Definition pending_refresh (a : App) : list after_job :=
  filter (λ j, job_cb j = cb_run_refresh) (after_queue a).

(** The pending jobs that will call [_poll_clipboard]. *)
Definition pending_poll (a : App) : list after_job :=
  filter (λ j, job_cb j = cb_poll_clipboard) (after_queue a).

(** How often [refresh_all] has recomputed the catalogue. *)
Definition is_refresh_all (e : effect) : bool :=
  match e with RefreshAll _ _ => true | _ => false end.

Definition refresh_count (a : App) : nat :=
  length (filter (λ e, is_refresh_all e) (effects a)).

(** The contents [_export_content] was called with, oldest first. *)
Definition export_calls (a : App) : list string :=
  omap (λ e, match e with ExportContent c => Some c | _ => None end)
       (effects a).

(** What the timer invariant reads of a state. *)
Definition timer_view (a : App) : nat * list after_job * option nat :=
  (after_seq a, after_queue a, _refresh_job a).

(** The timer invariant: ids of pending jobs are below the next id and
    pairwise different, and every pending refresh job is the one
    [_refresh_job] names. *)
Definition view_ok (v : nat * list after_job * option nat) : Prop :=
  let '(seq, queue, rj) := v in
  Forall (λ j, job_id j < seq) queue ∧
  NoDup (job_id <$> queue) ∧
  Forall (λ j, job_cb j = cb_run_refresh → rj = Some (job_id j)) queue.

Definition timers_ok (a : App) : Prop := view_ok (timer_view a).

(** The queue once the job [job], if any, is cancelled. *)
Definition queue_without (job : option nat) (queue : list after_job)
  : list after_job :=
  match job with
  | Some id => filter (λ j, job_id j ≠ id) queue
  | None => queue
  end.

(** The job a refresh request made in state [a] leaves pending. *)
Definition refresh_job_of (delay_ms : nat) (a : App) : after_job :=
  {| job_id := after_seq a; job_due := clock a + delay_ms;
     job_cb := cb_run_refresh |}.

(** The state right after a refresh request: one refresh job is pending,
    due 300 ms from now, and [_refresh_job] names it. *)
Definition refresh_requested (a : App) : Prop :=
  ∃ id,
    pending_refresh a
    = [{| job_id := id; job_due := clock a + 300; job_cb := cb_run_refresh |}] ∧
    _refresh_job a = Some id.

(** The inputs that ask for a refresh: a move or a deletion of a file, or
    a modification of a file the skip predicate does not hide. *)
Definition requests_refresh (i : input) : bool :=
  match i with
  | Modified event =>
      negb (is_directory event)
      && negb (is_skip_file (os_path_basename (src_path event)))
  | Moved event | Deleted event => negb (is_directory event)
  | _ => false
  end.

Section Runs.

Variable cfg : AppConfig.
Variable os_listdir : directory → list string.

(** The states the application can be in when every handler and callback
    runs as a whole: no call on the observer thread overlaps a callback
    of the Tk thread. *)
Inductive reachable : App → Prop :=
| reachable_init project delivery : reachable (initial_app project delivery)
| reachable_step w i a :
    reachable a → reachable (step cfg os_listdir w i a).

(** A burst: requests for a refresh, each after some time has passed
    ([gap] milliseconds since the input before), with nothing else in
    between. *)
Fixpoint burst (w : World) (reqs : list (nat * input)) (a : App) : App :=
  match reqs with
  | [] => a
  | (gap, i) :: rest =>
      burst w rest (step cfg os_listdir w i (step cfg os_listdir w (Elapse gap) a))
  end.

End Runs.


(** ** Vocabulary for the clipboard monitor *)

(** What the clipboard claims read of a state. *)
Definition clip_view (a : App) : option string * bool * list effect :=
  (_last_clipboard a, clipboard_auto_var a, effects a).

Definition is_export_content (e : effect) : bool :=
  match e with ExportContent _ => true | _ => false end.

(** The content is new: not empty and not the one seen last. *)
Definition is_new_content (content : string) (a : App) : Prop :=
  content ≠ "" ∧ _last_clipboard a ≠ Some content.

(** The test of [_poll_clipboard] on the text it has read. *)
Definition fresh_content (content : string) (a : App) : bool :=
  negb (bool_decide (content = ""))
  && negb (bool_decide (Some content = _last_clipboard a)).

Section Monitoring.

Variable cfg : AppConfig.
Variable os_listdir : directory → list string.

(** Along the run no click on the check box switches monitoring on. *)
Fixpoint never_armed_again (tr : list (World * input)) (a : App) : Prop :=
  match tr with
  | [] => True
  | (w, i) :: rest =>
      ¬ (i = ClickClipboardWatch ∧ clipboard_auto_var a = false) ∧
      never_armed_again rest (step cfg os_listdir w i a)
  end.

End Monitoring.

(** A world whose clipboard holds [text] and in which the document cannot
    be written. *)
Definition world_failing (text : string) : World :=
  {| w_fs := sample_fs; w_clipboard := Returns text;
     w_docx_import := Returns ();
     w_docx := Raises "disk full"; w_time := sample_time |}.


(** An armed monitor with a review target selected. *)
Definition armed_app : App :=
  set_clipboard_auto_var true
    (set_combo_review "【待審】report.docx" ["【待審】report.docx"]
       (initial_app "P" "D")).


(** A world with the sample directory and an empty clipboard. *)
Definition sample_world : World :=
  {| w_fs := sample_fs; w_clipboard := Returns "";
     w_docx_import := Returns ();
     w_docx := Returns (); w_time := sample_time |}.

(** Ten modifications of one file, 20 ms apart. *)
Definition ten_modifications : list (nat * input) :=
  replicate 10
    (20, Modified {| is_directory := false;
                     src_path := "/srv/review/P/D/input/draft.pdf" |}).


(** ** Vocabulary for the further properties *)

(** No character of [s] satisfies [P]. *)
Definition free_of (P : ascii → bool) (s : string) : Prop :=
  Forall (λ c, P c = false) (String.list_ascii_of_string s).

Definition is_slash (c : ascii) : bool := Ascii.eqb c "/".


(** [s] is made of white space only (possibly empty). *)
Inductive blank : string → Prop :=
| blank_nil : blank ""
| blank_cons w s : w ∈ whitespace → blank s → blank (w +:+ s).

(** No element of [ws] is a prefix of another one. *)
Definition prefix_free (ws : list string) : bool :=
  forallb (λ w, forallb (λ w', implb (String.prefix w w') (String.eqb w w')) ws)
          ws.


(** ** The timer state, for the invariants of the handles *)

(** The fields of the application the timer handles depend on. *)
Record tview := TView {
  tv_seq : nat;
  tv_queue : list after_job;
  tv_rj : option nat;          (* _refresh_job *)
  tv_cj : option nat;          (* _clipboard_job *)
  tv_auto : bool;              (* clipboard_auto_var *)
  tv_proc : gset string;       (* AutoTagHandler.processing *)
  tv_ms : nat;                 (* _clipboard_poll_ms *)
  tv_clock : nat
}.

Definition tview_of (a : App) : tview :=
  TView (after_seq a) (after_queue a) (_refresh_job a) (_clipboard_job a)
        (clipboard_auto_var a) (processing a) (_clipboard_poll_ms a) (clock a).

(** [after], [after_cancel] and the assignments, on the timer state. *)
Definition tv_push (delay : nat) (cb : callback) (v : tview) : tview :=
  TView (S (tv_seq v))
        (tv_queue v ++ [{| job_id := tv_seq v; job_due := tv_clock v + delay;
                           job_cb := cb |}])
        (tv_rj v) (tv_cj v) (tv_auto v) (tv_proc v) (tv_ms v) (tv_clock v).

Definition tv_cancel (id : nat) (v : tview) : tview :=
  TView (tv_seq v) (filter (λ j, job_id j ≠ id) (tv_queue v))
        (tv_rj v) (tv_cj v) (tv_auto v) (tv_proc v) (tv_ms v) (tv_clock v).

Definition tv_cancel_if_set (job : option nat) (v : tview) : tview :=
  match job with Some id => tv_cancel id v | None => v end.

Definition tv_with_rj (rj : option nat) (v : tview) : tview :=
  TView (tv_seq v) (tv_queue v) rj (tv_cj v) (tv_auto v) (tv_proc v)
        (tv_ms v) (tv_clock v).

Definition tv_with_cj (cj : option nat) (v : tview) : tview :=
  TView (tv_seq v) (tv_queue v) (tv_rj v) cj (tv_auto v) (tv_proc v)
        (tv_ms v) (tv_clock v).

Definition tv_with_auto (b : bool) (v : tview) : tview :=
  TView (tv_seq v) (tv_queue v) (tv_rj v) (tv_cj v) b (tv_proc v)
        (tv_ms v) (tv_clock v).

Definition tv_with_proc (p : gset string) (v : tview) : tview :=
  TView (tv_seq v) (tv_queue v) (tv_rj v) (tv_cj v) (tv_auto v) p
        (tv_ms v) (tv_clock v).

Definition tv_with_clock (c : nat) (v : tview) : tview :=
  TView (tv_seq v) (tv_queue v) (tv_rj v) (tv_cj v) (tv_auto v) (tv_proc v)
        (tv_ms v) c.

(** [schedule_refresh] and [_schedule_clipboard_poll] on the timer state. *)
Definition tv_schedule_refresh (delay : nat) (v : tview) : tview :=
  let v1 := tv_cancel_if_set (tv_rj v) v in
  tv_with_rj (Some (tv_seq v1)) (tv_push delay cb_run_refresh v1).

Definition tv_schedule_poll (immediate : bool) (v : tview) : tview :=
  let v1 := tv_cancel_if_set (tv_cj v) v in
  tv_with_cj (Some (tv_seq v1))
    (tv_push (if immediate then 10 else tv_ms v1) cb_poll_clipboard v1).

(** [v'] is [v] after some notifications were shown: jobs that clear the
    notification were added, nothing else changed. *)
Inductive clears : tview → tview → Prop :=
| clears_refl v : clears v v
| clears_push v v' d :
    clears v v' → clears v (tv_push d cb_clear_notification v').

(** The paths of the pending [handle_file] jobs, and the jobs of one
    callback. *)
Definition handle_paths (queue : list after_job) : list string :=
  omap (λ j, match job_cb j with
             | cb_handle_file p => Some p
             | _ => None
             end) queue.

Definition jobs_of (cb : callback) (queue : list after_job) : list after_job :=
  filter (λ j, job_cb j = cb) queue.

(** [h] names a pending job with callback [cb], or is [None]. *)
Definition names_job (cb : callback) (queue : list after_job)
    (h : option nat) : Prop :=
  ∀ id, h = Some id → ∃ j, j ∈ queue ∧ job_id j = id ∧ job_cb j = cb.

(** Every pending job with callback [cb] is the one [h] names. *)
Definition named_by (cb : callback) (queue : list after_job)
    (h : option nat) : Prop :=
  ∀ j, j ∈ queue → job_cb j = cb → h = Some (job_id j).

(** The invariant without the part on the poll handle; [P] is the set the
    in-flight paths are compared with. *)
Definition view_weak (P : gset string) (v : tview) : Prop :=
  Forall (λ j, job_id j < tv_seq v) (tv_queue v) ∧
  NoDup (job_id <$> tv_queue v) ∧
  named_by cb_run_refresh (tv_queue v) (tv_rj v) ∧
  names_job cb_run_refresh (tv_queue v) (tv_rj v) ∧
  named_by cb_poll_clipboard (tv_queue v) (tv_cj v) ∧
  NoDup (handle_paths (tv_queue v)) ∧
  (∀ p, p ∈ handle_paths (tv_queue v) ↔ p ∈ P) ∧
  tv_ms v = 700.

(** The full invariant: moreover [_clipboard_job] names a pending poll
    job, and it is set exactly while monitoring is armed. *)
Definition view_full (P : gset string) (v : tview) : Prop :=
  view_weak P v ∧
  names_job cb_poll_clipboard (tv_queue v) (tv_cj v) ∧
  (tv_auto v = true ↔ is_Some (tv_cj v)).

Definition handles_ok (a : App) : Prop :=
  view_full (processing a) (tview_of a).


(** ** Vocabulary for the review target *)

(** [f] is a review file of the input folder of [project] and [delivery]:
    a listed file there that begins with the review tag. *)
Definition review_file (cfg : AppConfig) (fs : filesystem)
    (project delivery f : string) : Prop :=
  ∃ d, fs !! input_dir cfg project delivery = Some d ∧
       listed d f ∧ begins_with f tag_review.

(** ** [shorten_path] *)

(** A [str] as the sequence of its code points, for the code that counts
    and slices characters. *)
Abbreviation codepoints := (list N).

(** [s[:k]] and [s[k:]]: a negative index counts from the end, and an
    index outside the string is clamped. *)
Definition slice_to (s : codepoints) (k : Z) : codepoints :=
  if (k <? 0)%Z then take (Z.to_nat (Z.of_nat (length s) + k)) s
  else take (Z.to_nat k) s.

Definition slice_from (s : codepoints) (k : Z) : codepoints :=
  if (k <? 0)%Z then drop (Z.to_nat (Z.of_nat (length s) + k)) s
  else drop (Z.to_nat k) s.

(** The three dots of the f-string. *)
Definition ellipsis : codepoints := [46; 46; 46]%N.

Definition shorten_path (path : codepoints) (max_len : Z) : codepoints :=
  if (Z.of_nat (length path) <=? max_len)%Z then path
  else
    let head := (max_len `div` 2 - 2)%Z in
    let tail := (max_len - head - 3)%Z in
    slice_to path head ++ ellipsis ++ slice_from path (- tail).

(** ** Reading a timestamp back *)

(** The number a string of decimal digits writes. *)
Definition digits_value (s : string) : Z :=
  fold_left (λ acc c, (10 * acc + (Z.of_N (N_of_ascii c) - 48))%Z)
            (String.list_ascii_of_string s) 0%Z.


(** [sub in s], decided. *)
Fixpoint containsb (sub s : string) : bool :=
  String.prefix sub s
  || match s with
     | EmptyString => false
     | String _ r => containsb sub r
     end.


(** ** Vocabulary for trimmed text *)

(** [s] is a sequence of elements of [ws]. *)
Inductive made_of (ws : list string) : string → Prop :=
| made_nil : made_of ws ""
| made_cons w s : w ∈ ws → made_of ws s → made_of ws (w +:+ s).

(** [content] is [text] without the white space at its two ends: what is
    cut off in front and behind is white space only, and [content]
    neither begins nor ends with white space. *)
Definition trimmed (text content : string) : Prop :=
  ∃ pre post,
    text = pre +:+ content +:+ post ∧ blank pre ∧ blank post ∧
    ∀ w, w ∈ whitespace → ¬ begins_with content w ∧ ¬ ends_with content w.

(** The ways to cut [w] into two non-empty parts. *)
Fixpoint splits (w : string) : list (string * string) :=
  match w with
  | EmptyString => []
  | String c r =>
      match r with
      | EmptyString => []
      | String _ _ => [(String c "", r)]
      end ++ ((λ xy : string * string, (String c xy.1, xy.2)) <$> splits r)
  end.

(** No proper end part of an element of [ws] begins like an element of
    [ws]. *)
Definition clash_free (ws : list string) : bool :=
  forallb
    (λ w, forallb
            (λ xy : string * string,
               forallb (λ w', negb (String.prefix xy.2 w'
                                    || String.prefix w' xy.2)) ws)
            (splits w))
    ws.


(** ** [schedule_refresh] on two threads *)

(** [step] runs every handler as a whole.  In the program the handlers of
    the file events are called on the thread of the watchdog observer,
    while the callbacks of [after] run on the Tk thread, and nothing
    keeps one from running between two steps of the other.  The
    following is [schedule_refresh], as the observer thread runs it, one
    attribute access or call at a time. *)

(** Where a thread stands in [schedule_refresh(delay_ms)]: before the
    test of [self._refresh_job], before [self.after_cancel(...)], before
    [self.after(...)], before the assignment (with the id that [after]
    returned), after the end, or stopped by the [ValueError] that
    [after_cancel(None)] raises. *)
Inductive sr_point :=
| sr_test (delay_ms : nat)
| sr_cancel (delay_ms : nat)
| sr_after (delay_ms : nat)
| sr_store (id : nat)
| sr_done
| sr_raised.

Definition sr_step (p : sr_point) (a : App) : sr_point * App :=
  match p with
  | sr_test delay_ms =>
      (match _refresh_job a with
       | Some _ => sr_cancel delay_ms
       | None => sr_after delay_ms
       end, a)
  | sr_cancel delay_ms =>
      match _refresh_job a with
      | Some id => (sr_after delay_ms, after_cancel id a)
      | None => (sr_raised, a)
      end
  | sr_after delay_ms =>
      let '(id, a') := after delay_ms cb_run_refresh a in (sr_store id, a')
  | sr_store id => (sr_done, set_refresh_job (Some id) a)
  | sr_done => (sr_done, a)
  | sr_raised => (sr_raised, a)
  end.

(** What the two threads do, in the order in which it happens: a
    callback of the Tk thread runs as a whole, the observer thread enters
    the handler of a modification, move or deletion (and from it
    [schedule_refresh(300)], when the event asks for a refresh), or the
    observer thread goes on by one step. *)
Inductive thread_move :=
| TkRuns (w : World) (i : input)
| ObserverEnters (i : input)
| ObserverSteps.

Section Threads.

Variable cfg : AppConfig.
Variable os_listdir : directory → list string.

Definition move (m : thread_move) (s : App * sr_point) : App * sr_point :=
  match m with
  | TkRuns w i => (step cfg os_listdir w i s.1, s.2)
  | ObserverEnters i =>
      match s.2 with
      | sr_done => (s.1, if requests_refresh i then sr_test 300 else sr_done)
      | _ => s
      end
  | ObserverSteps => let '(p, a) := sr_step s.2 s.1 in (a, p)
  end.

Fixpoint moves (ms : list thread_move) (s : App * sr_point)
  : App * sr_point :=
  match ms with
  | [] => s
  | m :: rest => moves rest (move m s)
  end.

End Threads.

(** * Properties *)

(** ** Strings *)

Section StringFacts.

Lemma app_nil_r_s (s : string) : s +:+ "" = s.
Proof. induction s as [|c s IH]; [done|]. unfold String.app in *; simpl. by rewrite IH. Qed.

Lemma app_assoc_s (a b c : string) : (a +:+ b) +:+ c = a +:+ b +:+ c.
Proof.
  induction a as [|x a IH]; [done|].
  unfold String.app in *; simpl. by rewrite IH.
Qed.

Lemma app_cons_s (x : ascii) (a b : string) :
  String x a +:+ b = String x (a +:+ b).
Proof. done. Qed.

Lemma length_app_s (a b : string) :
  String.length (a +:+ b) = String.length a + String.length b.
Proof.
  induction a as [|x a IH]; [done|].
  rewrite app_cons_s. simpl. by rewrite IH.
Qed.

Lemma prefix_begins (p s : string) :
  String.prefix p s = true ↔ begins_with s p.
Proof.
  unfold begins_with. revert s.
  induction p as [|a p IH]; intros s; simpl.
  - destruct s; (split; [intros _; eexists; reflexivity | done]).
  - destruct s as [|b s]; simpl.
    + split; [done | intros [r Hr]; discriminate].
    + destruct (ascii_dec a b) as [->|Hne].
      * rewrite IH. split; intros [r Hr]; exists r.
        -- by rewrite app_cons_s, <- Hr.
        -- rewrite app_cons_s in Hr. by injection Hr.
      * split; [done | intros [r Hr]].
        rewrite app_cons_s in Hr. injection Hr as Hab _. by destruct Hne.
Qed.

Lemma startswith_begins (s p : string) :
  Py.startswith s p = true ↔ begins_with s p.
Proof. apply prefix_begins. Qed.

Lemma rev_app_acc (s acc : string) :
  String.rev_app s acc = String.rev s +:+ acc.
Proof.
  unfold String.rev. revert acc.
  induction s as [|c s IH]; intros acc; simpl; [done|].
  rewrite (IH (String c "")), IH, app_assoc_s. done.
Qed.

Lemma rev_cons_s (c : ascii) (s : string) :
  String.rev (String c s) = String.rev s +:+ String c "".
Proof. unfold String.rev at 1. simpl. apply rev_app_acc. Qed.

Lemma rev_app_s (a b : string) :
  String.rev (a +:+ b) = String.rev b +:+ String.rev a.
Proof.
  induction a as [|c a IH].
  - by rewrite app_nil_r_s.
  - rewrite app_cons_s, !rev_cons_s, IH, app_assoc_s. done.
Qed.

Lemma rev_rev_s (s : string) : String.rev (String.rev s) = s.
Proof.
  induction s as [|c s IH]; [done|].
  rewrite rev_cons_s, rev_app_s, IH. done.
Qed.

Lemma endswith_ends (s p : string) :
  Py.endswith s p = true ↔ ends_with s p.
Proof.
  unfold Py.endswith, ends_with. rewrite prefix_begins. unfold begins_with.
  split.
  - intros [r Hr]. exists (String.rev r).
    rewrite <- (rev_rev_s s), Hr, rev_app_s, rev_rev_s. done.
  - intros [u ->]. exists (String.rev u). apply rev_app_s.
Qed.

Lemma is_skip_file_eligible (fn : string) :
  is_skip_file fn = true ↔ skip_eligible fn.
Proof.
  unfold is_skip_file, skip_eligible.
  rewrite !orb_true_iff, !startswith_begins, endswith_ends. tauto.
Qed.

Lemma any_startswith_has_tag (f : string) (tgs : list string) :
  Py.any_startswith f tgs = true ↔ has_tag tgs f.
Proof.
  unfold Py.any_startswith, has_tag. rewrite existsb_exists.
  split; intros [t [Hin Ht]]; exists t.
  - split; [by apply list_elem_of_In | by apply startswith_begins].
  - split; [by apply list_elem_of_In | by apply startswith_begins].
Qed.

End StringFacts.

(** ** The catalogue *)

Section Catalogue.

Lemma sorted_Permutation (l : list string) : Py.sorted l ≡ₚ l.
Proof. apply merge_sort_Permutation. Qed.

Lemma sorted_StronglySorted (l : list string) :
  StronglySorted String.le (Py.sorted l).
Proof. apply (StronglySorted_merge_sort String.le). Qed.

Lemma os_path_isfile_spec (d : directory) (f : string) :
  os_path_isfile d f = true ↔ ∃ n, d !! f = Some n ∧ kind n = RegularFile.
Proof.
  unfold os_path_isfile. destruct (d !! f) as [n|] eqn:E.
  - rewrite bool_decide_eq_true. split.
    + intros Hk. by exists n.
    + intros [n' [Hn' Hk]]. by injection Hn' as ->.
  - split; [done | intros [n [Hn _]]; discriminate].
Qed.

Lemma visible_listed (d : directory) (f : string) :
  Is_true (os_path_isfile d f && negb (is_skip_file f)) ↔ listed d f.
Proof.
  unfold listed. rewrite <- is_skip_file_eligible, <- os_path_isfile_spec.
  rewrite Is_true_true, andb_true_iff, negb_true_iff.
  destruct (is_skip_file f); intuition congruence.
Qed.

(** Counting along the keys of a list of bindings is counting along the
    bindings. *)
Lemma length_filter_keys {A} (P : string * A → Prop) (Q : string → Prop)
    `{!∀ kv, Decision (P kv)} `{!∀ k, Decision (Q k)}
    (l : list (string * A)) :
  (∀ kv, kv ∈ l → (Q kv.1 ↔ P kv)) →
  length (filter Q l.*1) = length (filter P l).
Proof.
  induction l as [|kv l IH]; intros Hl; [done|].
  rewrite fmap_cons, !filter_cons.
  assert (Q kv.1 ↔ P kv) as Hkv by (apply Hl; left).
  assert (length (filter Q l.*1) = length (filter P l)) as IH'.
  { apply IH. intros kv' Hin. apply Hl. by right. }
  destruct (decide (Q kv.1)), (decide (P kv)); simpl; try tauto; by rewrite IH'.
Qed.

Lemma size_filter_to_list {A} (P : string * A → Prop)
    `{!∀ kv, Decision (P kv)} (m : gmap string A) :
  size (filter P m) = length (filter P (map_to_list m)).
Proof.
  rewrite map_filter_alt, map_size_list_to_map; [done|].
  apply NoDup_fmap_fst.
  - intros k x y [_ Hx]%list_elem_of_filter [_ Hy]%list_elem_of_filter.
    apply elem_of_map_to_list in Hx, Hy. congruence.
  - apply NoDup_filter, NoDup_map_to_list.
Qed.

Lemma length_filter_split {A} (P Q : A → Prop)
    `{!∀ x, Decision (P x)} `{!∀ x, Decision (Q x)} (l : list A) :
  length (filter (λ x, P x ∧ ¬ Q x) l) + length (filter (λ x, P x ∧ Q x) l)
  = length (filter P l).
Proof.
  induction l as [|x l IH]; [done|].
  rewrite !filter_cons.
  destruct (decide (P x ∧ ¬ Q x)), (decide (P x ∧ Q x)), (decide (P x));
    simpl; try tauto; try lia.
Qed.

Lemma filter_ext_iff {A} (P Q : A → Prop)
    `{!∀ x, Decision (P x)} `{!∀ x, Decision (Q x)} (l : list A) :
  (∀ x, P x ↔ Q x) → filter P l = filter Q l.
Proof.
  intros Hext. induction l as [|x l IH]; [done|].
  rewrite !filter_cons, IH. specialize (Hext x).
  destruct (decide (P x)), (decide (Q x)); tauto.
Qed.

(** The files the catalogue keeps number N - M. *)
Lemma length_all_files (os_listdir : directory → list string) (d : directory) :
  listdir_ok os_listdir →
  length (filter (λ f, os_path_isfile d f && negb (is_skip_file f))
            (os_listdir d))
  = regular_entries d - skipped_entries d.
Proof.
  intros Hok. rewrite (Hok d).
  unfold regular_entries, skipped_entries. rewrite !size_filter_to_list.
  rewrite (length_filter_keys
             (λ kv : string * node,
                kind kv.2 = RegularFile ∧ ¬ is_skip_file kv.1)
             (λ f : string,
                Is_true (os_path_isfile d f && negb (is_skip_file f)))).
  - pose proof (length_filter_split
                  (λ kv : string * node, kind kv.2 = RegularFile)
                  (λ kv : string * node, Is_true (is_skip_file kv.1))
                  (map_to_list d)) as Hsplit.
    simpl in Hsplit. lia.
  - intros [k n] Hin. apply elem_of_map_to_list in Hin. simpl.
    rewrite andb_True, negb_True. unfold os_path_isfile. rewrite Hin.
    rewrite bool_decide_spec. done.
Qed.

End Catalogue.

Section CatalogueTheorems.

Variable cfg : AppConfig.
Variable os_listdir : directory → list string.

Lemma list_input_files_Some (fs : filesystem) (project delivery : string)
    (d : directory) :
  fs !! input_dir cfg project delivery = Some d →
  list_input_files cfg os_listdir fs project delivery
  = (Py.sorted
       (filter (λ f, Py.any_startswith f (tags cfg))
          (filter (λ f, os_path_isfile d f && negb (is_skip_file f))
             (os_listdir d))),
     Py.sorted
       (filter (λ f, negb (Py.any_startswith f (tags cfg)))
          (filter (λ f, os_path_isfile d f && negb (is_skip_file f))
             (os_listdir d)))).
Proof. intros Hd. unfold list_input_files. by rewrite Hd. Qed.

(** C1.  In an existing input directory with N regular files of which M are
    skip-eligible, [list_input_files] returns (tagged, untagged) with
    N - M names in all; a name is in the tagged list iff it is a listed
    file that begins with a configured tag, in the untagged list iff it is
    a listed file that does not; no name is in both (nor twice in either);
    each list is in ascending lexical order. *)
Theorem list_input_files_catalogue (fs : filesystem)
    (project delivery : string) (d : directory) :
  listdir_ok os_listdir →
  fs !! input_dir cfg project delivery = Some d →
  let r := list_input_files cfg os_listdir fs project delivery in
  length r.1 + length r.2 = regular_entries d - skipped_entries d ∧
  (∀ f, f ∈ r.1 ↔ listed d f ∧ has_tag (tags cfg) f) ∧
  (∀ f, f ∈ r.2 ↔ listed d f ∧ ¬ has_tag (tags cfg) f) ∧
  (∀ f, ¬ (f ∈ r.1 ∧ f ∈ r.2)) ∧
  NoDup (r.1 ++ r.2) ∧
  StronglySorted String.le r.1 ∧ StronglySorted String.le r.2.
Proof.
  intros Hok Hd r. subst r. rewrite (list_input_files_Some _ _ _ _ Hd). simpl.
  set (all_files :=
         filter (λ f, os_path_isfile d f && negb (is_skip_file f))
           (os_listdir d)).
  assert (Hin : ∀ f, f ∈ all_files ↔ listed d f).
  { intros f. unfold all_files. rewrite list_elem_of_filter, visible_listed.
    split; [tauto|]. intros Hl. split; [done|].
    rewrite (Hok d). destruct Hl as [[n [Hn _]] _].
    apply list_elem_of_fmap. exists (f, n). split; [done|].
    by apply elem_of_map_to_list. }
  assert (Hnd : NoDup all_files).
  { apply NoDup_filter. rewrite (Hok d). apply NoDup_fst_map_to_list. }
  assert (Htag : ∀ f, Is_true (Py.any_startswith f (tags cfg))
                      ↔ has_tag (tags cfg) f).
  { intros f. rewrite Is_true_true. apply any_startswith_has_tag. }
  assert (Hun : ∀ f, Is_true (negb (Py.any_startswith f (tags cfg)))
                     ↔ ¬ has_tag (tags cfg) f).
  { intros f. rewrite negb_True. by rewrite Htag. }
  assert (Hfst : ∀ f, f ∈ Py.sorted
                        (filter (λ f, Py.any_startswith f (tags cfg)) all_files)
                      ↔ listed d f ∧ has_tag (tags cfg) f).
  { intros f. rewrite sorted_Permutation, list_elem_of_filter, Htag, Hin. tauto. }
  assert (Hsnd : ∀ f, f ∈ Py.sorted
                        (filter (λ f, negb (Py.any_startswith f (tags cfg)))
                           all_files)
                      ↔ listed d f ∧ ¬ has_tag (tags cfg) f).
  { intros f. rewrite sorted_Permutation, list_elem_of_filter, Hun, Hin. tauto. }
  split; [|split; [exact Hfst|split; [exact Hsnd|split; [|split; [|split]]]]].
  - rewrite !sorted_Permutation.
    rewrite <- (length_all_files os_listdir d Hok). fold all_files.
    rewrite <- length_app.
    rewrite (filter_ext_iff (λ f, Is_true (negb (Py.any_startswith f (tags cfg))))
               (λ f, ¬ Is_true (Py.any_startswith f (tags cfg)))).
    + by rewrite filter_app_complement.
    + intros f. apply negb_True.
  - intros f [H1 H2]. apply Hfst in H1. apply Hsnd in H2. tauto.
  - rewrite !sorted_Permutation. apply NoDup_app. split; [|split].
    + by apply NoDup_filter.
    + intros f [Ht _]%list_elem_of_filter [Hu _]%list_elem_of_filter.
      apply negb_True in Hu. done.
    + by apply NoDup_filter.
  - apply sorted_StronglySorted.
  - apply sorted_StronglySorted.
Qed.

(** C8.  When the input directory does not exist, [list_input_files]
    returns two empty lists. *)
Theorem list_input_files_missing (fs : filesystem) (project delivery : string) :
  dir_exists fs (input_dir cfg project delivery) = false →
  list_input_files cfg os_listdir fs project delivery = ([], []).
Proof.
  unfold dir_exists, list_input_files. intros Hno.
  apply bool_decide_eq_false in Hno.
  destruct (fs !! input_dir cfg project delivery) as [d|] eqn:E; [|done].
  destruct Hno. by exists d.
Qed.

End CatalogueTheorems.

Lemma listdir_keys_ok : listdir_ok listdir_keys.
Proof. intros d. reflexivity. Qed.

Example sample_catalogue :
  list_input_files sample_cfg listdir_keys sample_fs "P" "D"
  = (["【待審】report.docx"; "【標準】rules.txt"], ["draft.pdf"]).
Proof. vm_compute. reflexivity. Qed.

Lemma list_input_files_catalogue_witness :
  listdir_ok listdir_keys ∧
  sample_fs !! input_dir sample_cfg "P" "D" = Some sample_dir ∧
  let r := list_input_files sample_cfg listdir_keys sample_fs "P" "D" in
  length r.1 + length r.2
  = regular_entries sample_dir - skipped_entries sample_dir ∧
  (∀ f, f ∈ r.1 ↔ listed sample_dir f ∧ has_tag (tags sample_cfg) f) ∧
  (∀ f, f ∈ r.2 ↔ listed sample_dir f ∧ ¬ has_tag (tags sample_cfg) f) ∧
  (∀ f, ¬ (f ∈ r.1 ∧ f ∈ r.2)) ∧
  NoDup (r.1 ++ r.2) ∧
  StronglySorted String.le r.1 ∧ StronglySorted String.le r.2.
Proof.
  assert (H1 : listdir_ok listdir_keys) by (intros d; reflexivity).
  assert (H2 : sample_fs !! input_dir sample_cfg "P" "D" = Some sample_dir)
    by (vm_compute; reflexivity).
  split; [exact H1|]. split; [exact H2|].
  exact (list_input_files_catalogue sample_cfg listdir_keys sample_fs
           "P" "D" sample_dir H1 H2).
Defined.

Lemma list_input_files_missing_witness :
  dir_exists ∅ (input_dir sample_cfg "P" "D") = false ∧
  list_input_files sample_cfg listdir_keys ∅ "P" "D" = ([], []).
Proof.
  assert (H1 : dir_exists ∅ (input_dir sample_cfg "P" "D") = false)
    by (vm_compute; reflexivity).
  split; [exact H1|].
  exact (list_input_files_missing sample_cfg listdir_keys ∅ "P" "D" H1).
Defined.

(** ** The tagger *)

Section TaggerTheorems.

Variable cfg : AppConfig.

Lemma entry_exists_found (fs : filesystem) (folder name : string)
    (d : directory) (n : node) :
  fs !! folder = Some d → d !! name = Some n → kind n ≠ DanglingLink →
  entry_exists fs folder name = true.
Proof.
  intros Hd Hn Hk. unfold entry_exists. rewrite Hd.
  destruct (bool_decide (name = "")); [done|]. rewrite Hn.
  by rewrite bool_decide_eq_false_2.
Qed.

Lemma entry_exists_absent (fs : filesystem) (folder name : string)
    (d : directory) :
  fs !! folder = Some d → d !! name = None → name ≠ "" →
  entry_exists fs folder name = false.
Proof.
  intros Hd Hn Hne. unfold entry_exists. rewrite Hd, Hn.
  by rewrite bool_decide_eq_false_2.
Qed.

(** C2.  When the source file exists and the tag-prefixed destination
    name exists too, [tag_file] fails with the conflict message and
    leaves the file system as it is: the source is neither renamed,
    deleted nor overwritten, and nothing is logged or waited for.
    Existing is what [os.path.exists] answers: a name that is only a link
    to a missing target does not exist. *)
Theorem tag_file_destination_exists (fs : filesystem)
    (sizes : nat → option nat) (rn : rename_outcome)
    (project delivery filename tag : string) (d : directory) (n m : node) :
  fs !! input_dir cfg project delivery = Some d →
  d !! filename = Some n → kind n ≠ DanglingLink →
  d !! (tag +:+ filename) = Some m → kind m ≠ DanglingLink →
  let r := tag_file cfg fs sizes rn project delivery filename tag in
  tr_ret r = (false, msg_conflict) ∧
  tr_fs r = fs ∧
  tr_fs r !! input_dir cfg project delivery = Some d ∧
  tr_log r = [] ∧ tr_sleeps r = 0.
Proof.
  intros Hd Hn Hkn Hm Hkm. unfold tag_file.
  rewrite (entry_exists_found fs _ filename d n Hd Hn Hkn).
  rewrite (entry_exists_found fs _ (tag +:+ filename) d m Hd Hm Hkm).
  simpl. done.
Qed.

(** C9.  [tag_file] never looks at whether the source name is tagged: when
    the source exists, the destination name is free and the rename goes
    through, the call succeeds, returns the tag followed by the whole old
    name, and the node is found under that name; so a name that begins
    with a tag [t] becomes one that begins with the new tag followed by
    [t]. *)
Theorem tag_file_prepends (fs : filesystem) (sizes : nat → option nat)
    (project delivery filename tag : string) (d : directory) (n : node) :
  fs !! input_dir cfg project delivery = Some d →
  d !! filename = Some n →
  kind n ≠ DanglingLink →
  d !! (tag +:+ filename) = None →
  let r := tag_file cfg fs sizes RenameDone project delivery filename tag in
  tr_ret r = (true, tag +:+ filename) ∧
  tr_fs r = <[input_dir cfg project delivery :=
                <[tag +:+ filename := n]> (delete filename d)]> fs ∧
  (∀ t rest, filename = t +:+ rest → (tr_ret r).2 = tag +:+ t +:+ rest).
Proof.
  intros Hd Hsrc Hkind Hdst. unfold tag_file.
  rewrite (entry_exists_found fs _ filename d n Hd Hsrc Hkind).
  assert (Hne : tag +:+ filename ≠ "").
  { intros He. destruct tag; [|discriminate].
    change ("" +:+ filename) with filename in *. congruence. }
  rewrite (entry_exists_absent fs _ (tag +:+ filename) d Hd Hdst Hne).
  simpl. split; [done|]. split.
  - apply map_eq. intros k. rewrite lookup_alter, lookup_insert.
    destruct (decide (input_dir cfg project delivery = k)) as [<-|Hne'].
    + rewrite Hd. simpl. unfold rename_entry. by rewrite Hsrc.
    + done.
  - by intros t rest ->.
Qed.

End TaggerTheorems.

Lemma tag_file_destination_exists_witness :
  let d : directory := {[ "a.txt" := Node RegularFile "new";
                          "【標準】a.txt" := Node RegularFile "old" ]} in
  let fs : filesystem := {[ sample_input := d ]} in
  let r := tag_file sample_cfg fs (λ _, Some 3) RenameDone "P" "D"
             "a.txt" tag_standard in
  tr_ret r = (false, msg_conflict) ∧
  tr_fs r = fs ∧
  tr_fs r !! input_dir sample_cfg "P" "D" = Some d ∧
  tr_log r = [] ∧ tr_sleeps r = 0.
Proof.
  intros d fs.
  assert (H1 : fs !! input_dir sample_cfg "P" "D" = Some d)
    by (vm_compute; reflexivity).
  assert (H2 : d !! "a.txt" = Some (Node RegularFile "new"))
    by (vm_compute; reflexivity).
  assert (H3 : kind (Node RegularFile "new") ≠ DanglingLink)
    by (simpl; discriminate).
  assert (H4 : d !! (tag_standard +:+ "a.txt") = Some (Node RegularFile "old"))
    by (vm_compute; reflexivity).
  assert (H5 : kind (Node RegularFile "old") ≠ DanglingLink)
    by (simpl; discriminate).
  exact (tag_file_destination_exists sample_cfg fs (λ _, Some 3) RenameDone
           "P" "D" "a.txt" tag_standard d (Node RegularFile "new")
           (Node RegularFile "old") H1 H2 H3 H4 H5).
Defined.

Lemma tag_file_prepends_witness :
  let d : directory := {[ "【待審】a.pdf" := Node RegularFile "pdf" ]} in
  let fs : filesystem := {[ sample_input := d ]} in
  let r := tag_file sample_cfg fs (λ _, Some 3) RenameDone "P" "D"
             "【待審】a.pdf" tag_standard in
  tr_ret r = (true, "【標準】【待審】a.pdf") ∧
  tr_fs r = <[input_dir sample_cfg "P" "D" :=
                <[tag_standard +:+ "【待審】a.pdf" := Node RegularFile "pdf"]>
                  (delete "【待審】a.pdf" d)]> fs ∧
  (∀ t rest, "【待審】a.pdf" = t +:+ rest →
             (tr_ret r).2 = tag_standard +:+ t +:+ rest).
Proof.
  intros d fs.
  assert (H1 : fs !! input_dir sample_cfg "P" "D" = Some d)
    by (vm_compute; reflexivity).
  assert (H2 : d !! "【待審】a.pdf" = Some (Node RegularFile "pdf"))
    by (vm_compute; reflexivity).
  assert (H3 : kind (Node RegularFile "pdf") ≠ DanglingLink)
    by (simpl; discriminate).
  assert (H4 : d !! (tag_standard +:+ "【待審】a.pdf") = None)
    by (vm_compute; reflexivity).
  exact (tag_file_prepends sample_cfg fs (λ _, Some 3) "P" "D"
           "【待審】a.pdf" tag_standard d (Node RegularFile "pdf")
           H1 H2 H3 H4).
Defined.

(** ** The export name *)

Section ExportName.

Lemma resub_run_ended (cls_repl : string) (b : bool) (s : string) :
  run_ended s →
  re_sub_class_plus forbidden_char cls_repl b s
  = re_sub_class_plus forbidden_char cls_repl false s.
Proof. destruct s as [|c r]; simpl; [done|]. by intros ->. Qed.

Lemma resub_skip_run (repl run s : string) :
  all_forbidden run →
  re_sub_class_plus forbidden_char repl true (run +:+ s)
  = re_sub_class_plus forbidden_char repl true s.
Proof.
  unfold all_forbidden.
  induction run as [|c run IH]; intros Hall; [done|].
  simpl in Hall. apply Forall_cons in Hall as [Hc Hall].
  rewrite app_cons_s. simpl. rewrite Hc. by apply IH.
Qed.

(** Every string splits into its longest forbidden prefix and a rest. *)
Lemma forbidden_prefix_split (s : string) :
  ∃ run rest, s = run +:+ rest ∧ all_forbidden run ∧ run_ended rest ∧
              String.length rest ≤ String.length s.
Proof.
  induction s as [|c s IH].
  - exists "", "". repeat split; try done. constructor.
  - destruct (forbidden_char c) eqn:Hc.
    + destruct IH as (run & rest & -> & Hall & Hend & Hlen).
      exists (String c run), rest. repeat split; try done.
      * unfold all_forbidden. simpl. by constructor.
      * simpl. lia.
    + exists "", (String c s). repeat split; try done. constructor.
Qed.

Lemma sanitize_collapsed_aux (k : nat) (s : string) :
  String.length s ≤ k → collapsed s (sanitize_filename s).
Proof.
  revert s. induction k as [|k IH]; intros s Hk.
  - destruct s; [constructor | simpl in Hk; lia].
  - destruct s as [|c r]; [constructor|].
    simpl in Hk. unfold sanitize_filename. simpl.
    destruct (forbidden_char c) eqn:Hc.
    + destruct (forbidden_prefix_split r) as (run & rest & -> & Hall & Hend & Hlen).
      rewrite resub_skip_run, (resub_run_ended _ true) by done.
      rewrite <- app_cons_s.
      apply collapsed_run; [done | | done |].
      * unfold all_forbidden. simpl. by constructor.
      * apply IH. lia.
    + apply collapsed_keep; [done|]. apply IH. lia.
Qed.

(** [sanitize_filename] replaces every maximal run of forbidden characters
    by one underscore. *)
Lemma sanitize_collapsed (s : string) : collapsed s (sanitize_filename s).
Proof. by apply (sanitize_collapsed_aux (String.length s)). Qed.

End ExportName.

Section Timestamp.

Lemma digitsb_digits (k : nat) (s : string) : digitsb k s = true → digits k s.
Proof.
  unfold digitsb, digits. rewrite andb_true_iff, Nat.eqb_eq. tauto.
Qed.

Lemma range_check (P : Z → bool) (lo len : Z) :
  forallb (λ k, P (lo + Z.of_nat k)%Z) (seq 0 (Z.to_nat len)) = true →
  ∀ n : Z, (lo ≤ n < lo + len)%Z → P n = true.
Proof.
  intros Hall n Hn. rewrite forallb_forall in Hall.
  replace n with (lo + Z.of_nat (Z.to_nat (n - lo)))%Z by lia.
  apply Hall. apply in_seq. lia.
Qed.

Lemma strftime_2_digits (n : Z) : (0 ≤ n ≤ 99)%Z → digits 2 (strftime_2 n).
Proof.
  intros Hn. apply digitsb_digits.
  apply (range_check (λ n, digitsb 2 (strftime_2 n)) 0 100); [|lia].
  vm_compute. reflexivity.
Qed.

Lemma decimal_year_digits (n : Z) : (1000 ≤ n ≤ 9999)%Z → digits 4 (decimal n).
Proof.
  intros Hn. apply digitsb_digits.
  apply (range_check (λ n, digitsb 4 (decimal n)) 1000 9000); [|lia].
  vm_compute. reflexivity.
Qed.

Lemma now_ts_form (t : struct_time) : valid_time t → timestamp_form (now_ts t).
Proof.
  intros (Hy & Hmo & Hd & Hh & Hmi & Hs).
  exists (decimal (tm_year t)), (strftime_2 (tm_mon t)),
    (strftime_2 (tm_mday t)), (strftime_2 (tm_hour t)),
    (strftime_2 (tm_min t)), (strftime_2 (tm_sec t)).
  split; [reflexivity|].
  repeat split;
    first [ by apply decimal_year_digits
          | apply strftime_2_digits; lia
          | apply (proj1 (strftime_2_digits _ ltac:(lia)))
          | apply (proj2 (strftime_2_digits _ ltac:(lia))) ].
Qed.

End Timestamp.

Section ExportTheorems.

Lemma all_forbidden_cons (c : ascii) (run : string) :
  all_forbidden (String c run) ↔ forbidden_char c = true ∧ all_forbidden run.
Proof. unfold all_forbidden. simpl. by rewrite Forall_cons. Qed.

(** The longest forbidden prefix of a string is unique. *)
Lemma forbidden_prefix_unique (run1 run2 s1 s2 : string) :
  all_forbidden run1 → all_forbidden run2 → run_ended s1 → run_ended s2 →
  run1 +:+ s1 = run2 +:+ s2 → run1 = run2 ∧ s1 = s2.
Proof.
  revert run2. induction run1 as [|c run1 IH]; intros run2 H1 H2 E1 E2 Heq.
  - destruct run2 as [|c2 run2]; [done|].
    apply all_forbidden_cons in H2 as [Hc2 _].
    rewrite app_cons_s in Heq. change ("" +:+ s1) with s1 in Heq. subst s1.
    simpl in E1. congruence.
  - apply all_forbidden_cons in H1 as [Hc H1].
    destruct run2 as [|c2 run2].
    + rewrite app_cons_s in Heq. change ("" +:+ s2) with s2 in Heq. subst s2.
      simpl in E2. congruence.
    + apply all_forbidden_cons in H2 as [_ H2].
      rewrite !app_cons_s in Heq. injection Heq as -> Heq.
      destruct (IH run2 H1 H2 E1 E2 Heq) as [-> ->]. done.
Qed.

(** [collapsed] determines its result. *)
Lemma collapsed_functional (s a b : string) :
  collapsed s a → collapsed s b → a = b.
Proof.
  intros Ha. revert b.
  induction Ha as [|c s s' Hc Hs IH|run s s' Hne Hall Hend Hs IH]; intros b Hb.
  - inversion Hb as [| |run0 s0 s0' Hne0 Hall0 Hend0 Hs0 Heq]; [done|].
    destruct run0; [done | discriminate].
  - inversion Hb as [|c0 s0 s0' Hc0 Hs0|run0 s0 s0' Hne0 Hall0 Hend0 Hs0 Heq];
      subst.
    + f_equal. by apply IH.
    + destruct run0 as [|c1 run0]; [done|].
      apply all_forbidden_cons in Hall0 as [Hc1 _].
      rewrite app_cons_s in Heq. injection Heq as -> _. congruence.
  - destruct run as [|c run]; [done|].
    pose proof Hall as Hall'. apply all_forbidden_cons in Hall' as [Hc _].
    rewrite app_cons_s in Hb.
    inversion Hb as [|c0 s0 s0' Hc0 Hs0|run0 s0 s0' Hne0 Hall0 Hend0 Hs0 Heq];
      subst.
    + congruence.
    + rewrite <- app_cons_s in Heq.
      destruct (forbidden_prefix_unique _ _ _ _ Hall0 Hall Hend0 Hend Heq)
        as [_ ->].
      f_equal. by apply IH.
Qed.

Lemma resub_replace_each (b : bool) (s : string) :
  no_adjacent_forbidden s → (b = true → run_ended s) →
  re_sub_class_plus forbidden_char "_" b s = replace_each_forbidden s.
Proof.
  revert b. induction s as [|c r IH]; intros b Hadj Hb; [done|].
  destruct Hadj as [Hc Hadj]. simpl.
  destruct (forbidden_char c) eqn:E.
  - destruct b; [simpl in Hb; rewrite E in Hb; by specialize (Hb eq_refl)|].
    rewrite app_cons_s. change ("" +:+ ?x) with x.
    f_equal. apply IH; auto.
  - f_equal. apply IH; [done | discriminate].
Qed.

(** C5, as amended.  The exported document is saved in the output folder
    under the name Review_<safe>_<timestamp>.docx, where <safe> is the
    source name with every maximal run of the characters
    backslash / : * ? double-quote < > | replaced by one underscore (so a
    forbidden character that has no forbidden neighbour becomes one
    underscore), and <timestamp> has the form YYYYMMDD_HHMMSS. *)
Theorem export_name_format (t : struct_time) (out src content : string) :
  valid_time t →
  ∃ safe ts,
    WordExporter_export (Returns ()) t out src content
    = Returns
        (os_path_join out
           ("Review_" +:+ safe +:+ "_" +:+ ts +:+ ".docx")) ∧
    safe = sanitize_filename src ∧
    collapsed src safe ∧
    (no_adjacent_forbidden src → safe = replace_each_forbidden src) ∧
    ts = now_ts t ∧
    timestamp_form ts.
Proof.
  intros Ht. exists (sanitize_filename src), (now_ts t).
  split; [reflexivity|]. split; [reflexivity|].
  split; [apply sanitize_collapsed|]. split.
  - intros Hadj. by apply resub_replace_each.
  - split; [reflexivity | by apply now_ts_form].
Qed.

End ExportTheorems.

(** C5, as stated, fails on a name with two forbidden characters in a
    row: they become one underscore, not one each. *)
Lemma export_name_counterexample :
  export_name "a::b" sample_time = "Review_a_b_20260109_005907.docx" ∧
  replace_each_forbidden "a::b" = "a__b" ∧
  export_name "a::b" sample_time
  ≠ "Review_" +:+ replace_each_forbidden "a::b" +:+ "_"
    +:+ now_ts sample_time +:+ ".docx".
Proof. vm_compute. split; [done|]. split; [done|]. discriminate. Qed.

Lemma export_name_format_witness :
  valid_time sample_time ∧
  ∃ safe ts,
    WordExporter_export (Returns ()) sample_time "/srv/out" "a/b:c.docx" "text"
    = Returns
        (os_path_join "/srv/out"
           ("Review_" +:+ safe +:+ "_" +:+ ts +:+ ".docx")) ∧
    safe = sanitize_filename "a/b:c.docx" ∧
    collapsed "a/b:c.docx" safe ∧
    (no_adjacent_forbidden "a/b:c.docx"
     → safe = replace_each_forbidden "a/b:c.docx") ∧
    ts = now_ts sample_time ∧
    timestamp_form ts.
Proof.
  assert (H1 : valid_time sample_time) by (unfold valid_time; simpl; lia).
  split; [exact H1|].
  exact (export_name_format sample_time "/srv/out" "a/b:c.docx" "text" H1).
Defined.

(** ** The prompt *)

Section PromptFacts.

Lemma contains_refl (s : string) : Py.contains s s.
Proof. exists "", "". by rewrite app_nil_r_s. Qed.

Lemma contains_app_r (x a b : string) :
  Py.contains x b → Py.contains x (a +:+ b).
Proof.
  intros (pre & post & ->). exists (a +:+ pre), post.
  by rewrite app_assoc_s.
Qed.

Lemma contains_app_l (x a b : string) :
  Py.contains x a → Py.contains x (a +:+ b).
Proof.
  intros (pre & post & ->). exists pre, (post +:+ b).
  by rewrite !app_assoc_s.
Qed.

Lemma contains_trans (x y z : string) :
  Py.contains x y → Py.contains y z → Py.contains x z.
Proof.
  intros (p1 & q1 & ->) (p2 & q2 & ->).
  exists (p2 +:+ p1), (q1 +:+ q2). by rewrite !app_assoc_s.
Qed.

(** Every item of a joined list is a whole line of it. *)
Lemma join_line (x : string) (items : list string) :
  x ∈ items →
  Py.contains (LF +:+ x +:+ LF) (LF +:+ Py.join LF items +:+ LF).
Proof.
  induction items as [|y items IH]; intros Hin; [by apply elem_of_nil in Hin|].
  destruct items as [|z items].
  - apply list_elem_of_singleton in Hin as ->. simpl. apply contains_refl.
  - change (Py.join LF (y :: z :: items))
      with (y +:+ LF +:+ Py.join LF (z :: items)).
    apply elem_of_cons in Hin as [->|Hin].
    + exists "", (Py.join LF (z :: items) +:+ LF).
      rewrite !app_assoc_s. done.
    + rewrite !app_assoc_s. apply contains_app_r. apply contains_app_r.
      by apply IH.
Qed.

Lemma bullets_line (x : string) (items : list string) :
  x ∈ items →
  Py.contains (LF +:+ "- " +:+ x +:+ LF) (LF +:+ bullets items +:+ LF).
Proof.
  intros Hin. unfold bullets.
  rewrite <- (app_assoc_s "- " x LF), <- (app_assoc_s LF ("- " +:+ x) LF).
  rewrite (app_assoc_s LF ("- " +:+ x) LF).
  apply join_line. apply list_elem_of_fmap. exists x. split; [done|].
  destruct items; [by apply elem_of_nil in Hin | done].
Qed.

Lemma bullets_empty : bullets [] = "- " +:+ sentinel_none.
Proof. reflexivity. Qed.

(** The prompt, cut around its two bulleted lists. *)
Lemma prompt_text_blocks (std tpl : list string) (tgt : string) :
  prompt_text std tpl tgt
  = ("請以【標準】與【範本】作為依據，逐條審查【待審】文件：" +:+ tgt +:+ LF +:+ LF
     +:+ "【標準】")
    +:+ (LF +:+ bullets std +:+ LF)
    +:+ (LF +:+ "【範本】")
    +:+ (LF +:+ bullets tpl +:+ LF)
    +:+ (LF +:+ "請輸出：" +:+ LF +:+ "1) 不符合之處" +:+ LF +:+ "2) 風險" +:+ LF
         +:+ "3) 具體修改建議" +:+ LF +:+ "4) 需人工確認事項" +:+ LF).
Proof. unfold prompt_text, checklist. rewrite !app_assoc_s. reflexivity. Qed.

End PromptFacts.

Section PromptTheorems.

Variable cfg : AppConfig.
Variable os_listdir : directory → list string.

Lemma prompt_text_ok (std tpl : list string) (tgt : string) :
  prompt_ok std tpl tgt (prompt_text std tpl tgt).
Proof.
  unfold prompt_ok. rewrite prompt_text_blocks.
  split; [|split; [|split; [|split; [|split]]]].
  - apply contains_app_l, contains_app_r, contains_app_l, contains_refl.
  - intros x Hx. apply contains_app_r, contains_app_l. by apply bullets_line.
  - intros x Hx. do 3 apply contains_app_r. apply contains_app_l.
    by apply bullets_line.
  - intros ->. rewrite bullets_empty.
    exists ("請以【標準】與【範本】作為依據，逐條審查【待審】文件：" +:+ tgt +:+ LF +:+ LF),
      (LF +:+ bullets tpl +:+ LF
       +:+ (LF +:+ "請輸出：" +:+ LF +:+ "1) 不符合之處" +:+ LF +:+ "2) 風險" +:+ LF
            +:+ "3) 具體修改建議" +:+ LF +:+ "4) 需人工確認事項" +:+ LF)).
    rewrite !app_assoc_s. reflexivity.
  - intros ->. rewrite bullets_empty.
    exists (("請以【標準】與【範本】作為依據，逐條審查【待審】文件：" +:+ tgt +:+ LF +:+ LF
             +:+ "【標準】") +:+ (LF +:+ bullets std +:+ LF) +:+ LF),
      (LF +:+ "1) 不符合之處" +:+ LF +:+ "2) 風險" +:+ LF
       +:+ "3) 具體修改建議" +:+ LF +:+ "4) 需人工確認事項" +:+ LF).
    rewrite !app_assoc_s. reflexivity.
  - do 4 apply contains_app_r.
    exists (LF +:+ "請輸出："), "". rewrite !app_assoc_s. reflexivity.
Qed.

(** C7, as amended.  For all standards, templates and target, the prompt
    text holds the target name, every standard and every template as a
    bulleted line, the placeholder [sentinel_none] (the literal of the
    code) as the bullet of an empty list, and the four numbered requests.  [generate_prompt] shows exactly
    that text when the target is not the sentinel; when it is, the prompt
    display is left alone and a warning dialog is shown: nothing is
    raised. *)
Theorem generate_prompt_contents :
  (∀ std tpl tgt, prompt_ok std tpl tgt (prompt_text std tpl tgt)) ∧
  (∀ (w : World) (a : App),
     let tagged :=
       (list_input_files cfg os_listdir (w_fs w)
          (current_project a) (current_delivery a)).1 in
     let std := filter (λ f, Py.startswith f tag_standard) tagged in
     let tpl := filter (λ f, Py.startswith f tag_template) tagged in
     let tgt := combo_review_var (refresh_review_combo tagged a) in
     let a' := generate_prompt cfg os_listdir w a in
     (tgt ≠ sentinel_none →
      prompt_display a' = prompt_text std tpl tgt ∧
      prompt_ok std tpl tgt (prompt_display a') ∧
      effects a' = effects a) ∧
     (tgt = sentinel_none →
      prompt_display a' = prompt_display a ∧
      effects a' = effects a ++ [ShowWarning "沒有待審檔案"])).
Proof.
  split; [apply prompt_text_ok|].
  intros w a tagged std tpl tgt a'. subst a' tgt std tpl tagged.
  unfold generate_prompt.
  destruct (list_input_files cfg os_listdir (w_fs w) (current_project a)
              (current_delivery a)) as [tagged untagged].
  cbn [fst].
  set (review := filter (λ f, Py.startswith f tag_review) tagged).
  assert (Hcombo : ∀ v vs,
            prompt_display (set_combo_review v vs a) = prompt_display a ∧
            effects (set_combo_review v vs a) = effects a ∧
            combo_review_var (set_combo_review v vs a) = v).
  { intros v vs. by destruct a. }
  unfold refresh_review_combo. fold review.
  destruct review as [|first rest].
  - destruct (Hcombo sentinel_none [sentinel_none]) as (Hp & He & Hv).
    rewrite Hv. rewrite bool_decide_eq_true_2 by done.
    split; [done|]. intros _.
    destruct a; cbn. done.
  - destruct (Hcombo first (first :: rest)) as (Hp & He & Hv).
    rewrite Hv.
    destruct (bool_decide (first = sentinel_none)) eqn:Hs.
    + apply bool_decide_eq_true in Hs. split; [done|]. intros _.
      destruct a; cbn. done.
    + split; [|by apply bool_decide_eq_false in Hs].
      intros _.
      assert (Hshow : prompt_display
                (show_notification "✓ 提示詞已生成"
                   (set_prompt_display
                      (prompt_text
                         (filter (λ f, Py.startswith f tag_standard) tagged)
                         (filter (λ f, Py.startswith f tag_template) tagged)
                         first)
                      (set_combo_review first (first :: rest) a)))
              = prompt_text
                  (filter (λ f, Py.startswith f tag_standard) tagged)
                  (filter (λ f, Py.startswith f tag_template) tagged) first).
      { by destruct a. }
      rewrite Hshow. split; [done|]. split; [apply prompt_text_ok|].
      by destruct a.
Qed.

End PromptTheorems.

Lemma contains_containsb (sub s : string) :
  Py.contains sub s → containsb sub s = true.
Proof.
  intros (pre & post & ->). induction pre as [|c pre IH].
  - change ("" +:+ sub +:+ post) with (sub +:+ post).
    assert (Hp : String.prefix sub (sub +:+ post) = true)
      by (apply prefix_begins; by exists post).
    revert Hp. generalize (sub +:+ post). intros s Hp.
    destruct s; cbn [containsb]; by rewrite Hp.
  - rewrite app_cons_s. cbn [containsb]. rewrite IH. apply orb_true_r.
Qed.

(** C7, as stated, fails where a list is empty: the prompt does not hold
    the text (none) anywhere; the bullet of an empty list is the
    placeholder of the code. *)
Lemma prompt_placeholder_counterexample :
  let p := prompt_text [] [] "Report.docx" in
  ¬ Py.contains "(none)" p ∧
  Py.contains ("【標準】" +:+ LF +:+ "- (無)" +:+ LF) p ∧
  Py.contains ("【範本】" +:+ LF +:+ "- (無)" +:+ LF) p.
Proof.
  split; [|split].
  - intros Hc. apply contains_containsb in Hc. vm_compute in Hc.
    discriminate.
  - exists ("請以【標準】與【範本】作為依據，逐條審查【待審】文件：Report.docx"
            +:+ LF +:+ LF),
      (LF +:+ "【範本】" +:+ LF +:+ "- (無)" +:+ LF +:+ LF
       +:+ "請輸出：" +:+ LF +:+ "1) 不符合之處" +:+ LF +:+ "2) 風險" +:+ LF
       +:+ "3) 具體修改建議" +:+ LF +:+ "4) 需人工確認事項" +:+ LF).
    vm_compute. reflexivity.
  - exists ("請以【標準】與【範本】作為依據，逐條審查【待審】文件：Report.docx"
            +:+ LF +:+ LF +:+ "【標準】" +:+ LF +:+ "- (無)" +:+ LF +:+ LF),
      (LF +:+ "請輸出：" +:+ LF +:+ "1) 不符合之處" +:+ LF +:+ "2) 風險" +:+ LF
       +:+ "3) 具體修改建議" +:+ LF +:+ "4) 需人工確認事項" +:+ LF).
    vm_compute. reflexivity.
Qed.

(** ** The timer invariant *)

Section TimerInvariant.

Variable cfg : AppConfig.
Variable os_listdir : directory → list string.

Lemma timers_ok_view (a a' : App) :
  timer_view a' = timer_view a → timers_ok a → timers_ok a'.
Proof. unfold timers_ok. by intros ->. Qed.

Lemma timers_ok_set_clock v a : timers_ok a → timers_ok (set_clock v a).
Proof. intros H. apply (timers_ok_view a); [by destruct a | done]. Qed.
Lemma timers_ok_set_clipboard_job v a :
  timers_ok a → timers_ok (set_clipboard_job v a).
Proof. intros H. apply (timers_ok_view a); [by destruct a | done]. Qed.
Lemma timers_ok_set_last_clipboard v a :
  timers_ok a → timers_ok (set_last_clipboard v a).
Proof. intros H. apply (timers_ok_view a); [by destruct a | done]. Qed.
Lemma timers_ok_set_clipboard_auto_var v a :
  timers_ok a → timers_ok (set_clipboard_auto_var v a).
Proof. intros H. apply (timers_ok_view a); [by destruct a | done]. Qed.
Lemma timers_ok_set_combo_review v vs a :
  timers_ok a → timers_ok (set_combo_review v vs a).
Proof. intros H. apply (timers_ok_view a); [by destruct a | done]. Qed.
Lemma timers_ok_set_prompt_display v a :
  timers_ok a → timers_ok (set_prompt_display v a).
Proof. intros H. apply (timers_ok_view a); [by destruct a | done]. Qed.
Lemma timers_ok_set_reply_display v a :
  timers_ok a → timers_ok (set_reply_display v a).
Proof. intros H. apply (timers_ok_view a); [by destruct a | done]. Qed.
Lemma timers_ok_set_notification v a :
  timers_ok a → timers_ok (set_notification v a).
Proof. intros H. apply (timers_ok_view a); [by destruct a | done]. Qed.
Lemma timers_ok_set_processing v a :
  timers_ok a → timers_ok (set_processing v a).
Proof. intros H. apply (timers_ok_view a); [by destruct a | done]. Qed.
Lemma timers_ok_emit e a : timers_ok a → timers_ok (emit e a).
Proof. intros H. apply (timers_ok_view a); [by destruct a | done]. Qed.

Lemma timer_view_after delay cb a :
  timer_view (after delay cb a).2
  = (S (after_seq a),
     after_queue a ++ [{| job_id := after_seq a; job_due := clock a + delay;
                          job_cb := cb |}],
     _refresh_job a).
Proof. by destruct a. Qed.

Lemma timer_view_after_cancel id a :
  timer_view (after_cancel id a)
  = (after_seq a,
     filter (λ j, job_id j ≠ id) (after_queue a),
     _refresh_job a).
Proof. by destruct a. Qed.

Lemma timer_view_set_refresh_job v a :
  timer_view (set_refresh_job v a) = (after_seq a, after_queue a, v).
Proof. by destruct a. Qed.

Lemma fresh_id_not_in (seq : nat) (queue : list after_job) :
  Forall (λ j, job_id j < seq) queue → seq ∉ job_id <$> queue.
Proof.
  intros Hall Hin. apply list_elem_of_fmap in Hin as (j & Hj & Hin).
  rewrite Forall_forall in Hall. specialize (Hall j Hin). lia.
Qed.

Lemma view_ok_push seq queue rj j :
  job_id j = seq →
  (job_cb j = cb_run_refresh → rj = Some seq) →
  view_ok (seq, queue, rj) → view_ok (S seq, queue ++ [j], rj).
Proof.
  intros Hid Hcb (Hlt & Hnd & Hrj). split; [|split].
  - apply Forall_app. split.
    + eapply Forall_impl; [exact Hlt|]. simpl. intros; lia.
    + constructor; [lia | constructor].
  - rewrite fmap_app. simpl. apply NoDup_app. split; [done|]. split.
    + intros x Hx Hx'. apply list_elem_of_singleton in Hx'. subst x.
      rewrite Hid in Hx. by apply fresh_id_not_in in Hlt.
    + apply NoDup_singleton.
  - apply Forall_app. split; [done|].
    constructor; [|constructor]. rewrite Hid. done.
Qed.

Lemma view_ok_sublist seq queue queue' rj :
  queue' `sublist_of` queue →
  view_ok (seq, queue, rj) → view_ok (seq, queue', rj).
Proof.
  intros Hsub (Hlt & Hnd & Hrj).
  split; [|split].
  - rewrite Forall_forall in *. intros j Hj. apply Hlt.
    by eapply elem_of_sublist.
  - eapply sublist_NoDup; [exact Hnd | by apply fmap_sublist].

  - rewrite Forall_forall in *. intros j Hj. apply Hrj.
    by eapply elem_of_sublist.
Qed.

Lemma timers_ok_after delay cb a :
  cb ≠ cb_run_refresh → timers_ok a → timers_ok (after delay cb a).2.
Proof.
  unfold timers_ok. rewrite timer_view_after. intros Hcb Hok.
  apply view_ok_push; [done | done | done].
Qed.

Lemma timers_ok_after_cancel id a :
  timers_ok a → timers_ok (after_cancel id a).
Proof.
  unfold timers_ok. rewrite timer_view_after_cancel.
  apply view_ok_sublist, sublist_filter.
Qed.

Lemma timers_ok_cancel_if_set job a :
  timers_ok a → timers_ok (cancel_if_set job a).
Proof. destruct job; simpl; [apply timers_ok_after_cancel | done]. Qed.

Lemma timers_ok_show_notification m a :
  timers_ok a → timers_ok (show_notification m a).
Proof.
  intros H. unfold show_notification.
  apply timers_ok_after; [done|]. by apply timers_ok_set_notification.
Qed.

End TimerInvariant.

Section RefreshTimer.

Variable cfg : AppConfig.
Variable os_listdir : directory → list string.

Lemma schedule_refresh_fields (delay_ms : nat) (a : App) :
  let a' := schedule_refresh delay_ms a in
  timer_view a'
  = (S (after_seq a),
     queue_without (_refresh_job a) (after_queue a)
       ++ [refresh_job_of delay_ms a],
     Some (after_seq a)) ∧
  clock a' = clock a ∧ effects a' = effects a ∧
  _clipboard_job a' = _clipboard_job a ∧
  _last_clipboard a' = _last_clipboard a ∧
  clipboard_auto_var a' = clipboard_auto_var a.
Proof. destruct a as [? ? ? [id|] ? ? ? ? ? ? ? ? ? ? ? ? ?]; by cbn. Qed.

(** Once the job [_refresh_job] names is cancelled, no refresh job is
    pending. *)
Lemma queue_without_no_refresh seq queue rj :
  view_ok (seq, queue, rj) →
  Forall (λ j, job_cb j ≠ cb_run_refresh) (queue_without rj queue).
Proof.
  intros (_ & _ & Hrj). rewrite Forall_forall in *.
  destruct rj as [id|]; simpl.
  - intros j [Hne Hj]%list_elem_of_filter Hcb.
    specialize (Hrj j Hj Hcb). congruence.
  - intros j Hj Hcb. specialize (Hrj j Hj Hcb). discriminate.
Qed.

Lemma queue_without_sublist rj (queue : list after_job) :
  queue_without rj queue `sublist_of` queue.
Proof. destruct rj; simpl; [apply sublist_filter | done]. Qed.

Lemma view_ok_retarget seq queue rj rj' :
  Forall (λ j, job_cb j ≠ cb_run_refresh) queue →
  view_ok (seq, queue, rj) → view_ok (seq, queue, rj').
Proof.
  intros Hno (Hlt & Hnd & _). split; [done|]. split; [done|].
  eapply Forall_impl; [exact Hno|]. simpl. intros j Hj Hcb. done.
Qed.

Lemma timers_ok_schedule_refresh (delay_ms : nat) (a : App) :
  timers_ok a → timers_ok (schedule_refresh delay_ms a).
Proof.
  unfold timers_ok. intros Hok.
  destruct (schedule_refresh_fields delay_ms a) as (-> & _).
  apply view_ok_push; [done | done |].
  apply (view_ok_retarget _ _ (_refresh_job a)).
  - by eapply queue_without_no_refresh.
  - eapply view_ok_sublist; [apply queue_without_sublist | exact Hok].
Qed.

Lemma filter_none {A} (P : A → Prop) `{!∀ x, Decision (P x)} (l : list A) :
  Forall (λ x, ¬ P x) l → filter P l = [].
Proof.
  induction 1 as [|x l Hx Hl IH]; [done|].
  rewrite filter_cons. by destruct (decide (P x)).
Qed.

(** After a request, the refresh job pending is the new one and no other. *)
Lemma pending_refresh_schedule (delay_ms : nat) (a : App) :
  timers_ok a →
  pending_refresh (schedule_refresh delay_ms a) = [refresh_job_of delay_ms a].
Proof.
  intros Hok. unfold pending_refresh.
  destruct (schedule_refresh_fields delay_ms a) as (Hv & _).
  injection Hv as _ -> _.
  rewrite filter_app, filter_none.
  - reflexivity.
  - apply (queue_without_no_refresh (after_seq a)). exact Hok.
Qed.

End RefreshTimer.

Create HintDb timers.

Section TimerPreservation.

Variable cfg : AppConfig.
Variable os_listdir : directory → list string.

Local Hint Resolve timers_ok_set_clock timers_ok_set_clipboard_job
  timers_ok_set_last_clipboard timers_ok_set_clipboard_auto_var
  timers_ok_set_combo_review timers_ok_set_prompt_display
  timers_ok_set_reply_display timers_ok_set_notification
  timers_ok_set_processing timers_ok_emit timers_ok_after_cancel
  timers_ok_cancel_if_set timers_ok_show_notification
  timers_ok_schedule_refresh : timers.

Lemma timers_ok_refresh_review_combo tagged a :
  timers_ok a → timers_ok (refresh_review_combo tagged a).
Proof.
  intros H. unfold refresh_review_combo.
  destruct (filter _ tagged); auto with timers.
Qed.

Lemma timers_ok_refresh_all w a :
  timers_ok a → timers_ok (refresh_all cfg os_listdir w a).
Proof.
  intros H. unfold refresh_all.
  destruct (list_input_files _ _ _ _ _) as [tagged untagged].
  auto using timers_ok_refresh_review_combo with timers.
Qed.

Lemma timers_ok_export_content w content open_dir show a :
  timers_ok a → timers_ok (_export_content cfg w content open_dir show a).1.
Proof.
  intros H. unfold _export_content, exporter_export, log_errors.
  repeat first [ progress simpl
               | match goal with
                 | |- context [bool_decide ?P] => destruct (bool_decide P)
                 | |- context [w_docx_import ?w] => destruct (w_docx_import w)
                 | |- context [WordExporter_export ?a ?b ?c ?d ?e] =>
                     destruct (WordExporter_export a b c d e)
                 | |- context [if ?b then _ else _] => destruct b
                 end ];
    auto 10 with timers.
Qed.

Lemma timers_ok_schedule_clipboard_poll immediate a :
  timers_ok a → timers_ok (_schedule_clipboard_poll immediate a).
Proof.
  intros H. unfold _schedule_clipboard_poll.
  set (a1 := cancel_if_set (_clipboard_job a) a).
  set (delay := if immediate then 10 else _clipboard_poll_ms a1).
  assert (H1 : timers_ok a1) by (subst a1; auto with timers).
  pose proof (timers_ok_after delay cb_poll_clipboard a1 ltac:(done) H1) as H2.
  destruct (after delay cb_poll_clipboard a1) as [id a2]. simpl in H2.
  auto with timers.
Qed.

Lemma timers_ok_toggle_clipboard_watch a :
  timers_ok a → timers_ok (toggle_clipboard_watch a).
Proof.
  intros H. unfold toggle_clipboard_watch.
  destruct (clipboard_auto_var a).
  - apply timers_ok_schedule_clipboard_poll. auto with timers.
  - destruct (_clipboard_job a); auto with timers.
Qed.

Lemma timers_ok_poll_clipboard w a :
  timers_ok a → timers_ok (_poll_clipboard cfg w a).
Proof.
  intros H. unfold _poll_clipboard.
  destruct (negb (clipboard_auto_var _)); [auto with timers|].
  apply timers_ok_schedule_clipboard_poll.
  destruct (_ && _); [|auto with timers].
  apply timers_ok_export_content. unfold _set_reply_text. auto with timers.
Qed.

Lemma timers_ok_generate_prompt w a :
  timers_ok a → timers_ok (generate_prompt cfg os_listdir w a).
Proof.
  intros H. unfold generate_prompt.
  destruct (list_input_files _ _ _ _ _) as [tagged untagged].
  pose proof (timers_ok_refresh_review_combo tagged a H).
  destruct (bool_decide _); auto with timers.
Qed.

Lemma timers_ok_on_created event a :
  timers_ok a → timers_ok (on_created event a).
Proof.
  intros H. unfold on_created.
  destruct (is_directory event); [done|].
  destruct (_ || _); [done|].
  apply timers_ok_after; [done | auto with timers].
Qed.

Lemma timers_ok_handle_file w filepath a :
  timers_ok a → timers_ok (handle_file w filepath a).
Proof.
  intros H. unfold handle_file.
  destruct (negb _); auto 6 with timers.
Qed.

Lemma find_job (id : nat) (queue : list after_job) (j : after_job) :
  List.find (λ j, Nat.eqb (job_id j) id) queue = Some j →
  j ∈ queue ∧ job_id j = id.
Proof.
  intros [Hin Hid]%find_some. split; [by apply list_elem_of_In|].
  by apply Nat.eqb_eq.
Qed.

(** When the refresh job fires, no refresh job stays behind. *)
Lemma timers_ok_fired_refresh (j : after_job) (a : App) :
  timers_ok a → j ∈ after_queue a → job_cb j = cb_run_refresh →
  timers_ok (set_refresh_job None (after_cancel (job_id j) a)) ∧
  pending_refresh (set_refresh_job None (after_cancel (job_id j) a)) = [].
Proof.
  intros Hok Hj Hcb.
  assert (Hrj : _refresh_job a = Some (job_id j)).
  { destruct Hok as (_ & _ & Hrj). rewrite Forall_forall in Hrj.
    by apply Hrj. }
  assert (Hq : after_queue (set_refresh_job None (after_cancel (job_id j) a))
               = queue_without (_refresh_job a) (after_queue a)).
  { rewrite Hrj. by destruct a. }
  assert (Hno : Forall (λ j, job_cb j ≠ cb_run_refresh)
                  (queue_without (_refresh_job a) (after_queue a))).
  { apply (queue_without_no_refresh (after_seq a)). exact Hok. }
  split.
  - unfold timers_ok.
    replace (timer_view (set_refresh_job None (after_cancel (job_id j) a)))
      with (after_seq a, queue_without (_refresh_job a) (after_queue a),
            @None nat).
    + apply (view_ok_retarget _ _ (_refresh_job a)); [done|].
      eapply view_ok_sublist; [apply queue_without_sublist | exact Hok].
    + rewrite <- Hq. by destruct a.
  - unfold pending_refresh. rewrite Hq. by apply filter_none.
Qed.

Lemma timers_ok_fire w id a :
  timers_ok a → timers_ok (fire cfg os_listdir w id a).
Proof.
  intros H. unfold fire.
  destruct (List.find _ _) as [j|] eqn:Hfind; [|done].
  apply find_job in Hfind as [Hin <-].
  destruct (job_due j <=? clock a); [|done].
  destruct (job_cb j) eqn:Hcb; simpl.
  - apply timers_ok_poll_clipboard. auto with timers.
  - unfold _run_refresh. apply timers_ok_refresh_all.
    by apply timers_ok_fired_refresh.
  - apply timers_ok_handle_file. auto with timers.
  - unfold clear_notification. auto with timers.
Qed.

Lemma timers_ok_step w i a :
  timers_ok a → timers_ok (step cfg os_listdir w i a).
Proof.
  intros H. destruct i as [ms|id|ev|ev|ev|ev| |]; simpl.
  - auto with timers.
  - by apply timers_ok_fire.
  - by apply timers_ok_on_created.
  - unfold on_modified. destruct (is_directory ev); [done|].
    destruct (is_skip_file _); auto with timers.
  - unfold on_moved. destruct (is_directory ev); auto with timers.
  - unfold on_deleted. destruct (is_directory ev); auto with timers.
  - apply timers_ok_toggle_clipboard_watch. auto with timers.
  - by apply timers_ok_generate_prompt.
Qed.

Lemma timers_ok_initial project delivery :
  timers_ok (initial_app project delivery).
Proof. repeat split; constructor. Qed.

Lemma timers_ok_reachable a : reachable cfg os_listdir a → timers_ok a.
Proof.
  induction 1 as [project delivery|w i a Hr IH].
  - apply timers_ok_initial.
  - by apply timers_ok_step.
Qed.

(** Under the invariant at most one refresh job is pending. *)
Lemma timers_ok_at_most_one a :
  timers_ok a → length (pending_refresh a) ≤ 1.
Proof.
  intros (_ & Hnd & Hrj). unfold pending_refresh.
  rewrite Forall_forall in Hrj.
  destruct (filter _ (after_queue a)) as [|j1 [|j2 rest]] eqn:E;
    [simpl; lia | simpl; lia |].
  exfalso.
  assert (H1 : j1 ∈ filter (λ j, job_cb j = cb_run_refresh) (after_queue a))
    by (rewrite E; left).
  assert (H2 : j2 ∈ filter (λ j, job_cb j = cb_run_refresh) (after_queue a))
    by (rewrite E; right; left).
  apply list_elem_of_filter in H1 as [C1 I1], H2 as [C2 I2].
  pose proof (Hrj j1 I1 C1) as R1. pose proof (Hrj j2 I2 C2) as R2.
  assert (Hsub : [j1; j2] `sublist_of` after_queue a).
  { etrans; [|apply (sublist_filter (λ j, job_cb j = cb_run_refresh))].
    rewrite E. do 2 apply sublist_skip. apply sublist_nil_l. }
  assert (Hnd2 : NoDup (job_id <$> [j1; j2])).
  { eapply sublist_NoDup; [exact Hnd | by apply fmap_sublist]. }
  simpl in Hnd2. apply NoDup_cons in Hnd2 as [Hne _].
  apply Hne, list_elem_of_singleton. congruence.
Qed.

End TimerPreservation.

(** ** Refresh requests and their debouncing *)

Section Debounce.

Variable cfg : AppConfig.
Variable os_listdir : directory → list string.

Lemma step_request w i a :
  requests_refresh i = true →
  step cfg os_listdir w i a = schedule_refresh 300 a.
Proof.
  destruct i as [ms|id|ev|ev|ev|ev| |]; simpl; try discriminate.
  - unfold on_modified. rewrite andb_true_iff, !negb_true_iff.
    by intros [-> ->].
  - unfold on_moved. rewrite negb_true_iff. by intros ->.
  - unfold on_deleted. rewrite negb_true_iff. by intros ->.
Qed.

Lemma schedule_refresh_requested (a : App) :
  timers_ok a →
  pending_refresh (schedule_refresh 300 a) = [refresh_job_of 300 a] ∧
  _refresh_job (schedule_refresh 300 a) = Some (after_seq a) ∧
  refresh_requested (schedule_refresh 300 a).
Proof.
  intros Hok.
  pose proof (pending_refresh_schedule 300 a Hok) as Hp.
  destruct (schedule_refresh_fields 300 a) as (Hv & Hc & _).
  assert (Hrj : _refresh_job (schedule_refresh 300 a) = Some (after_seq a)).
  { unfold timer_view in Hv. by injection Hv. }
  split; [done|]. split; [done|].
  exists (after_seq a). rewrite Hc. by split.
Qed.

(** C6, as amended.  For a file (not a directory): a move and a deletion
    always request a refresh, whatever the name; a modification requests
    it unless the base name is skip-eligible, and then does nothing.  A
    request leaves exactly one refresh job pending, due 300 ms later. *)
Theorem watcher_refresh_requests (event : fs_event) (a : App) :
  is_directory event = false →
  timers_ok a →
  on_moved event a = schedule_refresh 300 a ∧
  on_deleted event a = schedule_refresh 300 a ∧
  on_modified event a
  = (if is_skip_file (os_path_basename (src_path event)) then a
     else schedule_refresh 300 a) ∧
  pending_refresh (schedule_refresh 300 a)
  = [{| job_id := after_seq a; job_due := clock a + 300;
        job_cb := cb_run_refresh |}] ∧
  _refresh_job (schedule_refresh 300 a) = Some (after_seq a).
Proof.
  intros Hdir Hok. unfold on_moved, on_deleted, on_modified. rewrite Hdir.
  destruct (schedule_refresh_requested a Hok) as (Hp & Hrj & _).
  done.
Qed.

End Debounce.

(** C6, as stated, fails for a modification of a file the skip predicate
    hides: no refresh is requested, while the same event on another name
    requests one. *)
Lemma watcher_modified_counterexample :
  let a := initial_app "P" "D" in
  let lock := {| is_directory := false;
                 src_path := "/srv/review/P/D/input/~$report.docx" |} in
  let plain := {| is_directory := false;
                  src_path := "/srv/review/P/D/input/report.docx" |} in
  on_modified lock a = a ∧
  pending_refresh (on_modified lock a) = [] ∧
  pending_refresh (on_modified plain a)
  = [{| job_id := 0; job_due := 300; job_cb := cb_run_refresh |}].
Proof. vm_compute. done. Qed.

Lemma watcher_refresh_requests_witness :
  let a := initial_app "P" "D" in
  let event := {| is_directory := false;
                  src_path := "/srv/review/P/D/input/report.docx" |} in
  on_moved event a = schedule_refresh 300 a ∧
  on_deleted event a = schedule_refresh 300 a ∧
  on_modified event a
  = (if is_skip_file (os_path_basename (src_path event)) then a
     else schedule_refresh 300 a) ∧
  pending_refresh (schedule_refresh 300 a)
  = [{| job_id := after_seq a; job_due := clock a + 300;
        job_cb := cb_run_refresh |}] ∧
  _refresh_job (schedule_refresh 300 a) = Some (after_seq a).
Proof.
  intros a event.
  assert (H1 : is_directory event = false) by reflexivity.
  assert (H2 : timers_ok a) by (repeat split; constructor).
  exact (watcher_refresh_requests event a H1 H2).
Defined.

Section DebounceTheorem.

Variable cfg : AppConfig.
Variable os_listdir : directory → list string.

Lemma refresh_count_emit e a :
  refresh_count (emit e a)
  = refresh_count a + (if is_refresh_all e then 1 else 0).
Proof.
  unfold refresh_count.
  replace (effects (emit e a)) with (effects a ++ [e]) by (by destruct a).
  rewrite filter_app, length_app, filter_cons. simpl.
  by destruct (is_refresh_all e).
Qed.

Lemma refresh_all_fields w a :
  let a' := refresh_all cfg os_listdir w a in
  timer_view a' = timer_view a ∧ clock a' = clock a ∧
  refresh_count a' = S (refresh_count a).
Proof.
  unfold refresh_all.
  destruct (list_input_files _ _ _ _ _) as [tagged untagged].
  cbn zeta. rewrite refresh_count_emit. simpl.
  unfold refresh_review_combo. destruct (filter _ tagged).
  - repeat split; [by destruct a | by destruct a |].
    replace (refresh_count (set_combo_review sentinel_none [sentinel_none] a))
      with (refresh_count a) by (by destruct a). lia.
  - repeat split; [by destruct a | by destruct a |].
    replace (refresh_count (set_combo_review s (s :: l) a))
      with (refresh_count a) by (by destruct a). lia.
Qed.

Lemma elapse_fields w ms a :
  let a' := step cfg os_listdir w (Elapse ms) a in
  timer_view a' = timer_view a ∧ clock a' = clock a + ms ∧
  effects a' = effects a.
Proof. by destruct a. Qed.

Lemma pending_refresh_view a a' :
  timer_view a' = timer_view a → pending_refresh a' = pending_refresh a.
Proof. unfold timer_view, pending_refresh. intros Hv. by injection Hv as _ -> _. Qed.

Lemma timer_view_refresh_job a a' :
  timer_view a' = timer_view a → _refresh_job a' = _refresh_job a.
Proof. unfold timer_view. intros Hv. by injection Hv. Qed.

Lemma find_unique (queue : list after_job) (j : after_job) :
  NoDup (job_id <$> queue) → j ∈ queue →
  List.find (λ k, Nat.eqb (job_id k) (job_id j)) queue = Some j.
Proof.
  induction queue as [|k queue IH]; intros Hnd Hin; [by apply elem_of_nil in Hin|].
  rewrite fmap_cons in Hnd. apply NoDup_cons in Hnd as [Hk Hnd]. simpl.
  apply elem_of_cons in Hin as [->|Hin].
  - by rewrite Nat.eqb_refl.
  - destruct (Nat.eqb_spec (job_id k) (job_id j)) as [Heq|Hne].
    + destruct Hk. rewrite Heq. apply list_elem_of_fmap. eauto.
    + by apply IH.
Qed.

Lemma request_after_gap w gap i a :
  timers_ok a → requests_refresh i = true →
  let b := step cfg os_listdir w i (step cfg os_listdir w (Elapse gap) a) in
  timers_ok b ∧ refresh_requested b ∧ refresh_count b = refresh_count a ∧
  clock b = clock a + gap.
Proof.
  intros Hok Hreq b. subst b. rewrite (step_request cfg os_listdir _ _ _ Hreq).
  destruct (elapse_fields w gap a) as (Hv & Hc & He).
  set (a1 := step cfg os_listdir w (Elapse gap) a) in *.
  assert (Hok1 : timers_ok a1) by (by apply timers_ok_step).
  destruct (schedule_refresh_requested a1 Hok1) as (_ & _ & Hreqd).
  destruct (schedule_refresh_fields 300 a1) as (_ & Hc' & He' & _).
  split; [by apply timers_ok_schedule_refresh|]. split; [done|].
  split; [unfold refresh_count; by rewrite He', He | by rewrite Hc', Hc].
Qed.

Lemma burst_requested w reqs a :
  timers_ok a → (reqs = [] → refresh_requested a) →
  Forall (λ r, requests_refresh r.2 = true) reqs →
  let b := burst cfg os_listdir w reqs a in
  timers_ok b ∧ refresh_requested b ∧ refresh_count b = refresh_count a.
Proof.
  revert a. induction reqs as [|[gap i] reqs IH]; intros a Hok Hnil Hall.
  - simpl. auto.
  - apply Forall_cons in Hall as [Hi Hall]. simpl in Hi.
    destruct (request_after_gap w gap i a Hok Hi) as (Hok1 & Hreq1 & Hcnt1 & _).
    destruct (IH _ Hok1 (λ _, Hreq1) Hall) as (Hb1 & Hb2 & Hb3).
    cbn [burst]. split; [exact Hb1|]. split; [exact Hb2|].
    etrans; [exact Hb3 | exact Hcnt1].
Qed.

(** What firing does in a state where a request is pending: nothing
    before the job is due; afterwards one recomputation, and no refresh
    job is left. *)
Lemma fire_requested w id job a :
  timers_ok a → pending_refresh a = [job] → job_id job = id →
  job_cb job = cb_run_refresh →
  let a' := fire cfg os_listdir w id a in
  (clock a < job_due job → a' = a) ∧
  (job_due job ≤ clock a →
   refresh_count a' = S (refresh_count a) ∧ pending_refresh a' = [] ∧
   _refresh_job a' = None).
Proof.
  intros Hok Hp Hid Hcb a'. subst a' id.
  assert (Hin : job ∈ after_queue a).
  { assert (job ∈ pending_refresh a) as Hj by (rewrite Hp; left).
    unfold pending_refresh in Hj. by apply list_elem_of_filter in Hj as [_ ?]. }
  unfold fire. rewrite (find_unique _ _ (proj1 (proj2 Hok)) Hin).
  split.
  - intros Hlt. destruct (Nat.leb_spec (job_due job) (clock a)); [lia | done].
  - intros Hle. destruct (Nat.leb_spec (job_due job) (clock a)); [|lia].
    rewrite Hcb. simpl. unfold _run_refresh.
    destruct (timers_ok_fired_refresh job a Hok Hin Hcb) as (_ & Hnone).
    destruct (refresh_all_fields w
                (set_refresh_job None (after_cancel (job_id job) a)))
      as (Hv & _ & Hcnt).
    rewrite Hcnt, (pending_refresh_view _ _ Hv), (timer_view_refresh_job _ _ Hv).
    split; [|split; [done|by destruct a]].
    f_equal. unfold refresh_count. by destruct a.
Qed.


End DebounceTheorem.

(** ** The clipboard monitor *)

Section ClipboardFacts.

Variable cfg : AppConfig.
Variable os_listdir : directory → list string.

Lemma export_calls_view a a' :
  effects a' = effects a → export_calls a' = export_calls a.
Proof. unfold export_calls. by intros ->. Qed.

Lemma export_calls_app a (more : list effect) a' :
  effects a' = effects a ++ more →
  export_calls a'
  = export_calls a
      ++ omap (λ e, match e with ExportContent c => Some c | _ => None end)
           more.
Proof. unfold export_calls. intros ->. apply omap_app. Qed.

Lemma clip_view_show_notification m a :
  clip_view (show_notification m a) = clip_view a.
Proof. by destruct a. Qed.

Lemma clip_view_schedule_refresh d a :
  clip_view (schedule_refresh d a) = clip_view a.
Proof. destruct a as [? ? ? [id|] ? ? ? ? ? ? ? ? ? ? ? ? ?]; by cbn. Qed.

Lemma clip_view_schedule_clipboard_poll immediate a :
  clip_view (_schedule_clipboard_poll immediate a) = clip_view a.
Proof.
  destruct a as [? ? ? ? [id|] ? ? ? ? ? ? ? ? ? ? ? ?];
    destruct immediate; by cbn.
Qed.

Lemma clip_view_refresh_all w a :
  ∃ t u,
    clip_view (refresh_all cfg os_listdir w a)
    = (_last_clipboard a, clipboard_auto_var a, effects a ++ [RefreshAll t u]).
Proof.
  unfold refresh_all.
  destruct (list_input_files _ _ _ _ _) as [tagged untagged].
  exists tagged, untagged. unfold refresh_review_combo.
  destruct (filter _ tagged); by destruct a.
Qed.

Lemma clip_view_generate_prompt w a :
  ∃ more,
    clip_view (generate_prompt cfg os_listdir w a)
    = (_last_clipboard a, clipboard_auto_var a, effects a ++ more) ∧
    Forall (λ e, is_export_content e = false) more.
Proof.
  unfold generate_prompt.
  destruct (list_input_files _ _ _ _ _) as [tagged untagged].
  unfold refresh_review_combo.
  destruct (filter _ tagged) as [|first rest];
    destruct (bool_decide _);
    first [ exists [ShowWarning "沒有待審檔案"];
            split; [by destruct a | by repeat constructor]
          | exists []; split; [destruct a; cbn; by rewrite app_nil_r
                              | constructor] ].
Qed.

(** [_export_content] records its call first; whatever it does next
    leaves the snapshot and the check box alone and records no other
    call. *)
Lemma clip_view_export_content w content open_dir show a :
  ∃ more,
    clip_view (_export_content cfg w content open_dir show a).1
    = (_last_clipboard a, clipboard_auto_var a,
       effects a ++ ExportContent content :: more) ∧
    Forall (λ e, is_export_content e = false) more.
Proof.
  unfold _export_content.
  destruct (bool_decide (content = "")).
  { destruct show.
    - exists [ShowWarning "回覆內容是空的"].
      split; [destruct a; cbn; by rewrite <- app_assoc | by repeat constructor].
    - exists []. split; [by destruct a | constructor]. }
  destruct (bool_decide (_ = sentinel_none)).
  { destruct show.
    - exists [ShowWarning "沒有選擇待審檔案"].
      split; [destruct a; cbn; by rewrite <- app_assoc | by repeat constructor].
    - exists []. split; [by destruct a | constructor]. }
  unfold exporter_export, log_errors.
  destruct (w_docx_import w) as [u|e0]; cbn [fold_left].
  - destruct (WordExporter_export _ _ _ _ _) as [path|e].
    + destruct open_dir.
      * exists [WordSaved path; OpenFolder (os_path_dirname path)].
        split; [destruct a; cbn; by rewrite <- !app_assoc
               | by repeat constructor].
      * exists [WordSaved path].
        split; [destruct a; cbn; by rewrite <- !app_assoc
               | by repeat constructor].
    + destruct show.
      * exists [LogError ("Word 輸出失敗：" +:+ e);
                ShowError ("Word 輸出失敗：" +:+ e)].
        split; [destruct a; cbn; by rewrite <- !app_assoc
               | by repeat constructor].
      * exists [LogError ("Word 輸出失敗：" +:+ e)].
        split; [destruct a; cbn; by rewrite <- !app_assoc
               | by repeat constructor].
  - destruct show.
    + exists [LogError msg_missing_docx; LogError ("Word 輸出失敗：" +:+ e0);
              ShowError ("Word 輸出失敗：" +:+ e0)].
      split; [destruct a; cbn; by rewrite <- !app_assoc
             | by repeat constructor].
    + exists [LogError msg_missing_docx; LogError ("Word 輸出失敗：" +:+ e0)].
      split; [destruct a; cbn; by rewrite <- !app_assoc
             | by repeat constructor].
Qed.

Lemma omap_no_export (more : list effect) :
  Forall (λ e, is_export_content e = false) more →
  omap (λ e, match e with ExportContent c => Some c | _ => None end) more = [].
Proof.
  induction 1 as [|e more He _ IH]; [done|].
  simpl. destruct e; try done.
Qed.

End ClipboardFacts.

Section PollFacts.

Variable cfg : AppConfig.
Variable os_listdir : directory → list string.

Lemma fresh_content_new content a :
  fresh_content content a = true ↔ is_new_content content a.
Proof.
  unfold fresh_content, is_new_content.
  rewrite andb_true_iff, !negb_true_iff, !bool_decide_eq_false.
  split; intros [H1 H2]; (split; [done | congruence]).
Qed.

Lemma poll_quiet w a :
  clipboard_auto_var a = false ∨ fresh_content (_get_clipboard_text w) a = false →
  clip_view (_poll_clipboard cfg w a) = clip_view a.
Proof.
  intros Hcase. unfold _poll_clipboard.
  replace (clipboard_auto_var (set_clipboard_job None a))
    with (clipboard_auto_var a) by (by destruct a).
  destruct (clipboard_auto_var a) eqn:Hauto; simpl.
  - destruct Hcase as [?|Hfresh]; [done|].
    unfold fresh_content in Hfresh.
    replace (_last_clipboard (set_clipboard_job None a))
      with (_last_clipboard a) by (by destruct a).
    rewrite Hfresh, clip_view_schedule_clipboard_poll.
    by destruct a.
  - by destruct a.
Qed.

Lemma poll_export w a :
  clipboard_auto_var a = true →
  fresh_content (_get_clipboard_text w) a = true →
  _poll_clipboard cfg w a
  = _schedule_clipboard_poll false
      (_export_content cfg w (_get_clipboard_text w) false false
         (_set_reply_text (_get_clipboard_text w)
            (set_last_clipboard (Some (_get_clipboard_text w))
               (set_clipboard_job None a)))).1 ∧
  ∃ more,
    clip_view (_poll_clipboard cfg w a)
    = (Some (_get_clipboard_text w), true,
       effects a ++ ExportContent (_get_clipboard_text w) :: more) ∧
    Forall (λ e, is_export_content e = false) more.
Proof.
  intros Hauto Hfresh. unfold _poll_clipboard.
  replace (clipboard_auto_var (set_clipboard_job None a))
    with (clipboard_auto_var a) by (by destruct a).
  replace (_last_clipboard (set_clipboard_job None a))
    with (_last_clipboard a) by (by destruct a).
  unfold fresh_content in Hfresh. rewrite Hauto, Hfresh. simpl.
  split; [done|].
  rewrite clip_view_schedule_clipboard_poll.
  destruct (clip_view_export_content cfg w (_get_clipboard_text w) false false
              (_set_reply_text (_get_clipboard_text w)
                 (set_last_clipboard (Some (_get_clipboard_text w))
                    (set_clipboard_job None a)))) as (more & Hv & Hno).
  exists more. split; [|done]. rewrite Hv.
  destruct a; cbn in *. by rewrite Hauto.
Qed.

Lemma clip_view_last a a' :
  clip_view a' = clip_view a →
  _last_clipboard a' = _last_clipboard a ∧
  clipboard_auto_var a' = clipboard_auto_var a ∧
  export_calls a' = export_calls a.
Proof.
  unfold clip_view. intros Hv. injection Hv as H1 H2 H3.
  split; [done|]. split; [done|]. by apply export_calls_view.
Qed.

Lemma clip_view_fire w id a content :
  _last_clipboard a = Some content → _get_clipboard_text w = content →
  _last_clipboard (fire cfg os_listdir w id a) = Some content ∧
  clipboard_auto_var (fire cfg os_listdir w id a) = clipboard_auto_var a ∧
  export_calls (fire cfg os_listdir w id a) = export_calls a.
Proof.
  intros Hlast Hw. unfold fire.
  destruct (List.find _ _) as [j|]; [|done].
  destruct (job_due j <=? clock a); [|done].
  assert (Hc : clip_view (after_cancel id a) = clip_view a) by (by destruct a).
  destruct (clip_view_last _ _ Hc) as (Hl1 & Ha1 & He1).
  destruct (job_cb j); simpl.
  - assert (Hq : clip_view (_poll_clipboard cfg w (after_cancel id a))
                 = clip_view (after_cancel id a)).
    { apply poll_quiet. right. unfold fresh_content.
      rewrite Hl1, Hlast, Hw.
      rewrite (bool_decide_eq_true_2 (Some content = Some content)) by done.
      by rewrite andb_false_r. }
    destruct (clip_view_last _ _ Hq) as (Hl2 & Ha2 & He2).
    rewrite Hl2, Ha2, He2, Hl1, Ha1, He1. done.
  - unfold _run_refresh.
    destruct (clip_view_refresh_all cfg os_listdir w
                (set_refresh_job None (after_cancel id a))) as (t & u & Hv).
    unfold clip_view in Hv. injection Hv as H1 H2 H3.
    rewrite H1, H2.
    rewrite (export_calls_app (set_refresh_job None (after_cancel id a))
               [RefreshAll t u] _ H3).
    simpl. rewrite app_nil_r.
    replace (export_calls (set_refresh_job None (after_cancel id a)))
      with (export_calls (after_cancel id a)) by (by destruct a).
    rewrite He1. split; [|split; [|done]].
    + rewrite <- Hlast, <- Hl1. by destruct a.
    + rewrite <- Ha1. by destruct a.
  - assert (Hq : clip_view (handle_file w filepath (after_cancel id a))
                 = clip_view (after_cancel id a)).
    { unfold handle_file. destruct (negb _).
      - by destruct a.
      - set (a2 := schedule_refresh 200
                     (show_notification "📥 偵測到新檔案，請標記"
                        (after_cancel id a))).
        transitivity (clip_view a2); [by destruct a2|].
        subst a2.
        by rewrite clip_view_schedule_refresh, clip_view_show_notification. }
    destruct (clip_view_last _ _ Hq) as (Hl2 & Ha2 & He2).
    rewrite Hl2, Ha2, He2, Hl1, Ha1, He1. done.
  - assert (Hq : clip_view (clear_notification (after_cancel id a))
                 = clip_view (after_cancel id a)) by (by destruct a).
    destruct (clip_view_last _ _ Hq) as (Hl2 & Ha2 & He2).
    rewrite Hl2, Ha2, He2, Hl1, Ha1, He1. done.
Qed.

(** A step that does not switch monitoring on, taken while the clipboard
    still holds the text seen last, exports nothing and keeps the
    snapshot. *)
Lemma step_quiet w i a content :
  _last_clipboard a = Some content → _get_clipboard_text w = content →
  ¬ (i = ClickClipboardWatch ∧ clipboard_auto_var a = false) →
  _last_clipboard (step cfg os_listdir w i a) = Some content ∧
  export_calls (step cfg os_listdir w i a) = export_calls a.
Proof.
  intros Hlast Hw Hclick.
  assert (Hsame : ∀ a', clip_view a' = clip_view a →
            _last_clipboard a' = Some content ∧
            export_calls a' = export_calls a).
  { intros a' Hv. destruct (clip_view_last _ _ Hv) as (-> & _ & ->). done. }
  destruct i as [ms|id|ev|ev|ev|ev| |]; simpl.
  - apply Hsame. by destruct a.
  - destruct (clip_view_fire w id a content Hlast Hw) as (H1 & _ & H3). done.
  - apply Hsame. unfold on_created.
    destruct (is_directory ev); [done|]. destruct (_ || _); [done|].
    by destruct a.
  - apply Hsame. unfold on_modified.
    destruct (is_directory ev); [done|]. destruct (is_skip_file _); [done|].
    apply clip_view_schedule_refresh.
  - apply Hsame. unfold on_moved.
    destruct (is_directory ev); [done|]. apply clip_view_schedule_refresh.
  - apply Hsame. unfold on_deleted.
    destruct (is_directory ev); [done|]. apply clip_view_schedule_refresh.
  - destruct (clipboard_auto_var a) eqn:Hauto; [|by destruct Hclick].
    unfold toggle_clipboard_watch.
    replace (clipboard_auto_var (set_clipboard_auto_var (negb true) a))
      with false by (by destruct a).
    split.
    + rewrite <- Hlast.
      destruct a as [? ? ? ? [job|] ? ? ? ? ? ? ? ? ? ? ? ?]; by cbn.
    + apply export_calls_view.
      destruct a as [? ? ? ? [job|] ? ? ? ? ? ? ? ? ? ? ? ?]; by cbn.
  - destruct (clip_view_generate_prompt cfg os_listdir w a) as (more & Hv & Hno).
    unfold clip_view in Hv. injection Hv as H1 H2 H3.
    split; [congruence|].
    rewrite (export_calls_app a more _ H3), omap_no_export by done.
    apply app_nil_r.
Qed.

Lemma run_quiet tr a content :
  _last_clipboard a = Some content →
  Forall (λ wi : World * input, _get_clipboard_text wi.1 = content) tr →
  never_armed_again cfg os_listdir tr a →
  _last_clipboard (run cfg os_listdir tr a) = Some content ∧
  export_calls (run cfg os_listdir tr a) = export_calls a.
Proof.
  revert a. induction tr as [|[w i] tr IH]; intros a Hlast Hall Hnever.
  - done.
  - apply Forall_cons in Hall as [Hw Hall]. destruct Hnever as [Hclick Hnever].
    destruct (step_quiet w i a content Hlast Hw Hclick) as (Hl & He).
    cbn [run]. destruct (IH _ Hl Hall Hnever) as (Hl' & He').
    split; [done | by rewrite He'].
Qed.

End PollFacts.

(** ** [str.strip] *)

Section Strip.

Lemma string_drop_app (w r : string) :
  string_drop (String.length w) (w +:+ r) = r.
Proof. induction w as [|c w IH]; [done|]. rewrite app_cons_s. simpl. exact IH. Qed.

Lemma drop_one_of_Some (ws : list string) (s r : string) :
  drop_one_of ws s = Some r → ∃ w, w ∈ ws ∧ s = w +:+ r.
Proof.
  unfold drop_one_of.
  destruct (List.find _ ws) as [w|] eqn:Hf; [|done].
  intros [= <-]. apply find_some in Hf as [Hin Hp].
  apply prefix_begins in Hp as [r ->].
  exists w. split; [by apply list_elem_of_In|]. by rewrite string_drop_app.
Qed.

Lemma drop_one_of_None (ws : list string) (s : string) :
  drop_one_of ws s = None ↔ ∀ w, w ∈ ws → ¬ begins_with s w.
Proof.
  unfold drop_one_of. split.
  - destruct (List.find _ ws) as [w|] eqn:Hf; [done|]. intros _ w Hin Hb.
    apply prefix_begins in Hb.
    pose proof (find_none _ _ Hf w (proj1 (list_elem_of_In _ _) Hin)) as Hn.
    simpl in Hn. congruence.
  - intros Hall. destruct (List.find _ ws) as [w|] eqn:Hf; [|done].
    apply find_some in Hf as [Hin Hp].
    destruct (Hall w (proj2 (list_elem_of_In _ _) Hin)).
    by apply prefix_begins.
Qed.

(** With enough fuel, what [lstrip_aux] returns begins with no element of
    [ws], and it is what is left of [s] after a front part is removed. *)
Lemma lstrip_aux_spec (ws : list string) (fuel : nat) (s : string) :
  "" ∉ ws → String.length s ≤ fuel →
  let r := lstrip_aux ws fuel s in
  (∀ w, w ∈ ws → ¬ begins_with r w) ∧ ∃ pre, s = pre +:+ r.
Proof.
  intros Hne. revert s. induction fuel as [|fuel IH]; intros s Hlen; simpl.
  - destruct s; [|simpl in Hlen; lia]. split; [|by exists ""].
    intros w Hw [r Hr]. destruct w; [done | discriminate].
  - destruct (drop_one_of ws s) as [r|] eqn:Hd.
    + apply drop_one_of_Some in Hd as (w & Hw & ->).
      assert (w ≠ "") by (intros ->; done).
      assert (String.length r ≤ fuel).
      { rewrite length_app_s in Hlen. destruct w; [done|]. simpl in Hlen. lia. }
      destruct (IH r ltac:(done)) as (Hno & pre & Hpre).
      split; [done|]. exists (w +:+ pre). rewrite app_assoc_s. by f_equal.
    + split; [by apply drop_one_of_None | by exists ""].
Qed.

Lemma lstrip_chars_spec (ws : list string) (s : string) :
  "" ∉ ws →
  (∀ w, w ∈ ws → ¬ begins_with (lstrip_chars ws s) w) ∧
  ∃ pre, s = pre +:+ lstrip_chars ws s.
Proof. intros Hne. by apply lstrip_aux_spec. Qed.

Lemma rev_nonempty (ws : list string) : "" ∉ ws → "" ∉ String.rev <$> ws.
Proof.
  intros Hne Hin. apply list_elem_of_fmap in Hin as (w & Hw & Hin).
  destruct w; [done|]. rewrite rev_cons_s in Hw.
  destruct (String.rev w); discriminate.
Qed.

Lemma rstrip_chars_spec (ws : list string) (s : string) :
  "" ∉ ws →
  (∀ w, w ∈ ws → ¬ ends_with (rstrip_chars ws s) w) ∧
  ∃ post, s = rstrip_chars ws s +:+ post.
Proof.
  intros Hne. unfold rstrip_chars.
  destruct (lstrip_chars_spec (String.rev <$> ws) (String.rev s)
              (rev_nonempty ws Hne)) as (Hno & pre & Hpre).
  split.
  - intros w Hw [u Hu].
    apply (Hno (String.rev w) (list_elem_of_fmap_2 String.rev ws w Hw)).
    exists (String.rev u).
    rewrite <- rev_app_s, <- Hu. by rewrite rev_rev_s.
  - exists (String.rev pre).
    rewrite <- rev_app_s, <- Hpre. by rewrite rev_rev_s.
Qed.

Lemma whitespace_nonempty : "" ∉ whitespace.
Proof.
  intros Hin. apply list_elem_of_In in Hin.
  assert (Hb : existsb (String.eqb "") whitespace = true).
  { apply existsb_exists. exists "". split; [done | apply String.eqb_refl]. }
  vm_compute in Hb. discriminate.
Qed.

(** [strip] returns a part of its argument that neither begins nor ends
    with white space. *)
Lemma strip_spec (s : string) :
  (∀ w, w ∈ whitespace → ¬ begins_with (strip s) w) ∧
  (∀ w, w ∈ whitespace → ¬ ends_with (strip s) w) ∧
  ∃ pre post, s = pre +:+ strip s +:+ post.
Proof.
  unfold strip.
  destruct (lstrip_chars_spec whitespace s whitespace_nonempty)
    as (Hl & pre & Hpre).
  destruct (rstrip_chars_spec whitespace (lstrip_chars whitespace s)
              whitespace_nonempty) as (Hr & post & Hpost).
  split; [|split; [done|]].
  - intros w Hw [u Hu]. apply (Hl w Hw). exists (u +:+ post).
    rewrite Hpost, Hu. by rewrite app_assoc_s.
  - exists pre, post. by rewrite <- Hpost.
Qed.

Lemma app_prefix_cases (v w r1 r2 : string) :
  v +:+ r1 = w +:+ r2 → begins_with v w ∨ begins_with w v.
Proof.
  revert w. induction v as [|c v IH]; intros w Heq.
  - right. by exists w.
  - destruct w as [|c' w].
    + left. by eexists.
    + rewrite !app_cons_s in Heq. injection Heq as -> Heq.
      destruct (IH w Heq) as [[t ->]|[t ->]].
      * left. exists t. by rewrite app_cons_s.
      * right. exists t. by rewrite app_cons_s.
Qed.

Lemma whitespace_prefix_free (v w : string) :
  v ∈ whitespace → w ∈ whitespace → begins_with w v → v = w.
Proof.
  intros Hv Hw Hb. apply prefix_begins in Hb.
  assert (Hpf : prefix_free whitespace = true) by (vm_compute; reflexivity).
  unfold prefix_free in Hpf. rewrite forallb_forall in Hpf.
  specialize (Hpf v (proj1 (list_elem_of_In _ _) Hv)).
  rewrite forallb_forall in Hpf.
  specialize (Hpf w (proj1 (list_elem_of_In _ _) Hw)).
  rewrite Hb in Hpf. simpl in Hpf. by apply String.eqb_eq.
Qed.

Lemma blank_tail (v r : string) :
  v ∈ whitespace → blank (v +:+ r) → blank r.
Proof.
  intros Hv Hb. inversion Hb as [Hnil|w s Hw Hs Heq].
  - destruct v; [by destruct whitespace_nonempty | discriminate].
  - assert (v = w) as <-.
    { destruct (app_prefix_cases _ _ _ _ Heq) as [Hc|Hc].
      - by apply whitespace_prefix_free.
      - symmetry. by apply whitespace_prefix_free. }
    apply String.app_inj in Heq. by subst.
Qed.

Lemma lstrip_aux_blank (fuel : nat) (s : string) :
  blank s → blank (lstrip_aux whitespace fuel s).
Proof.
  revert s. induction fuel as [|fuel IH]; intros s Hb; simpl; [done|].
  destruct (drop_one_of whitespace s) as [r|] eqn:Hd; [|done].
  apply drop_one_of_Some in Hd as (w & Hw & ->).
  apply IH. by apply blank_tail with w.
Qed.

(** White space only strips to the empty string. *)
Lemma strip_blank (s : string) : blank s → strip s = "".
Proof.
  intros Hb. unfold strip.
  assert (Hl : lstrip_chars whitespace s = "").
  { destruct (lstrip_chars_spec whitespace s whitespace_nonempty) as (Hno & _).
    pose proof (lstrip_aux_blank (String.length s) s Hb) as Hb'.
    fold (lstrip_chars whitespace s) in Hb'.
    inversion Hb' as [|w r Hw Hr Heq]; [done|].
    destruct (Hno w Hw). exists r. by rewrite <- Heq. }
  rewrite Hl. reflexivity.
Qed.

End Strip.

Section Trimmed.

Lemma made_of_app (ws : list string) (a b : string) :
  made_of ws a → made_of ws b → made_of ws (a +:+ b).
Proof.
  induction 1 as [|w s Hw Hs IH]; intros Hb; [done|].
  rewrite app_assoc_s. apply made_cons; [done | by apply IH].
Qed.

Lemma made_of_one (ws : list string) (w : string) :
  w ∈ ws → made_of ws w.
Proof.
  intros Hw. rewrite <- (app_nil_r_s w). apply made_cons; [done | constructor].
Qed.

Lemma made_of_rev (ws : list string) (s : string) :
  made_of ws s → made_of (String.rev <$> ws) (String.rev s).
Proof.
  induction 1 as [|w s Hw Hs IH]; [constructor|].
  rewrite rev_app_s. apply made_of_app; [done|].
  apply made_of_one. by apply list_elem_of_fmap_2.
Qed.

Lemma made_of_unrev (ws : list string) (s : string) :
  made_of (String.rev <$> ws) s → made_of ws (String.rev s).
Proof.
  induction 1 as [|w s Hw Hs IH]; [constructor|].
  rewrite rev_app_s. apply made_of_app; [done|].
  apply list_elem_of_fmap in Hw as (v & -> & Hv).
  rewrite rev_rev_s. by apply made_of_one.
Qed.

Lemma blank_made_of (s : string) : blank s ↔ made_of whitespace s.
Proof.
  split; induction 1; by constructor.
Qed.

Lemma blank_app (a b : string) : blank a → blank b → blank (a +:+ b).
Proof. rewrite !blank_made_of. apply made_of_app. Qed.

Lemma lstrip_aux_cut (ws : list string) (fuel : nat) (s : string) :
  ∃ pre, made_of ws pre ∧ s = pre +:+ lstrip_aux ws fuel s.
Proof.
  revert s. induction fuel as [|fuel IH]; intros s; simpl.
  - exists "". split; [constructor | done].
  - destruct (drop_one_of ws s) as [r|] eqn:Hd.
    + apply drop_one_of_Some in Hd as (w & Hw & ->).
      destruct (IH r) as (pre & Hpre & Hr).
      exists (w +:+ pre). split; [by constructor|].
      rewrite app_assoc_s. by f_equal.
    + exists "". split; [constructor | done].
Qed.

Lemma rstrip_chars_cut (ws : list string) (s : string) :
  ∃ post, made_of ws post ∧ s = rstrip_chars ws s +:+ post.
Proof.
  unfold rstrip_chars, lstrip_chars.
  destruct (lstrip_aux_cut (String.rev <$> ws) (String.length (String.rev s))
              (String.rev s)) as (pre & Hpre & Hs).
  exists (String.rev pre). split; [by apply made_of_unrev|].
  rewrite <- rev_app_s, <- Hs. by rewrite rev_rev_s.
Qed.

(** [strip] cuts white space, and only white space, off the two ends. *)
Lemma strip_trimmed (s : string) : trimmed s (strip s).
Proof.
  destruct (strip_spec s) as (Hb & He & _).
  destruct (lstrip_aux_cut whitespace (String.length s) s)
    as (pre & Hpre & Hs).
  fold (lstrip_chars whitespace s) in Hs.
  destruct (rstrip_chars_cut whitespace (lstrip_chars whitespace s))
    as (post & Hpost & Hl).
  fold (strip s) in Hl.
  exists pre, post. split; [by rewrite <- Hl|].
  split; [by apply blank_made_of|]. split; [by apply blank_made_of|].
  intros w Hw. split; [by apply Hb | by apply He].
Qed.

Lemma prefix_free_spec (ws : list string) (v w : string) :
  prefix_free ws = true → v ∈ ws → w ∈ ws → begins_with w v → v = w.
Proof.
  intros Hpf Hv Hw Hb. apply prefix_begins in Hb.
  unfold prefix_free in Hpf. rewrite forallb_forall in Hpf.
  specialize (Hpf v (proj1 (list_elem_of_In _ _) Hv)).
  rewrite forallb_forall in Hpf.
  specialize (Hpf w (proj1 (list_elem_of_In _ _) Hw)).
  rewrite Hb in Hpf. simpl in Hpf. by apply String.eqb_eq.
Qed.

Lemma drop_one_of_first (ws : list string) (w r : string) :
  prefix_free ws = true → w ∈ ws → drop_one_of ws (w +:+ r) = Some r.
Proof.
  intros Hpf Hw. unfold drop_one_of.
  destruct (List.find _ ws) as [v|] eqn:Hf.
  - apply find_some in Hf as [Hin Hp].
    apply list_elem_of_In in Hin. apply prefix_begins in Hp as [t Ht].
    assert (v = w) as ->.
    { destruct (app_prefix_cases _ _ _ _ Ht) as [Hc|Hc].
      - by apply (prefix_free_spec ws).
      - symmetry. by apply (prefix_free_spec ws). }
    simpl. by rewrite string_drop_app.
  - pose proof (find_none _ _ Hf w (proj1 (list_elem_of_In _ _) Hw)) as Hn.
    simpl in Hn.
    assert (String.prefix w (w +:+ r) = true)
      by (apply prefix_begins; by exists r).
    congruence.
Qed.

Lemma lstrip_aux_enough (ws : list string) (fuel : nat) (s : string) :
  "" ∉ ws → String.length s ≤ fuel →
  lstrip_aux ws fuel s = lstrip_chars ws s.
Proof.
  intros Hne. unfold lstrip_chars.
  assert (Hgen : ∀ f1 f2 s, String.length s ≤ f1 → String.length s ≤ f2 →
                            lstrip_aux ws f1 s = lstrip_aux ws f2 s).
  { induction f1 as [|f1 IH]; intros f2 s' H1 H2.
    - destruct s'; [|simpl in H1; lia]. destruct f2; simpl; [done|].
      destruct (drop_one_of ws "") as [r|] eqn:Hd; [|done].
      apply drop_one_of_Some in Hd as (w & Hw & Heq).
      destruct w; [done | discriminate].
    - destruct f2 as [|f2].
      + destruct s'; [|simpl in H2; lia]. simpl.
        destruct (drop_one_of ws "") as [r|] eqn:Hd; [|done].
        apply drop_one_of_Some in Hd as (w & Hw & Heq).
        destruct w; [done | discriminate].
      + simpl. destruct (drop_one_of ws s') as [r|] eqn:Hd; [|done].
        apply drop_one_of_Some in Hd as (w & Hw & ->).
        assert (w ≠ "") by (intros ->; done).
        rewrite length_app_s in H1, H2.
        destruct w; [done|]. simpl in H1, H2.
        apply IH; lia. }
  intros Hlen. by apply Hgen.
Qed.

Lemma lstrip_chars_skip (ws : list string) (pre r : string) :
  prefix_free ws = true → "" ∉ ws → made_of ws pre →
  lstrip_chars ws (pre +:+ r) = lstrip_chars ws r.
Proof.
  intros Hpf Hne. induction 1 as [|w s Hw Hs IH]; [done|].
  rewrite app_assoc_s. rewrite <- IH.
  pose proof (drop_one_of_first ws w (s +:+ r) Hpf Hw) as Hdrop.
  destruct w as [|cw w']; [done|].
  unfold lstrip_chars at 1. rewrite app_cons_s in Hdrop |- *.
  cbn [String.length lstrip_aux]. rewrite Hdrop.
  apply lstrip_aux_enough; [done|]. rewrite !length_app_s. lia.
Qed.

Lemma lstrip_chars_none (ws : list string) (s : string) :
  (∀ w, w ∈ ws → ¬ begins_with s w) → lstrip_chars ws s = s.
Proof.
  intros Hno. unfold lstrip_chars. destruct (String.length s); [done|].
  simpl. by rewrite (proj2 (drop_one_of_None ws s) Hno).
Qed.

Lemma splits_spec (x y : string) :
  x ≠ "" → y ≠ "" → (x, y) ∈ splits (x +:+ y).
Proof.
  induction x as [|c x IH]; intros Hx Hy; [done|].
  rewrite app_cons_s. cbn [splits].
  destruct x as [|c' x].
  - change ("" +:+ y) with y. destruct y; [done|].
    apply elem_of_app. left. left.
  - apply elem_of_app. right.
    apply (list_elem_of_fmap_2
             (λ xy : string * string, (String c xy.1, xy.2))
             _ (String c' x, y)).
    by apply IH.
Qed.

Lemma clash_free_spec (ws : list string) (x y w' t u : string) :
  clash_free ws = true → x +:+ y ∈ ws → x ≠ "" → y ≠ "" → w' ∈ ws →
  y +:+ t = w' +:+ u → False.
Proof.
  intros Hcf Hw Hx Hy Hw' Heq.
  unfold clash_free in Hcf. rewrite forallb_forall in Hcf.
  specialize (Hcf _ (proj1 (list_elem_of_In _ _) Hw)).
  rewrite forallb_forall in Hcf.
  specialize (Hcf _ (proj1 (list_elem_of_In _ _) (splits_spec x y Hx Hy))).
  rewrite forallb_forall in Hcf.
  specialize (Hcf _ (proj1 (list_elem_of_In _ _) Hw')).
  simpl in Hcf. apply negb_true_iff, orb_false_iff in Hcf as [H1 H2].
  destruct (app_prefix_cases _ _ _ _ Heq) as [Hc|Hc];
    apply prefix_begins in Hc; congruence.
Qed.

(** White space behind a text that does not begin with white space does
    not make it begin with white space. *)
Lemma begins_with_blank_behind (c post w : string) :
  c ≠ "" → (∀ v, v ∈ whitespace → ¬ begins_with c v) → blank post →
  w ∈ whitespace → ¬ begins_with (c +:+ post) w.
Proof.
  intros Hc Hno Hpost Hw [t Ht].
  destruct (app_prefix_cases _ _ _ _ Ht) as [Hb|[y Hy]].
  - by apply (Hno w).
  - subst w. rewrite app_assoc_s in Ht. apply String.app_inj in Ht.
    destruct y as [|cy y].
    { apply (Hno c); [by rewrite app_nil_r_s in Hw|].
      exists "". by rewrite app_nil_r_s. }
    inversion Hpost as [Hnil|w' s Hw' Hs Heq].
    + rewrite <- Hnil in Ht. discriminate.
    + rewrite <- Heq in Ht.
      apply (clash_free_spec whitespace c (String cy y) w' t s);
        [vm_compute; reflexivity | done..].
Qed.

(** What [strip] returns is the only trimmed form of a text. *)
Lemma trimmed_strip (text content : string) :
  trimmed text content → strip text = content.
Proof.
  intros (pre & post & -> & Hpre & Hpost & Hends).
  destruct content as [|c0 content].
  - change ("" +:+ post) with post. apply strip_blank. by apply blank_app.
  - set (c := String c0 content) in *.
    assert (Hc : c ≠ "") by done.
    unfold strip.
    rewrite (lstrip_chars_skip whitespace pre (c +:+ post));
      [| by vm_compute | apply whitespace_nonempty | by apply blank_made_of].
    rewrite lstrip_chars_none; cycle 1.
    { intros w Hw. apply begins_with_blank_behind; try done.
      intros v Hv. by apply Hends. }
    unfold rstrip_chars. rewrite rev_app_s.
    rewrite (lstrip_chars_skip (String.rev <$> whitespace));
      [| by vm_compute | apply rev_nonempty, whitespace_nonempty
       | by apply made_of_rev, blank_made_of].
    rewrite lstrip_chars_none; [apply rev_rev_s|].
    intros w Hw [u Hu]. apply list_elem_of_fmap in Hw as (v & -> & Hv).
    apply (proj2 (Hends v Hv)). exists (String.rev u).
    rewrite <- (rev_rev_s c), Hu, rev_app_s, rev_rev_s. done.
Qed.

End Trimmed.

Section ClipboardTheorems.

Variable cfg : AppConfig.
Variable os_listdir : directory → list string.

Lemma poll_new_calls w a :
  clipboard_auto_var a = true → is_new_content (_get_clipboard_text w) a →
  export_calls (_poll_clipboard cfg w a)
  = export_calls a ++ [_get_clipboard_text w] ∧
  _last_clipboard (_poll_clipboard cfg w a) = Some (_get_clipboard_text w) ∧
  clipboard_auto_var (_poll_clipboard cfg w a) = true.
Proof.
  intros Hauto Hnew. apply fresh_content_new in Hnew.
  destruct (poll_export cfg w a Hauto Hnew) as (_ & more & Hv & Hno).
  unfold clip_view in Hv. injection Hv as H1 H2 H3.
  split; [|done].
  rewrite (export_calls_app a _ _ H3). simpl.
  by rewrite omap_no_export.
Qed.

Lemma poll_old_calls w a :
  ¬ is_new_content (_get_clipboard_text w) a →
  export_calls (_poll_clipboard cfg w a) = export_calls a ∧
  _last_clipboard (_poll_clipboard cfg w a) = _last_clipboard a ∧
  clipboard_auto_var (_poll_clipboard cfg w a) = clipboard_auto_var a.
Proof.
  intros Hold.
  assert (Hf : fresh_content (_get_clipboard_text w) a = false).
  { destruct (fresh_content _ a) eqn:E; [|done].
    by apply fresh_content_new in E. }
  destruct (clip_view_last _ _ (poll_quiet cfg w a (or_intror Hf)))
    as (H1 & H2 & H3).
  done.
Qed.

Lemma get_clipboard_text_trimmed_eq (w : World) (text content : string) :
  w_clipboard w = Returns text → trimmed text content →
  _get_clipboard_text w = content.
Proof.
  intros Hw Ht. unfold _get_clipboard_text. rewrite Hw.
  by apply trimmed_strip.
Qed.

(** C3, as amended.  While monitoring is armed, a poll calls the export
    and updates the snapshot exactly when the clipboard text, with the
    white space at its two ends cut off, is not empty and differs from
    the snapshot; otherwise it does neither.  So a second poll that finds
    a text with the same trimmed form exports nothing, and a poll that
    finds a text whose trimmed form is not empty and differs from a
    non-empty one before it exports that trimmed form. *)
Theorem poll_clipboard_novelty (w : World) (a : App)
    (text content : string) :
  clipboard_auto_var a = true →
  w_clipboard w = Returns text →
  trimmed text content →
  let a' := _poll_clipboard cfg w a in
  (is_new_content content a →
   export_calls a' = export_calls a ++ [content] ∧
   _last_clipboard a' = Some content) ∧
  (¬ is_new_content content a →
   export_calls a' = export_calls a ∧
   _last_clipboard a' = _last_clipboard a) ∧
  clipboard_auto_var a' = true ∧
  (∀ w2 text2,
     w_clipboard w2 = Returns text2 → trimmed text2 content →
     export_calls (_poll_clipboard cfg w2 a') = export_calls a') ∧
  (∀ w2 text2 content2,
     w_clipboard w2 = Returns text2 → trimmed text2 content2 →
     content ≠ "" → content2 ≠ "" → content2 ≠ content →
     export_calls (_poll_clipboard cfg w2 a')
     = export_calls a' ++ [content2]).
Proof.
  intros Hauto Hw Htrim a'. subst a'.
  pose proof (get_clipboard_text_trimmed_eq w text content Hw Htrim) as Hread.
  set (a' := _poll_clipboard cfg w a).
  assert (Hcases : is_new_content content a ∨ ¬ is_new_content content a).
  { destruct (fresh_content content a) eqn:E.
    - left. by apply fresh_content_new.
    - right. intros Hn. apply fresh_content_new in Hn. congruence. }
  assert (Hnew : is_new_content content a →
                 export_calls a' = export_calls a ++ [content] ∧
                 _last_clipboard a' = Some content ∧
                 clipboard_auto_var a' = true).
  { intros Hn. rewrite <- Hread in Hn |- *.
    by apply poll_new_calls. }
  assert (Hold : ¬ is_new_content content a →
                 export_calls a' = export_calls a ∧
                 _last_clipboard a' = _last_clipboard a ∧
                 clipboard_auto_var a' = clipboard_auto_var a).
  { intros Ho. rewrite <- Hread in Ho. by apply poll_old_calls. }
  assert (Hlast : content ≠ "" → _last_clipboard a' = Some content).
  { intros Hne. destruct Hcases as [Hn|Ho].
    - by destruct (Hnew Hn) as (_ & ? & _).
    - destruct (Hold Ho) as (_ & Hl & _). rewrite Hl.
      destruct (_last_clipboard a) as [l|] eqn:El.
      + destruct (decide (l = content)) as [->|Hd]; [done|].
        destruct Ho. split; [done|]. congruence.
      + destruct Ho. split; [done|]. by rewrite El. }
  assert (Hauto' : clipboard_auto_var a' = true).
  { destruct Hcases as [Hn|Ho].
    - by destruct (Hnew Hn) as (_ & _ & ?).
    - destruct (Hold Ho) as (_ & _ & Hv). by rewrite Hv. }
  split; [|split; [|split; [done|split]]].
  - intros Hn. destruct (Hnew Hn) as (? & ? & _). done.
  - intros Ho. destruct (Hold Ho) as (? & ? & _). done.
  - intros w2 text2 Hw2 Ht2.
    pose proof (get_clipboard_text_trimmed_eq w2 text2 content Hw2 Ht2) as Hr2.
    apply (poll_old_calls w2 a'). rewrite Hr2. intros [Hne Hn].
    by apply Hn, Hlast.
  - intros w2 text2 content2 Hw2 Ht2 Hne Hne2 Hdiff.
    pose proof (get_clipboard_text_trimmed_eq w2 text2 content2 Hw2 Ht2)
      as Hr2.
    rewrite <- Hr2.
    apply (poll_new_calls w2 a' Hauto'). rewrite Hr2. split; [done|].
    rewrite (Hlast Hne). congruence.
Qed.

(** C10, as amended.  When a poll finds new text, the snapshot is set
    before [_export_content] is called, and it stays set whatever the
    export does (also when it fails).  From then on, as long as the
    clipboard holds the same text and no click switches monitoring on
    again, no step of the application exports anything. *)
Theorem failed_export_not_repeated (w : World) (a : App)
    (tr : list (World * input)) :
  clipboard_auto_var a = true →
  is_new_content (_get_clipboard_text w) a →
  Forall (λ wi : World * input,
            _get_clipboard_text wi.1 = _get_clipboard_text w) tr →
  never_armed_again cfg os_listdir tr (_poll_clipboard cfg w a) →
  let content := _get_clipboard_text w in
  let a' := _poll_clipboard cfg w a in
  a' = _schedule_clipboard_poll false
         (_export_content cfg w content false false
            (_set_reply_text content
               (set_last_clipboard (Some content)
                  (set_clipboard_job None a)))).1 ∧
  _last_clipboard a' = Some content ∧
  export_calls a' = export_calls a ++ [content] ∧
  export_calls (run cfg os_listdir tr a') = export_calls a'.
Proof.
  intros Hauto Hnew Hall Hnever content a'.
  pose proof Hnew as Hfresh. apply fresh_content_new in Hfresh.
  destruct (poll_export cfg w a Hauto Hfresh) as (Heq & _).
  destruct (poll_new_calls w a Hauto Hnew) as (Hcalls & Hlast & _).
  split; [done|]. split; [done|]. split; [done|].
  by destruct (run_quiet cfg os_listdir tr a' content Hlast Hall Hnever).
Qed.

End ClipboardTheorems.

Lemma trimmed_plain (s : string) :
  strip s = s → trimmed s s.
Proof. intros Hs. rewrite <- Hs at 2. apply strip_trimmed. Qed.

Lemma poll_clipboard_novelty_witness :
  let w := world_failing "A" in
  let a := armed_app in
  let a' := _poll_clipboard sample_cfg w a in
  (is_new_content "A" a →
   export_calls a' = export_calls a ++ ["A"] ∧
   _last_clipboard a' = Some "A") ∧
  (¬ is_new_content "A" a →
   export_calls a' = export_calls a ∧
   _last_clipboard a' = _last_clipboard a) ∧
  clipboard_auto_var a' = true ∧
  (∀ w2 text2,
     w_clipboard w2 = Returns text2 → trimmed text2 "A" →
     export_calls (_poll_clipboard sample_cfg w2 a') = export_calls a') ∧
  (∀ w2 text2 content2,
     w_clipboard w2 = Returns text2 → trimmed text2 content2 →
     "A" ≠ "" → content2 ≠ "" → content2 ≠ "A" →
     export_calls (_poll_clipboard sample_cfg w2 a')
     = export_calls a' ++ [content2]).
Proof.
  intros w a.
  assert (H1 : clipboard_auto_var a = true) by reflexivity.
  assert (H2 : w_clipboard w = Returns "A") by reflexivity.
  assert (H3 : trimmed "A" "A") by (apply trimmed_plain; vm_compute; reflexivity).
  exact (poll_clipboard_novelty sample_cfg w a "A" "A" H1 H2 H3).
Defined.

(** C3, as stated, fails for texts that differ in the white space at
    their ends only: after the text A was exported, the text A followed
    by a blank is not empty and differs from the snapshot and from the
    text before, and the poll exports nothing and keeps the snapshot. *)
Lemma poll_clipboard_untrimmed_counterexample :
  let a1 := _poll_clipboard sample_cfg (world_failing "A") armed_app in
  let w2 := world_failing "A " in
  let a2 := _poll_clipboard sample_cfg w2 a1 in
  clipboard_auto_var a1 = true ∧
  w_clipboard w2 = Returns "A " ∧
  "A " ≠ "" ∧ _last_clipboard a1 ≠ Some "A " ∧
  export_calls a1 = ["A"] ∧
  export_calls a2 = ["A"] ∧
  _last_clipboard a2 = Some "A".
Proof. vm_compute. repeat split; discriminate. Qed.

Example poll_twice_then_changed :
  let a1 := _poll_clipboard sample_cfg (world_failing "A") armed_app in
  let a2 := _poll_clipboard sample_cfg (world_failing "A") a1 in
  let a3 := _poll_clipboard sample_cfg (world_failing "B") a2 in
  export_calls a1 = ["A"] ∧ export_calls a2 = ["A"] ∧
  export_calls a3 = ["A"; "B"].
Proof. vm_compute. done. Qed.

(** C10, as stated, fails when monitoring is switched off and on again
    after the failed export: the snapshot is reset and the next poll
    exports the unchanged text a second time. *)
Lemma rearm_reexports_counterexample :
  let w := world_failing "A" in
  let a1 := _poll_clipboard sample_cfg w armed_app in
  let tr := [(w, ClickClipboardWatch); (w, ClickClipboardWatch);
             (w, Elapse 10); (w, TkFire 4)] in
  Forall (λ wi : World * input, _get_clipboard_text wi.1 = "A") tr ∧
  effects a1
  = [ExportContent "A"; LogError "Word 輸出失敗：disk full"] ∧
  _last_clipboard a1 = Some "A" ∧
  export_calls a1 = ["A"] ∧
  export_calls (run sample_cfg listdir_keys tr a1) = ["A"; "A"].
Proof.
  vm_compute. split; [|done]. repeat constructor.
Qed.

Lemma failed_export_not_repeated_witness :
  let w := world_failing "A" in
  let a := armed_app in
  let tr := [(w, Elapse 700); (w, TkFire 1); (w, Elapse 700); (w, TkFire 2)] in
  let content := _get_clipboard_text w in
  let a' := _poll_clipboard sample_cfg w a in
  a' = _schedule_clipboard_poll false
         (_export_content sample_cfg w content false false
            (_set_reply_text content
               (set_last_clipboard (Some content)
                  (set_clipboard_job None a)))).1 ∧
  _last_clipboard a' = Some content ∧
  export_calls a' = export_calls a ++ [content] ∧
  export_calls (run sample_cfg listdir_keys tr a') = export_calls a'.
Proof.
  intros w a tr.
  assert (H1 : clipboard_auto_var a = true) by reflexivity.
  assert (H2 : is_new_content (_get_clipboard_text w) a)
    by (split; vm_compute; discriminate).
  assert (H3 : Forall (λ wi : World * input,
                         _get_clipboard_text wi.1 = _get_clipboard_text w) tr)
    by (repeat constructor).
  assert (H4 : never_armed_again sample_cfg listdir_keys tr
                 (_poll_clipboard sample_cfg w a))
    by (repeat split; intros [? ?]; discriminate).
  exact (failed_export_not_repeated sample_cfg listdir_keys w a tr H1 H2 H3 H4).
Defined.


Example burst_of_ten :
  let b := burst sample_cfg listdir_keys sample_world ten_modifications
             (initial_app "P" "D") in
  let early := step sample_cfg listdir_keys sample_world (TkFire 9)
                 (step sample_cfg listdir_keys sample_world (Elapse 299) b) in
  let late := step sample_cfg listdir_keys sample_world (TkFire 9)
                (step sample_cfg listdir_keys sample_world (Elapse 300) b) in
  clock b = 200 ∧
  after_queue b
  = [{| job_id := 9; job_due := 500; job_cb := cb_run_refresh |}] ∧
  refresh_count b = 0 ∧ refresh_count early = 0 ∧ refresh_count late = 1 ∧
  effects late
  = [RefreshAll ["【待審】report.docx"; "【標準】rules.txt"] ["draft.pdf"]] ∧
  after_queue late = [].
Proof. vm_compute. done. Qed.

Example prompt_without_references :
  prompt_text [] [] "Report.docx"
  = "請以【標準】與【範本】作為依據，逐條審查【待審】文件：Report.docx" +:+ LF +:+ LF
    +:+ "【標準】" +:+ LF +:+ "- (無)" +:+ LF +:+ LF
    +:+ "【範本】" +:+ LF +:+ "- (無)" +:+ LF +:+ LF
    +:+ "請輸出：" +:+ LF +:+ "1) 不符合之處" +:+ LF +:+ "2) 風險" +:+ LF
    +:+ "3) 具體修改建議" +:+ LF +:+ "4) 需人工確認事項" +:+ LF.
Proof. vm_compute. reflexivity. Qed.

Example prompt_with_references :
  prompt_text ["S1"; "S2"] ["T1"] "Report.docx"
  = "請以【標準】與【範本】作為依據，逐條審查【待審】文件：Report.docx" +:+ LF +:+ LF
    +:+ "【標準】" +:+ LF +:+ "- S1" +:+ LF +:+ "- S2" +:+ LF +:+ LF
    +:+ "【範本】" +:+ LF +:+ "- T1" +:+ LF +:+ LF
    +:+ "請輸出：" +:+ LF +:+ "1) 不符合之處" +:+ LF +:+ "2) 風險" +:+ LF
    +:+ "3) 具體修改建議" +:+ LF +:+ "4) 需人工確認事項" +:+ LF.
Proof. vm_compute. reflexivity. Qed.

(** * Further properties of the code *)

(** ** The tagger: outcomes, the rename, the stability wait *)

Section TaggerMore.

Variable cfg : AppConfig.

(** [tag_file] succeeds exactly when the source exists, the destination
    name is free and the rename goes through; every failure leaves the
    file system as it was, and nothing is slept or logged when one of the
    two guards answers. *)
Theorem tag_file_outcomes (fs : filesystem) (sizes : nat → option nat)
    (rn : rename_outcome) (project delivery filename tag : string) :
  let dir := input_dir cfg project delivery in
  let r := tag_file cfg fs sizes rn project delivery filename tag in
  ((tr_ret r).1 = true
   ↔ entry_exists fs dir filename = true ∧
     entry_exists fs dir (tag +:+ filename) = false ∧ rn = RenameDone) ∧
  ((tr_ret r).1 = false → tr_fs r = fs) ∧
  (entry_exists fs dir filename = false →
   tr_ret r = (false, msg_not_found) ∧ tr_sleeps r = 0 ∧ tr_log r = []) ∧
  (entry_exists fs dir filename = true →
   entry_exists fs dir (tag +:+ filename) = false →
   tr_ret r = match rn with
              | RenameDone => (true, tag +:+ filename)
              | RenamePermissionError => (false, msg_busy)
              | RenameError e => (false, e)
              end).
Proof.
  intros dir r. subst dir r. unfold tag_file.
  destruct (entry_exists fs (input_dir cfg project delivery) filename) eqn:Es;
    simpl.
  - destruct (entry_exists fs (input_dir cfg project delivery)
                (tag +:+ filename)) eqn:Ed; simpl.
    + split; [|split; [done|split; [done|done]]].
      split; [done | by intros (_ & ? & _)].
    + destruct rn; simpl.
      * split; [|split; [done|split; [done|done]]]. by split.
      * split; [|split; [done|split; [done|done]]].
        split; [done | by intros (_ & _ & ?)].
      * split; [|split; [done|split; [done|done]]].
        split; [done | by intros (_ & _ & ?)].
  - split; [|split; [done|split; [done|done]]].
    split; [done | by intros (? & _)].
Qed.

Lemma tag_file_done (fs : filesystem) (sizes : nat → option nat)
    (project delivery filename tag : string) (d : directory) (n : node) :
  fs !! input_dir cfg project delivery = Some d →
  d !! filename = Some n → kind n ≠ DanglingLink →
  entry_exists fs (input_dir cfg project delivery) (tag +:+ filename) = false →
  tr_ret (tag_file cfg fs sizes RenameDone project delivery filename tag)
  = (true, tag +:+ filename) ∧
  tr_fs (tag_file cfg fs sizes RenameDone project delivery filename tag)
  = <[input_dir cfg project delivery :=
        <[tag +:+ filename := n]> (delete filename d)]> fs.
Proof.
  intros Hd Hsrc Hkind Hdst. unfold tag_file.
  rewrite (entry_exists_found fs _ filename d n Hd Hsrc Hkind), Hdst.
  simpl. split; [done|].
  apply map_eq. intros k. rewrite lookup_alter, lookup_insert.
  destruct (decide (input_dir cfg project delivery = k)) as [<-|Hne]; [|done].
  rewrite Hd. simpl. unfold rename_entry. by rewrite Hsrc.
Qed.

Lemma tag_source_differs (d : directory) (filename tag : string) (n : node) :
  d !! filename = Some n → d !! (tag +:+ filename) = None →
  tag +:+ filename ≠ "".
Proof.
  intros Hsrc Hdst He. destruct tag; [|discriminate].
  change ("" +:+ filename) with filename in *. congruence.
Qed.

(** X1.  A successful [tag_file] moves the node, with its kind and content, to
    the new name: the old name is gone, every other entry of the
    directory is as before, the directory has as many entries as before,
    and the other directories are untouched. *)
Theorem tag_file_moves_node (fs : filesystem) (sizes : nat → option nat)
    (project delivery filename tag : string) (d : directory) (n : node) :
  fs !! input_dir cfg project delivery = Some d →
  d !! filename = Some n →
  kind n ≠ DanglingLink →
  d !! (tag +:+ filename) = None →
  let fs' :=
    tr_fs (tag_file cfg fs sizes RenameDone project delivery filename tag) in
  ∃ d',
    fs' !! input_dir cfg project delivery = Some d' ∧
    d' !! (tag +:+ filename) = Some n ∧
    d' !! filename = None ∧
    (∀ k, k ≠ filename → k ≠ tag +:+ filename → d' !! k = d !! k) ∧
    size d' = size d ∧
    (∀ p, p ≠ input_dir cfg project delivery → fs' !! p = fs !! p).
Proof.
  intros Hd Hsrc Hkind Hdst fs'. subst fs'.
  pose proof (tag_source_differs d filename tag n Hsrc Hdst) as Hnonempty.
  destruct (tag_file_done fs sizes project delivery filename tag d n
              Hd Hsrc Hkind
              (entry_exists_absent fs _ _ d Hd Hdst Hnonempty)) as [_ ->].
  assert (Hne : filename ≠ tag +:+ filename) by congruence.
  exists (<[tag +:+ filename := n]> (delete filename d)).
  split; [by rewrite lookup_insert_eq|].
  split; [by rewrite lookup_insert_eq|].
  split; [rewrite lookup_insert_ne by done; by rewrite lookup_delete_eq|].
  split.
  { intros k H1 H2. rewrite lookup_insert_ne by done.
    by rewrite lookup_delete_ne. }
  split.
  { rewrite map_size_insert_None
      by (rewrite lookup_delete_ne by done; exact Hdst).
    pose proof (map_size_delete_Some filename d (mk_is_Some _ _ Hsrc)) as Hs.
    assert (size d ≠ 0) by (apply map_size_ne_0_lookup_2 with filename; by eexists).
    lia. }
  intros p Hp. by rewrite lookup_insert_ne.
Qed.

(** X2.  A destination name that is only a link to a missing target does not
    stop [tag_file]: the guard finds nothing there, the rename goes
    through and replaces the link, which is lost; the directory has one
    entry less. *)
Theorem tag_file_replaces_dangling_link (fs : filesystem)
    (sizes : nat → option nat)
    (project delivery filename tag : string) (d : directory) (n l : node) :
  fs !! input_dir cfg project delivery = Some d →
  d !! filename = Some n →
  kind n ≠ DanglingLink →
  d !! (tag +:+ filename) = Some l →
  kind l = DanglingLink →
  let r := tag_file cfg fs sizes RenameDone project delivery filename tag in
  tr_ret r = (true, tag +:+ filename) ∧
  ∃ d',
    tr_fs r !! input_dir cfg project delivery = Some d' ∧
    d' !! (tag +:+ filename) = Some n ∧
    d' !! filename = None ∧
    (∀ k, k ≠ filename → k ≠ tag +:+ filename → d' !! k = d !! k) ∧
    S (size d') = size d.
Proof.
  intros Hd Hsrc Hkind Hdst Hlink r. subst r.
  assert (Hne : filename ≠ tag +:+ filename)
    by (intros He; rewrite <- He in Hdst; congruence).
  assert (Hfree : entry_exists fs (input_dir cfg project delivery)
                    (tag +:+ filename) = false).
  { unfold entry_exists. rewrite Hd, Hdst.
    destruct (bool_decide (tag +:+ filename = "")) eqn:He.
    - apply bool_decide_eq_true in He. destruct tag; [|discriminate].
      by destruct Hne.
    - by rewrite bool_decide_eq_true_2. }
  destruct (tag_file_done fs sizes project delivery filename tag d n
              Hd Hsrc Hkind Hfree) as [-> ->].
  split; [done|].
  exists (<[tag +:+ filename := n]> (delete filename d)).
  split; [by rewrite lookup_insert_eq|].
  split; [by rewrite lookup_insert_eq|].
  split; [rewrite lookup_insert_ne by done; by rewrite lookup_delete_eq|].
  split.
  { intros k H1 H2. rewrite lookup_insert_ne by done.
    by rewrite lookup_delete_ne. }
  rewrite map_size_insert_Some
    by (rewrite lookup_delete_ne by done; by eexists).
  pose proof (map_size_delete_Some filename d (mk_is_Some _ _ Hsrc)) as Hs.
  assert (size d ≠ 0)
    by (apply map_size_ne_0_lookup_2 with filename; by eexists).
  lia.
Qed.

Lemma stability_round_bounds (sizes : nat → option nat) (calls sleeps : nat) :
  let '(calls', sleeps', stop) := stability_round sizes (calls, sleeps) in
  calls < calls' ≤ calls + 2 ∧ sleeps < sleeps' ≤ sleeps + 2.
Proof.
  unfold stability_round.
  destruct (sizes calls); [destruct (sizes (S calls))|]; lia.
Qed.

Lemma stability_wait_bounds (n : nat) (sizes : nat → option nat)
    (calls sleeps : nat) :
  let r := stability_wait n sizes (calls, sleeps) in
  calls ≤ r.1 ≤ calls + 2 * n ∧ sleeps ≤ r.2 ≤ sleeps + 2 * n ∧
  (0 < n → sleeps < r.2).
Proof.
  revert calls sleeps. induction n as [|n IH]; intros calls sleeps; cbv zeta.
  - simpl. lia.
  - cbn [stability_wait].
    pose proof (stability_round_bounds sizes calls sleeps) as Hr. revert Hr.
    destruct (stability_round sizes (calls, sleeps)) as [[calls' sleeps'] stop].
    intros Hr. destruct stop.
    + cbn [fst snd]. lia.
    + specialize (IH calls' sleeps'). cbv zeta in IH. lia.
Qed.

Lemma tag_file_sleeps (fs : filesystem) (sizes : nat → option nat)
    (rn : rename_outcome) (project delivery filename tag : string) :
  entry_exists fs (input_dir cfg project delivery) filename = true →
  entry_exists fs (input_dir cfg project delivery) (tag +:+ filename) = false →
  tr_sleeps (tag_file cfg fs sizes rn project delivery filename tag)
  = (stability_wait 5 sizes (0, 0)).2.
Proof.
  intros Hs Hd. unfold tag_file. rewrite Hs, Hd. by destruct rn.
Qed.

(** X3.  The stability wait of [tag_file] is bounded: when both guards pass,
    the call sleeps at least once and at most ten times (one second in
    all), whatever the sizes read and whether reading them fails, and the
    result of the call does not depend on the sizes; when the first two
    sizes agree it sleeps exactly once. *)
Theorem tag_file_wait_bounded (fs : filesystem) (sizes : nat → option nat)
    (rn : rename_outcome) (project delivery filename tag : string) :
  entry_exists fs (input_dir cfg project delivery) filename = true →
  entry_exists fs (input_dir cfg project delivery) (tag +:+ filename) = false →
  let r := tag_file cfg fs sizes rn project delivery filename tag in
  1 ≤ tr_sleeps r ≤ 10 ∧
  (∀ s, sizes 0 = Some s → sizes 1 = Some s → tr_sleeps r = 1) ∧
  (∀ sizes',
     let r' := tag_file cfg fs sizes' rn project delivery filename tag in
     tr_ret r' = tr_ret r ∧ tr_fs r' = tr_fs r ∧ tr_log r' = tr_log r).
Proof.
  intros Hs Hd r. subst r.
  rewrite (tag_file_sleeps fs sizes rn project delivery filename tag Hs Hd).
  pose proof (stability_wait_bounds 5 sizes 0 0) as Hb. cbv zeta in Hb.
  split; [lia|]. split.
  - intros s H0 H1. cbn [stability_wait]. unfold stability_round.
    rewrite H0, H1. by rewrite bool_decide_eq_true_2.
  - intros sizes'. unfold tag_file. rewrite Hs, Hd. by destruct rn.
Qed.

End TaggerMore.

Lemma tag_file_moves_node_witness :
  let d : directory := {[ "draft.pdf" := Node RegularFile "pdf";
                          "notes.txt" := Node RegularFile "n" ]} in
  let fs : filesystem := {[ sample_input := d; "/elsewhere" := ∅ ]} in
  let fs' := tr_fs (tag_file sample_cfg fs (λ _, None) RenameDone "P" "D"
                      "draft.pdf" tag_review) in
  ∃ d',
    fs' !! input_dir sample_cfg "P" "D" = Some d' ∧
    d' !! (tag_review +:+ "draft.pdf") = Some (Node RegularFile "pdf") ∧
    d' !! "draft.pdf" = None ∧
    (∀ k, k ≠ "draft.pdf" → k ≠ tag_review +:+ "draft.pdf" →
          d' !! k = d !! k) ∧
    size d' = size d ∧
    (∀ p, p ≠ input_dir sample_cfg "P" "D" → fs' !! p = fs !! p).
Proof.
  intros d fs.
  assert (H1 : fs !! input_dir sample_cfg "P" "D" = Some d)
    by (vm_compute; reflexivity).
  assert (H2 : d !! "draft.pdf" = Some (Node RegularFile "pdf"))
    by (vm_compute; reflexivity).
  assert (H3 : kind (Node RegularFile "pdf") ≠ DanglingLink)
    by (simpl; discriminate).
  assert (H4 : d !! (tag_review +:+ "draft.pdf") = None)
    by (vm_compute; reflexivity).
  exact (tag_file_moves_node sample_cfg fs (λ _, None) "P" "D" "draft.pdf"
           tag_review d (Node RegularFile "pdf") H1 H2 H3 H4).
Defined.

Lemma tag_file_replaces_dangling_link_witness :
  let d : directory := {[ "draft.pdf" := Node RegularFile "pdf";
                          "【待審】draft.pdf" := Node DanglingLink "" ]} in
  let fs : filesystem := {[ sample_input := d ]} in
  let r := tag_file sample_cfg fs (λ _, Some 3) RenameDone "P" "D"
             "draft.pdf" tag_review in
  tr_ret r = (true, tag_review +:+ "draft.pdf") ∧
  ∃ d',
    tr_fs r !! input_dir sample_cfg "P" "D" = Some d' ∧
    d' !! (tag_review +:+ "draft.pdf") = Some (Node RegularFile "pdf") ∧
    d' !! "draft.pdf" = None ∧
    (∀ k, k ≠ "draft.pdf" → k ≠ tag_review +:+ "draft.pdf" →
          d' !! k = d !! k) ∧
    S (size d') = size d.
Proof.
  intros d fs.
  assert (H1 : fs !! input_dir sample_cfg "P" "D" = Some d)
    by (vm_compute; reflexivity).
  assert (H2 : d !! "draft.pdf" = Some (Node RegularFile "pdf"))
    by (vm_compute; reflexivity).
  assert (H3 : kind (Node RegularFile "pdf") ≠ DanglingLink)
    by (simpl; discriminate).
  assert (H4 : d !! (tag_review +:+ "draft.pdf")
               = Some (Node DanglingLink ""))
    by (vm_compute; reflexivity).
  assert (H5 : kind (Node DanglingLink "") = DanglingLink) by reflexivity.
  exact (tag_file_replaces_dangling_link sample_cfg fs (λ _, Some 3)
           "P" "D" "draft.pdf" tag_review d (Node RegularFile "pdf")
           (Node DanglingLink "") H1 H2 H3 H4 H5).
Defined.

Lemma tag_file_wait_bounded_witness :
  let fs : filesystem :=
    {[ sample_input := {[ "draft.pdf" := Node RegularFile "pdf" ]} ]} in
  let sizes : nat → option nat := λ k, if Nat.even k then Some k else None in
  let r := tag_file sample_cfg fs sizes RenamePermissionError "P" "D"
             "draft.pdf" tag_review in
  1 ≤ tr_sleeps r ≤ 10 ∧
  (∀ s, sizes 0 = Some s → sizes 1 = Some s → tr_sleeps r = 1) ∧
  (∀ sizes',
     let r' := tag_file sample_cfg fs sizes' RenamePermissionError "P" "D"
                 "draft.pdf" tag_review in
     tr_ret r' = tr_ret r ∧ tr_fs r' = tr_fs r ∧ tr_log r' = tr_log r).
Proof.
  intros fs sizes.
  assert (H1 : entry_exists fs (input_dir sample_cfg "P" "D") "draft.pdf"
               = true) by (vm_compute; reflexivity).
  assert (H2 : entry_exists fs (input_dir sample_cfg "P" "D")
                 (tag_review +:+ "draft.pdf") = false)
    by (vm_compute; reflexivity).
  exact (tag_file_wait_bounded sample_cfg fs sizes RenamePermissionError
           "P" "D" "draft.pdf" tag_review H1 H2).
Defined.

Example wait_sleeps_ten_times :
  (stability_wait 5 (λ k, if Nat.even k then Some k else None) (0, 0)).2 = 10
  ∧ (stability_wait 5 (λ _, None) (0, 0)).2 = 5
  ∧ (stability_wait 5 (λ k, Some k) (0, 0)).2 = 5
  ∧ (stability_wait 5 (λ _, Some 7) (0, 0)).2 = 1.
Proof. vm_compute. done. Qed.

(** ** The export name, again *)

Section SanitizeMore.

Lemma free_of_cons (P : ascii → bool) (c : ascii) (s : string) :
  free_of P (String c s) ↔ P c = false ∧ free_of P s.
Proof. unfold free_of. simpl. by rewrite Forall_cons. Qed.

Lemma free_of_app (P : ascii → bool) (a b : string) :
  free_of P (a +:+ b) ↔ free_of P a ∧ free_of P b.
Proof.
  induction a as [|c a IH].
  - change ("" +:+ b) with b. split; [intros H; split; [constructor|done] | tauto].
  - rewrite app_cons_s, !free_of_cons, IH. tauto.
Qed.

Lemma resub_free (b : bool) (s : string) :
  free_of forbidden_char (re_sub_class_plus forbidden_char "_" b s).
Proof.
  revert b. induction s as [|c s IH]; intros b; simpl; [constructor|].
  destruct (forbidden_char c) eqn:Hc.
  - destruct b; [apply IH|].
    apply free_of_app. split; [|apply IH]. by repeat constructor.
  - apply free_of_cons. split; [done | apply IH].
Qed.

Lemma resub_clean (b : bool) (s : string) :
  free_of forbidden_char s →
  re_sub_class_plus forbidden_char "_" b s = s.
Proof.
  revert b. induction s as [|c s IH]; intros b Hfree; [done|].
  apply free_of_cons in Hfree as [Hc Hfree]. simpl. rewrite Hc.
  f_equal. by apply IH.
Qed.

Lemma resub_length (b : bool) (s : string) :
  String.length (re_sub_class_plus forbidden_char "_" b s) ≤ String.length s.
Proof.
  revert b. induction s as [|c s IH]; intros b; simpl; [done|].
  destruct (forbidden_char c).
  - destruct b.
    + specialize (IH true). lia.
    + rewrite length_app_s. simpl. specialize (IH true). lia.
  - simpl. specialize (IH false). lia.
Qed.

(** X7.  [sanitize_filename] gives a name without any of the forbidden
    characters, never longer than the given one and empty only if the
    given one is; a name without forbidden characters is returned as it
    is, so sanitizing twice changes nothing more. *)
Theorem sanitize_filename_safe (name : string) :
  free_of forbidden_char (sanitize_filename name) ∧
  String.length (sanitize_filename name) ≤ String.length name ∧
  (sanitize_filename name = "" → name = "") ∧
  (free_of forbidden_char name → sanitize_filename name = name) ∧
  sanitize_filename (sanitize_filename name) = sanitize_filename name.
Proof.
  unfold sanitize_filename.
  split; [apply resub_free|]. split; [apply resub_length|].
  split; [|split; [apply resub_clean | apply resub_clean, resub_free]].
  destruct name as [|c s]; [done|]. simpl.
  destruct (forbidden_char c); [|done].
  rewrite app_cons_s. discriminate.
Qed.

End SanitizeMore.

Section ExportPath.

Lemma basename_aux_no_slash (cand s : string) :
  free_of is_slash s → basename_aux cand s = cand.
Proof.
  induction s as [|c s IH]; intros Hfree; [done|].
  apply free_of_cons in Hfree as [Hc Hfree]. simpl.
  unfold is_slash in Hc. rewrite Hc. by apply IH.
Qed.

Lemma basename_aux_slash (cand x y : string) :
  basename_aux cand (x +:+ String "/" y) = basename_aux y y.
Proof.
  revert cand. induction x as [|c x IH]; intros cand.
  - done.
  - rewrite app_cons_s. simpl. destruct (Ascii.eqb c "/"); apply IH.
Qed.

Lemma basename_no_slash (s : string) :
  free_of is_slash s → os_path_basename s = s.
Proof. apply basename_aux_no_slash. Qed.

Lemma basename_after_slash (x y : string) :
  free_of is_slash y → os_path_basename (x +:+ "/" +:+ y) = y.
Proof.
  intros Hy. unfold os_path_basename.
  change ("/" +:+ y) with (String "/" y).
  rewrite basename_aux_slash. by apply basename_aux_no_slash.
Qed.

Lemma forbidden_covers_slash (s : string) :
  free_of forbidden_char s → free_of is_slash s.
Proof.
  unfold free_of. intros Hs. eapply Forall_impl; [exact Hs|].
  simpl. intros c Hc. unfold is_slash.
  destruct (Ascii.eqb_spec c "/") as [->|]; [discriminate | done].
Qed.

Lemma digit_no_slash (n : Z) : is_slash (digit n) = false.
Proof.
  unfold is_slash, digit.
  pose proof (Z.mod_pos_bound n 10 ltac:(lia)) as Hm.
  destruct (Ascii.eqb_spec (ascii_of_N (Z.to_N (48 + n `mod` 10))) "/")
    as [Heq|]; [|done].
  apply (f_equal N_of_ascii) in Heq.
  rewrite N_ascii_embedding in Heq by lia. simpl in Heq. lia.
Qed.

Lemma decimal_aux_no_slash (fuel : nat) (n : Z) (acc : string) :
  free_of is_slash acc → free_of is_slash (decimal_aux fuel n acc).
Proof.
  revert n acc. induction fuel as [|fuel IH]; intros n acc Hacc; [done|].
  simpl.
  assert (free_of is_slash (String (digit n) acc))
    by (apply free_of_cons; split; [apply digit_no_slash | done]).
  destruct (n <? 10)%Z; [done | by apply IH].
Qed.

Lemma strftime_2_no_slash (n : Z) : free_of is_slash (strftime_2 n).
Proof.
  unfold strftime_2, decimal.
  destruct (n <? 10)%Z.
  - apply free_of_app. split; [by repeat constructor|].
    apply decimal_aux_no_slash. constructor.
  - apply decimal_aux_no_slash. constructor.
Qed.

Lemma export_name_no_slash (src : string) (t : struct_time) :
  free_of is_slash (export_name src t).
Proof.
  unfold export_name, now_ts.
  repeat (apply free_of_app; split);
    first [ apply strftime_2_no_slash
          | apply forbidden_covers_slash, resub_free
          | apply decimal_aux_no_slash; constructor
          | by repeat constructor ].
Qed.

Lemma export_name_first (src : string) (t : struct_time) :
  Py.startswith (export_name src t) "/" = false.
Proof. reflexivity. Qed.

(** X8.  Whatever the source name and the time, the document lands directly in
    the output folder: the path returned is the folder, a slash if the
    folder does not end with one, and the export name; the export name
    holds no slash, so it is the base name of the path. *)
Theorem export_lands_in_folder (t : struct_time)
    (out src content : string) :
  ∃ path,
    WordExporter_export (Returns ()) t out src content = Returns path ∧
    (path = out +:+ export_name src t ∨
     path = out +:+ "/" +:+ export_name src t) ∧
    free_of is_slash (export_name src t) ∧
    os_path_basename path = export_name src t.
Proof.
  exists (os_path_join out (export_name src t)).
  split; [reflexivity|].
  pose proof (export_name_no_slash src t) as Hno.
  unfold os_path_join. rewrite export_name_first.
  destruct (bool_decide (out = "")) eqn:Hempty; simpl.
  - apply bool_decide_eq_true in Hempty as ->.
    split; [by left|]. split; [done|].
    change ("" +:+ export_name src t) with (export_name src t).
    by apply basename_no_slash.
  - destruct (Py.endswith out "/") eqn:Hend.
    + split; [by left|]. split; [done|].
      apply endswith_ends in Hend as [u ->].
      rewrite app_assoc_s. by apply basename_after_slash.
    + split; [by right|]. split; [done|].
      by apply basename_after_slash.
Qed.

End ExportPath.

(** ** Exporting *)

Section ExportContent.

Variable cfg : AppConfig.

Lemma effects_show_notification m a :
  effects (show_notification m a) = effects a.
Proof. by destruct a. Qed.

Lemma effects_emit e a : effects (emit e a) = effects a ++ [e].
Proof. by destruct a. Qed.

(** X10.  [_export_content] returns [True] exactly when the content is
    not empty, a target is selected, [docx] can be imported and the
    document is built and saved; then, and only then, a document is
    saved, under the export name of the target in the output folder.  Without [show_error_dialog] no dialog is opened, with
    it every failure opens one; the folder is opened only with [open_dir]
    and only after a saved document. *)
Theorem export_content_outcomes (w : World) (content : string)
    (open_dir show_error_dialog : bool) (a : App) :
  let r := _export_content cfg w content open_dir show_error_dialog a in
  let saved :=
    WordSaved
      (os_path_join
         (output_dir cfg (current_project a) (current_delivery a))
         (export_name (combo_review_var a) (w_time w))) in
  ∃ more,
    effects r.1 = effects a ++ ExportContent content :: more ∧
    (r.2 = true
     ↔ content ≠ "" ∧ combo_review_var a ≠ sentinel_none ∧
       (∃ u, w_docx_import w = Returns u) ∧ ∃ u, w_docx w = Returns u) ∧
    (r.2 = true → saved ∈ more) ∧
    (r.2 = false → ∀ p, WordSaved p ∉ more) ∧
    (show_error_dialog = false →
     ∀ m, (ShowWarning m ∉ more) ∧ (ShowError m ∉ more)) ∧
    (show_error_dialog = true → r.2 = false →
     ∃ m, ShowWarning m ∈ more ∨ ShowError m ∈ more) ∧
    (∀ p, OpenFolder p ∈ more → open_dir = true ∧ r.2 = true).
Proof.
  intros r saved. subst r saved. unfold _export_content.
  replace (combo_review_var (emit (ExportContent content) a))
    with (combo_review_var a) by (by destruct a).
  replace (current_project (emit (ExportContent content) a))
    with (current_project a) by (by destruct a).
  replace (current_delivery (emit (ExportContent content) a))
    with (current_delivery a) by (by destruct a).
  destruct (bool_decide (content = "")) eqn:Hc.
  { apply bool_decide_eq_true in Hc.
    destruct show_error_dialog; cbn [fst snd].
    - exists [ShowWarning "回覆內容是空的"].
      rewrite !effects_emit, <- app_assoc.
      split; [done|]. split; [split; [done | by intros (? & _)]|].
      split; [done|]. split; [by intros _ p ?%list_elem_of_singleton|].
      split; [done|]. split; [intros _ _; eexists; left; by left|].
      by intros p ?%list_elem_of_singleton.
    - exists []. rewrite effects_show_notification, effects_emit.
      split; [done|]. split; [split; [done | by intros (? & _)]|].
      split; [done|]. split; [by intros _ p ?%elem_of_nil|].
      split; [intros _ m; split; by intros ?%elem_of_nil|].
      split; [done|]. by intros p ?%elem_of_nil. }
  apply bool_decide_eq_false in Hc.
  destruct (bool_decide (combo_review_var a = sentinel_none)) eqn:Ht.
  { apply bool_decide_eq_true in Ht.
    destruct show_error_dialog; cbn [fst snd].
    - exists [ShowWarning "沒有選擇待審檔案"].
      rewrite !effects_emit, <- app_assoc.
      split; [done|]. split; [split; [done | by intros (_ & ? & _)]|].
      split; [done|]. split; [by intros _ p ?%list_elem_of_singleton|].
      split; [done|]. split; [intros _ _; eexists; left; by left|].
      by intros p ?%list_elem_of_singleton.
    - exists []. rewrite effects_show_notification, effects_emit.
      split; [done|]. split; [split; [done | by intros (_ & ? & _)]|].
      split; [done|]. split; [by intros _ p ?%elem_of_nil|].
      split; [intros _ m; split; by intros ?%elem_of_nil|].
      split; [done|]. by intros p ?%elem_of_nil. }
  apply bool_decide_eq_false in Ht.
  unfold exporter_export, log_errors.
  destruct (w_docx_import w) as [u0|e0] eqn:Hi; cbn [fold_left]; cycle 1.
  { destruct show_error_dialog; cbn [fst snd].
    + eexists [LogError _; LogError _; ShowError _].
      rewrite !effects_emit, <- !app_assoc.
      split; [reflexivity|].
      split; [split; [done | by intros (_ & _ & (? & ?) & _)]|].
      split; [done|]. split.
      { intros _ p Hin.
        repeat (apply elem_of_cons in Hin as [Hin|Hin]; [discriminate|]).
        by apply elem_of_nil in Hin. }
      split; [done|].
      split; [intros _ _; eexists; right; right; right; by left|].
      intros p Hin.
      repeat (apply elem_of_cons in Hin as [Hin|Hin]; [discriminate|]).
      by apply elem_of_nil in Hin.
    + eexists [LogError _; LogError _].
      rewrite effects_show_notification, !effects_emit, <- !app_assoc.
      split; [reflexivity|].
      split; [split; [done | by intros (_ & _ & (? & ?) & _)]|].
      split; [done|]. split.
      { intros _ p Hin.
        repeat (apply elem_of_cons in Hin as [Hin|Hin]; [discriminate|]).
        by apply elem_of_nil in Hin. }
      split.
      { intros _ m. split; intros Hin;
          repeat (apply elem_of_cons in Hin as [Hin|Hin]; [discriminate|]);
          by apply elem_of_nil in Hin. }
      split; [done|].
      intros p Hin.
      repeat (apply elem_of_cons in Hin as [Hin|Hin]; [discriminate|]).
      by apply elem_of_nil in Hin. }
  unfold WordExporter_export. destruct (w_docx w) as [u|e] eqn:Hd.
  - destruct open_dir; cbn [fst snd].
    + eexists [WordSaved _; OpenFolder _].
      rewrite !effects_emit, effects_show_notification, !effects_emit,
        <- !app_assoc.
      split; [reflexivity|]. split; [split; [by eauto 6 | done]|].
      split; [intros _; by left|]. split; [done|].
      split.
      { intros ->. intros m. split; intros Hin;
          repeat (apply elem_of_cons in Hin as [Hin|Hin]; [discriminate|]);
          by apply elem_of_nil in Hin. }
      split; [done|]. by intros p _.
    + eexists [WordSaved _].
      rewrite effects_show_notification, !effects_emit, <- !app_assoc.
      split; [reflexivity|]. split; [split; [by eauto 6 | done]|].
      split; [intros _; by left|]. split; [done|].
      split.
      { intros _ m. split; intros Hin;
          repeat (apply elem_of_cons in Hin as [Hin|Hin]; [discriminate|]);
          by apply elem_of_nil in Hin. }
      split; [done|].
      intros p Hin.
      repeat (apply elem_of_cons in Hin as [Hin|Hin]; [discriminate|]).
      by apply elem_of_nil in Hin.
  - destruct show_error_dialog; cbn [fst snd].
    + eexists [LogError _; ShowError _].
      rewrite !effects_emit, <- !app_assoc.
      split; [reflexivity|].
      split; [split; [done | by intros (_ & _ & _ & ? & ?)]|].
      split; [done|]. split.
      { intros _ p Hin.
        repeat (apply elem_of_cons in Hin as [Hin|Hin]; [discriminate|]).
        by apply elem_of_nil in Hin. }
      split; [done|].
      split; [intros _ _; eexists; right; right; by left|].
      intros p Hin.
      repeat (apply elem_of_cons in Hin as [Hin|Hin]; [discriminate|]).
      by apply elem_of_nil in Hin.
    + eexists [LogError _].
      rewrite effects_show_notification, !effects_emit, <- !app_assoc.
      split; [reflexivity|].
      split; [split; [done | by intros (_ & _ & _ & ? & ?)]|].
      split; [done|]. split.
      { intros _ p Hin.
        repeat (apply elem_of_cons in Hin as [Hin|Hin]; [discriminate|]).
        by apply elem_of_nil in Hin. }
      split.
      { intros _ m. split; intros Hin;
          repeat (apply elem_of_cons in Hin as [Hin|Hin]; [discriminate|]);
          by apply elem_of_nil in Hin. }
      split; [done|].
      intros p Hin.
      repeat (apply elem_of_cons in Hin as [Hin|Hin]; [discriminate|]).
      by apply elem_of_nil in Hin.
Qed.

End ExportContent.

(** Without python-docx the silent export fails with two records in the
    log: the hint of the exporter and the error of [_export_content]. *)
Example export_without_docx :
  let w := {| w_fs := sample_fs; w_clipboard := Returns "A";
              w_docx_import := Raises "No module named 'docx'";
              w_docx := Returns (); w_time := sample_time |} in
  let r := _export_content sample_cfg w "A" false false armed_app in
  r.2 = false ∧
  effects r.1
  = [ExportContent "A"; LogError msg_missing_docx;
     LogError "Word 輸出失敗：No module named 'docx'"].
Proof. vm_compute. done. Qed.

(** ** Stripping and the clipboard text *)


Section ClipboardText.

Variable cfg : AppConfig.

(** X11.  The text [_get_clipboard_text] returns is the clipboard text without
    the white space at its two ends, and nothing else is: what is cut off
    is white space only, and what is left neither begins nor ends with
    white space.  It is empty when the clipboard cannot be read and when
    it holds white space only. *)
Theorem get_clipboard_text_trimmed (w : World) :
  let c := _get_clipboard_text w in
  (∀ e, w_clipboard w = Raises e → c = "") ∧
  (∀ t, w_clipboard w = Returns t →
        trimmed t c ∧ (∀ c', trimmed t c' → c' = c) ∧ (blank t → c = "")).
Proof.
  unfold _get_clipboard_text. destruct (w_clipboard w) as [t|e]; simpl.
  - split; [done|]. intros t' [= <-].
    split; [apply strip_trimmed|].
    split; [|apply strip_blank].
    intros c' Hc'. symmetry. by apply trimmed_strip.
  - split; [done | done].
Qed.

(** X12.  A poll that finds the clipboard unreadable, or holding white space
    only, exports nothing and keeps the snapshot, armed or not. *)
Theorem poll_ignores_blank_clipboard (w : World) (a : App) :
  (∀ t, w_clipboard w = Returns t → blank t) →
  export_calls (_poll_clipboard cfg w a) = export_calls a ∧
  _last_clipboard (_poll_clipboard cfg w a) = _last_clipboard a ∧
  clipboard_auto_var (_poll_clipboard cfg w a) = clipboard_auto_var a.
Proof.
  intros Hblank.
  assert (Hc : _get_clipboard_text w = "").
  { unfold _get_clipboard_text. destruct (w_clipboard w) as [t|e] eqn:E; [|done].
    by apply strip_blank, Hblank. }
  assert (Hq : clip_view (_poll_clipboard cfg w a) = clip_view a).
  { apply poll_quiet. right. unfold fresh_content. by rewrite Hc. }
  destruct (clip_view_last _ _ Hq) as (H1 & H2 & H3). done.
Qed.

End ClipboardText.

Lemma poll_ignores_blank_clipboard_witness :
  let w := {| w_fs := sample_fs; w_clipboard := Returns (" " +:+ LF);
              w_docx_import := Returns ();
              w_docx := Returns (); w_time := sample_time |} in
  export_calls (_poll_clipboard sample_cfg w armed_app)
  = export_calls armed_app ∧
  _last_clipboard (_poll_clipboard sample_cfg w armed_app)
  = _last_clipboard armed_app ∧
  clipboard_auto_var (_poll_clipboard sample_cfg w armed_app)
  = clipboard_auto_var armed_app.
Proof.
  intros w.
  assert (H1 : ∀ t, w_clipboard w = Returns t → blank t).
  { intros t [= <-]. change (blank (" " +:+ (LF +:+ ""))).
    apply blank_cons;
      [apply list_elem_of_In; vm_compute; tauto|].
    apply blank_cons; [apply list_elem_of_In; vm_compute; tauto|].
    apply blank_nil. }
  exact (poll_ignores_blank_clipboard sample_cfg w armed_app H1).
Defined.

(** ** The handles of the timers *)

Section HandleLists.

Lemma elem_of_handle_paths (p : string) (queue : list after_job) :
  p ∈ handle_paths queue
  ↔ ∃ j, j ∈ queue ∧ job_cb j = cb_handle_file p.
Proof.
  unfold handle_paths. rewrite list_elem_of_omap. split.
  - intros (j & Hj & Hcb). exists j. split; [done|].
    destruct (job_cb j); congruence.
  - intros (j & Hj & Hcb). exists j. split; [done|]. by rewrite Hcb.
Qed.

Lemma handle_paths_cons (j : after_job) (queue : list after_job) :
  handle_paths (j :: queue)
  = match job_cb j with
    | cb_handle_file p => p :: handle_paths queue
    | _ => handle_paths queue
    end.
Proof. unfold handle_paths. simpl. by destruct (job_cb j). Qed.

Lemma handle_paths_app (q q' : list after_job) :
  handle_paths (q ++ q') = handle_paths q ++ handle_paths q'.
Proof. apply omap_app. Qed.

Lemma handle_paths_filter_sublist (P : after_job → Prop)
    `{!∀ j, Decision (P j)} (queue : list after_job) :
  handle_paths (filter P queue) `sublist_of` handle_paths queue.
Proof.
  induction queue as [|j queue IH]; [done|].
  rewrite filter_cons.
  destruct (decide (P j)); rewrite !handle_paths_cons.
  - destruct (job_cb j); try done. by apply sublist_skip.
  - destruct (job_cb j); try done. by apply sublist_cons.
Qed.

Lemma unique_id (queue : list after_job) (j j' : after_job) :
  NoDup (job_id <$> queue) → j ∈ queue → j' ∈ queue →
  job_id j = job_id j' → j = j'.
Proof.
  induction queue as [|k queue IH]; intros Hnd Hj Hj' Hid;
    [by apply elem_of_nil in Hj|].
  rewrite fmap_cons in Hnd. apply NoDup_cons in Hnd as [Hk Hnd].
  apply elem_of_cons in Hj as [->|Hj], Hj' as [->|Hj'].
  - done.
  - destruct Hk. rewrite Hid. by apply list_elem_of_fmap_2.
  - destruct Hk. rewrite <- Hid. by apply list_elem_of_fmap_2.
  - by apply IH.
Qed.

Lemma elem_of_cancel (queue : list after_job) (id : nat) (j : after_job) :
  j ∈ filter (λ j, job_id j ≠ id) queue ↔ job_id j ≠ id ∧ j ∈ queue.
Proof. by rewrite list_elem_of_filter. Qed.

(** Cancelling the job [j0] keeps every other job. *)
Lemma cancel_keeps (queue : list after_job) (j0 j : after_job) :
  NoDup (job_id <$> queue) → j0 ∈ queue → j ∈ queue → j ≠ j0 →
  j ∈ filter (λ k, job_id k ≠ job_id j0) queue.
Proof.
  intros Hnd H0 Hj Hne. apply elem_of_cancel. split; [|done].
  intros Hid. apply Hne. by apply (unique_id queue).
Qed.

Lemma names_job_cancel (cb : callback) (queue : list after_job)
    (h : option nat) (j0 : after_job) :
  NoDup (job_id <$> queue) → j0 ∈ queue → job_cb j0 ≠ cb →
  names_job cb queue h →
  names_job cb (filter (λ k, job_id k ≠ job_id j0) queue) h.
Proof.
  intros Hnd H0 Hcb Hn id Hid. destruct (Hn id Hid) as (j & Hj & Hjid & Hjcb).
  exists j. split; [|done]. apply cancel_keeps; [done..|congruence].
Qed.

Lemma named_by_sublist (cb : callback) (q q' : list after_job)
    (h : option nat) :
  q' `sublist_of` q → named_by cb q h → named_by cb q' h.
Proof. intros Hsub Hn j Hj. apply Hn. by eapply elem_of_sublist. Qed.

(** Once the job [h] names is cancelled, no job of its callback is left. *)
Lemma named_by_cancelled (cb : callback) (queue : list after_job) (id : nat)
    (h : option nat) :
  named_by cb queue (Some id) →
  named_by cb (filter (λ k, job_id k ≠ id) queue) h.
Proof.
  intros Hn j [Hne Hj]%elem_of_cancel Hcb.
  specialize (Hn j Hj Hcb). congruence.
Qed.

Lemma named_by_none (cb : callback) (queue : list after_job)
    (h : option nat) :
  named_by cb queue None → named_by cb queue h.
Proof. intros Hn j Hj Hcb. specialize (Hn j Hj Hcb). discriminate. Qed.

Lemma handle_paths_cancel_other (queue : list after_job) (j0 : after_job) :
  NoDup (job_id <$> queue) → j0 ∈ queue →
  (∀ p, job_cb j0 ≠ cb_handle_file p) →
  handle_paths (filter (λ k, job_id k ≠ job_id j0) queue)
  = handle_paths queue.
Proof.
  intros Hnd H0 Hcb.
  assert (Hall : ∀ j, j ∈ queue → job_id j = job_id j0 →
                      ∀ p, job_cb j ≠ cb_handle_file p).
  { intros j Hj Hid. by rewrite (unique_id queue j j0 Hnd Hj H0 Hid). }
  clear Hnd H0 Hcb. induction queue as [|j queue IH]; [done|].
  rewrite filter_cons.
  assert (IH' : handle_paths (filter (λ k, job_id k ≠ job_id j0) queue)
                = handle_paths queue).
  { apply IH. intros k Hk. apply Hall. by right. }
  destruct (decide (job_id j ≠ job_id j0)) as [Hne|Heq].
  - by rewrite !handle_paths_cons, IH'.
  - assert (job_id j = job_id j0) as Hid
      by (destruct (decide (job_id j = job_id j0)); [done | by destruct Heq]).
    pose proof (Hall j ltac:(left) Hid) as Hj.
    rewrite IH', handle_paths_cons.
    destruct (job_cb j) eqn:E; try done. by destruct (Hj filepath).
Qed.

Lemma handle_paths_cancel_handle (queue : list after_job) (j0 : after_job)
    (p : string) :
  NoDup (job_id <$> queue) → j0 ∈ queue → job_cb j0 = cb_handle_file p →
  NoDup (handle_paths queue) →
  ∀ p', p' ∈ handle_paths (filter (λ k, job_id k ≠ job_id j0) queue)
        ↔ p' ∈ handle_paths queue ∧ p' ≠ p.
Proof.
  intros Hnd H0 Hcb Hndp p'. rewrite !elem_of_handle_paths. split.
  - intros (j & [Hne Hj]%elem_of_cancel & Hjcb). split; [by eauto|].
    intros ->.
    assert (j = j0); [|by subst].
    clear Hne. revert Hndp Hj H0 Hjcb Hcb. clear.
    induction queue as [|k queue IH]; intros Hndp Hj H0 Hjcb Hcb;
      [by apply elem_of_nil in Hj|].
    rewrite handle_paths_cons in Hndp.
    apply elem_of_cons in Hj as [->|Hj], H0 as [->|H0]; [done| | |].
    + rewrite Hjcb in Hndp.
      apply NoDup_cons in Hndp as [Hn _]. destruct Hn.
      apply elem_of_handle_paths. eauto.
    + rewrite Hcb in Hndp.
      apply NoDup_cons in Hndp as [Hn _]. destruct Hn.
      apply elem_of_handle_paths. eauto.
    + apply IH; try done.
      destruct (job_cb k); try done.
      by apply NoDup_cons in Hndp as [_ ?].
  - intros [(j & Hj & Hjcb) Hne]. exists j. split; [|done].
    apply cancel_keeps; [done..|]. intros ->. congruence.
Qed.

End HandleLists.

Section ViewInvariant.

Ltac split_weak :=
  unfold view_weak;
  split; [|split; [|split; [|split; [|split; [|split; [|split]]]]]].

Lemma push_ids (v : tview) (d : nat) (cb : callback) :
  Forall (λ j, job_id j < tv_seq v) (tv_queue v) →
  NoDup (job_id <$> tv_queue v) →
  Forall (λ j, job_id j < tv_seq (tv_push d cb v)) (tv_queue (tv_push d cb v)) ∧
  NoDup (job_id <$> tv_queue (tv_push d cb v)).
Proof.
  intros Hlt Hnd. simpl. split.
  - apply Forall_app. split.
    + eapply Forall_impl; [exact Hlt|]. simpl. intros; lia.
    + constructor; [simpl; lia | constructor].
  - rewrite fmap_app. apply NoDup_app. split; [done|]. split.
    + intros x Hx Hx'. apply list_elem_of_singleton in Hx'. subst x.
      simpl in Hx. by apply fresh_id_not_in in Hlt.
    + apply NoDup_singleton.
Qed.

Lemma names_job_app (cb : callback) (q q' : list after_job) (h : option nat) :
  names_job cb q h → names_job cb (q ++ q') h.
Proof.
  intros Hn id Hid. destruct (Hn id Hid) as (j & Hj & ?).
  exists j. split; [|done]. apply elem_of_app. by left.
Qed.

Lemma named_by_snoc (cb : callback) (q : list after_job) (j : after_job)
    (h : option nat) :
  named_by cb q h → (job_cb j = cb → h = Some (job_id j)) →
  named_by cb (q ++ [j]) h.
Proof.
  intros Hn Hj k Hk Hcb. apply elem_of_app in Hk as [Hk|Hk]; [by apply Hn|].
  apply list_elem_of_singleton in Hk as ->. by apply Hj.
Qed.

Lemma weak_push_clear (P : gset string) (v : tview) (d : nat) :
  view_weak P v → view_weak P (tv_push d cb_clear_notification v).
Proof.
  intros (H1 & H2 & H3 & H4 & H5 & H6 & H7 & H8).
  destruct (push_ids v d cb_clear_notification H1 H2) as [H1' H2'].
  split_weak; try done; simpl.
  - by apply named_by_snoc.
  - by apply names_job_app.
  - by apply named_by_snoc.
  - rewrite handle_paths_app. simpl. by rewrite app_nil_r.
  - intros p. rewrite handle_paths_app. simpl. by rewrite app_nil_r.
Qed.

Lemma full_push_clear (P : gset string) (v : tview) (d : nat) :
  view_full P v → view_full P (tv_push d cb_clear_notification v).
Proof.
  intros (Hw & Hn & Ha). split; [by apply weak_push_clear|].
  split; [by apply names_job_app | done].
Qed.

Lemma clears_fields (v v' : tview) :
  clears v v' →
  tv_rj v' = tv_rj v ∧ tv_cj v' = tv_cj v ∧ tv_auto v' = tv_auto v ∧
  tv_proc v' = tv_proc v ∧ tv_ms v' = tv_ms v ∧ tv_clock v' = tv_clock v.
Proof. induction 1 as [v|v v' d Hc IH]; [done|]. simpl. done. Qed.

Lemma weak_clears (P : gset string) (v v' : tview) :
  clears v v' → view_weak P v → view_weak P v'.
Proof.
  induction 1 as [v|v v' d Hc IH]; [done|].
  intros Hw. by apply weak_push_clear, IH.
Qed.

Lemma full_clears (P : gset string) (v v' : tview) :
  clears v v' → view_full P v → view_full P v'.
Proof.
  induction 1 as [v|v v' d Hc IH]; [done|].
  intros Hw. by apply full_push_clear, IH.
Qed.

Lemma clears_trans (v1 v2 v3 : tview) :
  clears v1 v2 → clears v2 v3 → clears v1 v3.
Proof.
  intros H12 H23. induction H23 as [v|v v' d Hc IH]; [done|].
  apply clears_push. by apply IH.
Qed.

Lemma clears_once (v : tview) (d : nat) :
  clears v (tv_push d cb_clear_notification v).
Proof. apply clears_push, clears_refl. Qed.

(** A new refresh job, stored in [_refresh_job], when none is pending. *)
Lemma full_push_refresh (P : gset string) (v : tview) (d : nat) :
  view_full P v → tv_rj v = None →
  view_full P (tv_with_rj (Some (tv_seq v)) (tv_push d cb_run_refresh v)).
Proof.
  intros ((H1 & H2 & H3 & H4 & H5 & H6 & H7 & H8) & Hn & Ha) Hrj.
  destruct (push_ids v d cb_run_refresh H1 H2) as [H1' H2'].
  split; [|split; [by apply names_job_app | done]].
  split_weak; try done; simpl.
  - apply named_by_snoc; [|done].
    intros j Hj Hcb. specialize (H3 j Hj Hcb). congruence.
  - intros id [= <-].
    exists {| job_id := tv_seq v; job_due := tv_clock v + d;
              job_cb := cb_run_refresh |}.
    split; [apply elem_of_app; right; by left | done].
  - by apply named_by_snoc.
  - rewrite handle_paths_app. simpl. by rewrite app_nil_r.
  - intros p. rewrite handle_paths_app. simpl. by rewrite app_nil_r.
Qed.

(** A new poll job, stored in [_clipboard_job], when none is pending and
    monitoring is armed. *)
Lemma full_push_poll (P : gset string) (v : tview) (d : nat) :
  view_weak P v → tv_cj v = None → tv_auto v = true →
  view_full P (tv_with_cj (Some (tv_seq v)) (tv_push d cb_poll_clipboard v)).
Proof.
  intros (H1 & H2 & H3 & H4 & H5 & H6 & H7 & H8) Hcj Hauto.
  destruct (push_ids v d cb_poll_clipboard H1 H2) as [H1' H2'].
  split; [|split].
  - split_weak; try done; simpl.
    + by apply named_by_snoc.
    + by apply names_job_app.
    + apply named_by_snoc; [|done].
      intros j Hj Hcb. specialize (H5 j Hj Hcb). congruence.
    + rewrite handle_paths_app. simpl. by rewrite app_nil_r.
    + intros p. rewrite handle_paths_app. simpl. by rewrite app_nil_r.
  - intros id [= <-].
    exists {| job_id := tv_seq v; job_due := tv_clock v + d;
              job_cb := cb_poll_clipboard |}.
    split; [apply elem_of_app; right; by left | done].
  - simpl. split; [by eexists | done].
Qed.

(** A new [handle_file] job for a path that is not in flight. *)
Lemma full_push_handle (P : gset string) (v : tview) (d : nat) (p : string) :
  view_full P v → p ∉ P →
  view_full ({[p]} ∪ P) (tv_push d (cb_handle_file p) v).
Proof.
  intros ((H1 & H2 & H3 & H4 & H5 & H6 & H7 & H8) & Hn & Ha) Hp.
  destruct (push_ids v d (cb_handle_file p) H1 H2) as [H1' H2'].
  split; [|split; [by apply names_job_app | done]].
  split_weak; try done; simpl.
  - by apply named_by_snoc.
  - by apply names_job_app.
  - by apply named_by_snoc.
  - rewrite handle_paths_app. simpl. apply NoDup_app. split; [done|].
    split; [|apply NoDup_singleton].
    intros x Hx Hx'. apply list_elem_of_singleton in Hx' as ->.
    by apply H7 in Hx.
  - intros x. rewrite handle_paths_app. simpl.
    rewrite elem_of_app, list_elem_of_singleton, H7.
    rewrite elem_of_union, elem_of_singleton. tauto.
Qed.

Lemma cancel_ids (v : tview) (id : nat) :
  Forall (λ j, job_id j < tv_seq v) (tv_queue v) →
  NoDup (job_id <$> tv_queue v) →
  Forall (λ j, job_id j < tv_seq v) (filter (λ j, job_id j ≠ id) (tv_queue v)) ∧
  NoDup (job_id <$> filter (λ j, job_id j ≠ id) (tv_queue v)).
Proof.
  intros Hlt Hnd.
  pose proof (sublist_filter (λ j, job_id j ≠ id) (tv_queue v)) as Hsub.
  split.
  - rewrite Forall_forall in *. intros j Hj. apply Hlt.
    by eapply elem_of_sublist.
  - eapply sublist_NoDup; [exact Hnd | by apply fmap_sublist].
Qed.

(** Cancelling a pending job that clears the notification. *)
Lemma full_cancel_clear (P : gset string) (v : tview) (j0 : after_job) :
  view_full P v → j0 ∈ tv_queue v → job_cb j0 = cb_clear_notification →
  view_full P (tv_cancel (job_id j0) v).
Proof.
  intros ((H1 & H2 & H3 & H4 & H5 & H6 & H7 & H8) & Hn & Ha) Hj Hcb.
  destruct (cancel_ids v (job_id j0) H1 H2) as [H1' H2'].
  pose proof (sublist_filter (λ j, job_id j ≠ job_id j0) (tv_queue v)) as Hsub.
  assert (Hhp : handle_paths (filter (λ k, job_id k ≠ job_id j0) (tv_queue v))
                = handle_paths (tv_queue v)).
  { apply handle_paths_cancel_other; [done..|]. intros p. by rewrite Hcb. }
  split; [|split; [|done]].
  - split_weak; try done; simpl.
    + by eapply named_by_sublist.
    + apply names_job_cancel; [done..| |done]. by rewrite Hcb.
    + by eapply named_by_sublist.
    + by rewrite Hhp.
    + intros p. by rewrite Hhp.
  - simpl. apply names_job_cancel; [done..| |done]. by rewrite Hcb.
Qed.

(** The refresh job has fired: it leaves the queue, [_refresh_job] is
    reset. *)
Lemma full_cancel_refresh (P : gset string) (v : tview) (j0 : after_job) :
  view_full P v → j0 ∈ tv_queue v → job_cb j0 = cb_run_refresh →
  view_full P (tv_with_rj None (tv_cancel (job_id j0) v)).
Proof.
  intros ((H1 & H2 & H3 & H4 & H5 & H6 & H7 & H8) & Hn & Ha) Hj Hcb.
  destruct (cancel_ids v (job_id j0) H1 H2) as [H1' H2'].
  pose proof (sublist_filter (λ j, job_id j ≠ job_id j0) (tv_queue v)) as Hsub.
  assert (Hhp : handle_paths (filter (λ k, job_id k ≠ job_id j0) (tv_queue v))
                = handle_paths (tv_queue v)).
  { apply handle_paths_cancel_other; [done..|]. intros p. by rewrite Hcb. }
  split; [|split; [|done]].
  - split_weak; try done; simpl.
    + apply named_by_cancelled. by rewrite <- (H3 j0 Hj Hcb).
    + by eapply named_by_sublist.
    + by rewrite Hhp.
    + intros p. by rewrite Hhp.
  - simpl. apply names_job_cancel; [done..| |done]. by rewrite Hcb.
Qed.

(** The poll job has fired: it leaves the queue, [_clipboard_job] is
    reset; monitoring was armed. *)
Lemma weak_cancel_poll (P : gset string) (v : tview) (j0 : after_job) :
  view_full P v → j0 ∈ tv_queue v → job_cb j0 = cb_poll_clipboard →
  view_weak P (tv_with_cj None (tv_cancel (job_id j0) v)) ∧
  tv_auto v = true ∧ tv_cj v = Some (job_id j0).
Proof.
  intros ((H1 & H2 & H3 & H4 & H5 & H6 & H7 & H8) & Hn & Ha) Hj Hcb.
  destruct (cancel_ids v (job_id j0) H1 H2) as [H1' H2'].
  pose proof (sublist_filter (λ j, job_id j ≠ job_id j0) (tv_queue v)) as Hsub.
  assert (Hhp : handle_paths (filter (λ k, job_id k ≠ job_id j0) (tv_queue v))
                = handle_paths (tv_queue v)).
  { apply handle_paths_cancel_other; [done..|]. intros p. by rewrite Hcb. }
  pose proof (H5 j0 Hj Hcb) as Hcj.
  split; [|split; [|done]].
  - split_weak; try done; simpl.
    + by eapply named_by_sublist.
    + apply names_job_cancel; [done..| |done]. by rewrite Hcb.
    + apply named_by_cancelled. by rewrite <- Hcj.
    + by rewrite Hhp.
    + intros p. by rewrite Hhp.
  - apply Ha. rewrite Hcj. by eexists.
Qed.

(** A [handle_file] job has fired: it leaves the queue, and its path is
    taken out of the set compared with. *)
Lemma full_cancel_handle (P : gset string) (v : tview) (j0 : after_job)
    (p : string) :
  view_full P v → j0 ∈ tv_queue v → job_cb j0 = cb_handle_file p →
  view_full (P ∖ {[p]}) (tv_cancel (job_id j0) v).
Proof.
  intros ((H1 & H2 & H3 & H4 & H5 & H6 & H7 & H8) & Hn & Ha) Hj Hcb.
  destruct (cancel_ids v (job_id j0) H1 H2) as [H1' H2'].
  pose proof (sublist_filter (λ j, job_id j ≠ job_id j0) (tv_queue v)) as Hsub.
  split; [|split; [|done]].
  - split_weak; try done; simpl.
    + by eapply named_by_sublist.
    + apply names_job_cancel; [done..| |done]. by rewrite Hcb.
    + by eapply named_by_sublist.
    + eapply sublist_NoDup; [exact H6|].
      apply handle_paths_filter_sublist.
    + intros x. rewrite (handle_paths_cancel_handle _ j0 p) by done.
      rewrite H7, elem_of_difference, elem_of_singleton. tauto.
  - simpl. apply names_job_cancel; [done..| |done]. by rewrite Hcb.
Qed.

Lemma full_change_proc (P : gset string) (v : tview) (Q : gset string) :
  view_full P v → view_full P (tv_with_proc Q v).
Proof. by destruct v. Qed.

Lemma full_change_clock (P : gset string) (v : tview) (c : nat) :
  view_full P v → view_full P (tv_with_clock c v).
Proof. by destruct v. Qed.

Lemma weak_change_auto (P : gset string) (v : tview) (b : bool) :
  view_weak P v → view_weak P (tv_with_auto b v).
Proof. by destruct v. Qed.

End ViewInvariant.

Section HandleSimulation.

Variable cfg : AppConfig.
Variable os_listdir : directory → list string.

Lemma tview_show_notification m a :
  tview_of (show_notification m a)
  = tv_push 3000 cb_clear_notification (tview_of a).
Proof. by destruct a. Qed.

Lemma tview_after_cancel id a :
  tview_of (after_cancel id a) = tv_cancel id (tview_of a).
Proof. by destruct a. Qed.

Lemma tview_schedule_refresh d a :
  tview_of (schedule_refresh d a) = tv_schedule_refresh d (tview_of a).
Proof. destruct a as [? ? ? [id|] ? ? ? ? ? ? ? ? ? ? ? ? ?]; by cbn. Qed.

Lemma tview_schedule_clipboard_poll immediate a :
  tview_of (_schedule_clipboard_poll immediate a)
  = tv_schedule_poll immediate (tview_of a).
Proof.
  destruct a as [? ? ? ? [id|] ? ? ? ? ? ? ? ? ? ? ? ?];
    destruct immediate; by cbn.
Qed.

Lemma tview_emit e a : tview_of (emit e a) = tview_of a.
Proof. by destruct a. Qed.

Lemma tview_export_content w content open_dir show a :
  clears (tview_of a) (tview_of (_export_content cfg w content open_dir show a).1).
Proof.
  unfold _export_content.
  destruct (bool_decide (content = "")).
  { destruct show; cbn [fst].
    - rewrite !tview_emit. apply clears_refl.
    - rewrite tview_show_notification, tview_emit. apply clears_once. }
  destruct (bool_decide (_ = sentinel_none)).
  { destruct show; cbn [fst].
    - rewrite !tview_emit. apply clears_refl.
    - rewrite tview_show_notification, tview_emit. apply clears_once. }
  unfold exporter_export, log_errors.
  destruct (w_docx_import w) as [u|e0]; cbn [fold_left].
  - destruct (WordExporter_export _ _ _ _ _) as [path|e].
    + destruct open_dir; cbn [fst];
        rewrite ?tview_emit, tview_show_notification, !tview_emit;
        apply clears_once.
    + destruct show; cbn [fst].
      * rewrite !tview_emit. apply clears_refl.
      * rewrite tview_show_notification, !tview_emit. apply clears_once.
  - destruct show; cbn [fst].
    + rewrite !tview_emit. apply clears_refl.
    + rewrite tview_show_notification, !tview_emit. apply clears_once.
Qed.

Lemma tview_refresh_all w a :
  tview_of (refresh_all cfg os_listdir w a) = tview_of a.
Proof.
  unfold refresh_all.
  destruct (list_input_files _ _ _ _ _) as [tagged untagged].
  rewrite tview_emit. unfold refresh_review_combo.
  destruct (filter _ tagged); by destruct a.
Qed.

Lemma tview_generate_prompt w a :
  clears (tview_of a) (tview_of (generate_prompt cfg os_listdir w a)).
Proof.
  unfold generate_prompt.
  destruct (list_input_files _ _ _ _ _) as [tagged untagged].
  assert (Hc : tview_of (refresh_review_combo tagged a) = tview_of a).
  { unfold refresh_review_combo. destruct (filter _ tagged); by destruct a. }
  destruct (bool_decide _).
  - rewrite tview_emit, Hc. apply clears_refl.
  - rewrite tview_show_notification.
    replace (tview_of (set_prompt_display _ (refresh_review_combo tagged a)))
      with (tview_of a)
      by (rewrite <- Hc; by destruct (refresh_review_combo tagged a)).
    apply clears_once.
Qed.

Lemma full_schedule_refresh (P : gset string) (v : tview) (d : nat) :
  view_full P v → view_full P (tv_schedule_refresh d v).
Proof.
  intros Hf. unfold tv_schedule_refresh.
  destruct (tv_rj v) as [id|] eqn:Hrj; simpl.
  - destruct Hf as [Hw Hrest]. pose proof Hw as (_ & _ & _ & H4 & _).
    destruct (H4 id Hrj) as (j0 & Hj & <- & Hcb).
    pose proof (full_cancel_refresh P v j0 (conj Hw Hrest) Hj Hcb) as Hf'.
    apply (full_push_refresh P _ d) in Hf'; [|done].
    by destruct v.
  - apply (full_push_refresh P v d Hf Hrj).
Qed.

(** What the timer state is after the poll job [j0] has fired. *)
Lemma poll_fired_view w (a : App) (j0 : after_job) :
  handles_ok a → j0 ∈ after_queue a → job_cb j0 = cb_poll_clipboard →
  ∃ v3,
    clears (tv_with_cj None (tv_cancel (job_id j0) (tview_of a))) v3 ∧
    tview_of (_poll_clipboard cfg w (after_cancel (job_id j0) a))
    = tv_with_cj (Some (tv_seq v3)) (tv_push 700 cb_poll_clipboard v3) ∧
    view_weak (processing a) v3 ∧ tv_cj v3 = None ∧ tv_auto v3 = true.
Proof.
  intros Hok Hj Hcb.
  destruct (weak_cancel_poll _ _ j0 Hok Hj Hcb) as (Hw & Hauto & Hcj).
  set (v2 := tv_with_cj None (tv_cancel (job_id j0) (tview_of a))) in *.
  unfold _poll_clipboard.
  set (a2 := set_clipboard_job None (after_cancel (job_id j0) a)).
  assert (Hv2 : tview_of a2 = v2) by (by destruct a).
  assert (Ha2 : clipboard_auto_var a2 = true).
  { change (tv_auto (tview_of a2) = true). by rewrite Hv2. }
  rewrite Ha2. cbn [negb].
  set (a3 := if _ && _ then _ else a2).
  assert (Hc : clears v2 (tview_of a3)).
  { subst a3. destruct (_ && _).
    - eapply clears_trans; [|apply tview_export_content].
      replace (tview_of (_set_reply_text _ (set_last_clipboard _ a2)))
        with (tview_of a2) by (by destruct a2).
      rewrite Hv2. apply clears_refl.
    - rewrite Hv2. apply clears_refl. }
  destruct (clears_fields _ _ Hc) as (_ & Hcj3 & Hauto3 & _ & Hms3 & _).
  exists (tview_of a3). split; [done|].
  pose proof (weak_clears _ _ _ Hc Hw) as Hw3.
  split; [|split; [done|split; [by rewrite Hcj3 | by rewrite Hauto3]]].
  rewrite tview_schedule_clipboard_poll. unfold tv_schedule_poll.
  rewrite Hcj3. simpl.
  destruct Hw3 as (_ & _ & _ & _ & _ & _ & _ & Hms).
  change (tv_ms (tview_of a3)) with (_clipboard_poll_ms a3) in Hms.
  by rewrite Hms.
Qed.

Lemma handles_ok_fire w id a :
  handles_ok a → handles_ok (fire cfg os_listdir w id a).
Proof.
  intros Hok. unfold fire.
  destruct (List.find _ _) as [j|] eqn:Hfind; [|done].
  apply find_job in Hfind as [Hin <-].
  destruct (job_due j <=? clock a); [|done].
  destruct (job_cb j) eqn:Hcb; simpl.
  - destruct (poll_fired_view w a j Hok Hin Hcb)
      as (v3 & Hc & Hv & Hw3 & Hcj3 & Hauto3).
    unfold handles_ok. rewrite Hv.
    destruct (clears_fields _ _ Hc) as (_ & _ & _ & Hp & _).
    replace (processing (_poll_clipboard cfg w (after_cancel (job_id j) a)))
      with (processing a).
    + by apply full_push_poll.
    + change (tv_proc (tview_of a)
              = tv_proc (tview_of (_poll_clipboard cfg w
                                     (after_cancel (job_id j) a)))).
      rewrite Hv. simpl. by rewrite Hp.
  - unfold _run_refresh, handles_ok.
    replace (processing (refresh_all cfg os_listdir w
                           (set_refresh_job None (after_cancel (job_id j) a))))
      with (processing a).
    + rewrite tview_refresh_all.
      replace (tview_of (set_refresh_job None (after_cancel (job_id j) a)))
        with (tv_with_rj None (tv_cancel (job_id j) (tview_of a)))
        by (by destruct a).
      by apply full_cancel_refresh.
    + change (tv_proc (tview_of a)
              = tv_proc (tview_of (refresh_all cfg os_listdir w
                   (set_refresh_job None (after_cancel (job_id j) a))))).
      rewrite tview_refresh_all. by destruct a.
  - pose proof (full_cancel_handle _ _ j filepath Hok Hin Hcb) as Hf.
    unfold handle_file, handles_ok.
    destruct (negb _).
    + replace (processing (set_processing _ _))
        with (processing a ∖ {[filepath]}) by (by destruct a).
      replace (tview_of (set_processing _ _))
        with (tv_with_proc (processing a ∖ {[filepath]})
                (tv_cancel (job_id j) (tview_of a))) by (by destruct a).
      by apply full_change_proc.
    + set (a2 := schedule_refresh 200
                   (show_notification "📥 偵測到新檔案，請標記"
                      (after_cancel (job_id j) a))).
      assert (Hv2 : tview_of a2
                = tv_schedule_refresh 200
                    (tv_push 3000 cb_clear_notification
                       (tv_cancel (job_id j) (tview_of a)))).
      { subst a2. by rewrite tview_schedule_refresh, tview_show_notification,
          tview_after_cancel. }
      assert (Hp2 : processing a2 = processing a).
      { change (tv_proc (tview_of a2) = tv_proc (tview_of a)).
        rewrite Hv2. unfold tv_schedule_refresh.
        by destruct (tv_rj _). }
      replace (processing (set_processing (processing a2 ∖ {[filepath]}) a2))
        with (processing a ∖ {[filepath]})
        by (rewrite <- Hp2; by destruct a2).
      replace (tview_of (set_processing (processing a2 ∖ {[filepath]}) a2))
        with (tv_with_proc (processing a ∖ {[filepath]}) (tview_of a2))
        by (rewrite <- Hp2; by destruct a2).
      apply full_change_proc. rewrite Hv2.
      by apply full_schedule_refresh, full_push_clear.
  - unfold clear_notification, handles_ok.
    replace (processing (set_notification "" (after_cancel (job_id j) a)))
      with (processing a) by (by destruct a).
    replace (tview_of (set_notification "" (after_cancel (job_id j) a)))
      with (tv_cancel (job_id j) (tview_of a)) by (by destruct a).
    by apply full_cancel_clear.
Qed.

End HandleSimulation.

Section HandleInvariant.

Variable cfg : AppConfig.
Variable os_listdir : directory → list string.

Lemma handles_ok_schedule_refresh d a :
  handles_ok a → handles_ok (schedule_refresh d a).
Proof.
  intros Hok. unfold handles_ok.
  replace (processing (schedule_refresh d a)) with (processing a).
  - rewrite tview_schedule_refresh. by apply full_schedule_refresh.
  - change (tv_proc (tview_of a) = tv_proc (tview_of (schedule_refresh d a))).
    rewrite tview_schedule_refresh. unfold tv_schedule_refresh.
    by destruct (tv_rj _).
Qed.

Lemma handles_ok_on_created event a :
  handles_ok a → handles_ok (on_created event a).
Proof.
  intros Hok. unfold on_created.
  destruct (is_directory event); [done|].
  destruct (is_skip_file _); [done|]. cbn [orb].
  destruct (bool_decide _) eqn:Hin; [done|].
  apply bool_decide_eq_false in Hin.
  unfold handles_ok.
  replace (processing
             (after 800 (cb_handle_file (src_path event))
                (set_processing ({[src_path event]} ∪ processing a) a)).2)
    with ({[src_path event]} ∪ processing a) by (by destruct a).
  replace (tview_of
             (after 800 (cb_handle_file (src_path event))
                (set_processing ({[src_path event]} ∪ processing a) a)).2)
    with (tv_push 800 (cb_handle_file (src_path event))
            (tv_with_proc ({[src_path event]} ∪ processing a) (tview_of a)))
    by (by destruct a).
  apply full_push_handle; [|done]. by apply full_change_proc.
Qed.

Lemma handles_ok_toggle a :
  handles_ok a →
  handles_ok (toggle_clipboard_watch
                (set_clipboard_auto_var (negb (clipboard_auto_var a)) a)).
Proof.
  intros Hok. pose proof Hok as (Hw & Hn & Ha).
  unfold toggle_clipboard_watch.
  replace (clipboard_auto_var (set_clipboard_auto_var _ a))
    with (negb (clipboard_auto_var a)) by (by destruct a).
  destruct (clipboard_auto_var a) eqn:Hauto; simpl.
  - (* switching off *)
    assert (Hs : is_Some (_clipboard_job a)) by (by apply Ha).
    destruct Hs as [id Hcj].
    replace (_clipboard_job (set_clipboard_auto_var false a))
      with (Some id) by (rewrite <- Hcj; by destruct a).
    destruct (Hn id Hcj) as (j0 & Hj & <- & Hcb).
    destruct (weak_cancel_poll _ _ j0 Hok Hj Hcb) as (Hw' & _ & _).
    unfold handles_ok. rewrite tview_show_notification.
    replace (processing (show_notification _ _)) with (processing a)
      by (by destruct a).
    replace (tview_of (set_clipboard_job None
                         (after_cancel (job_id j0)
                            (set_clipboard_auto_var false a))))
      with (tv_with_auto false
              (tv_with_cj None (tv_cancel (job_id j0) (tview_of a))))
      by (by destruct a).
    apply full_push_clear. split; [by apply weak_change_auto|].
    split; [by intros id' | simpl].
    split; [done | by intros [? ?]].
  - (* switching on *)
    assert (Hcj : _clipboard_job a = None).
    { destruct (_clipboard_job a) eqn:E; [|done].
      assert (clipboard_auto_var a = true); [|congruence].
      apply Ha. simpl. rewrite E. by eexists. }
    unfold handles_ok. rewrite tview_schedule_clipboard_poll.
    replace (processing (_schedule_clipboard_poll true _)) with (processing a).
    + rewrite tview_show_notification.
      replace (tview_of (set_last_clipboard None (set_clipboard_auto_var true a)))
        with (tv_with_auto true (tview_of a)) by (by destruct a).
      unfold tv_schedule_poll. simpl. change (tv_cj (tview_of a))
        with (_clipboard_job a). rewrite Hcj. simpl.
      apply (full_push_poll (processing a)
               (tv_push 3000 cb_clear_notification
                  (tv_with_auto true (tview_of a))) 10); [|by simpl|done].
      by apply weak_push_clear, weak_change_auto.
    + destruct a as [? ? ? ? cj ? ? ? ? ? ? ? ? ? ? ? ?].
      simpl in Hcj. subst cj. reflexivity.
Qed.

Lemma handles_ok_step w i a :
  handles_ok a → handles_ok (step cfg os_listdir w i a).
Proof.
  intros Hok. destruct i as [ms|id|ev|ev|ev|ev| |]; simpl.
  - unfold handles_ok.
    replace (processing (set_clock _ a)) with (processing a) by (by destruct a).
    replace (tview_of (set_clock (clock a + ms) a))
      with (tv_with_clock (clock a + ms) (tview_of a)) by (by destruct a).
    by apply full_change_clock.
  - by apply handles_ok_fire.
  - by apply handles_ok_on_created.
  - unfold on_modified. destruct (is_directory ev); [done|].
    destruct (is_skip_file _); [done|]. by apply handles_ok_schedule_refresh.
  - unfold on_moved. destruct (is_directory ev); [done|].
    by apply handles_ok_schedule_refresh.
  - unfold on_deleted. destruct (is_directory ev); [done|].
    by apply handles_ok_schedule_refresh.
  - by apply handles_ok_toggle.
  - pose proof (tview_generate_prompt cfg os_listdir w a) as Hc.
    unfold handles_ok.
    replace (processing (generate_prompt cfg os_listdir w a))
      with (processing a).
    + by eapply full_clears.
    + destruct (clears_fields _ _ Hc) as (_ & _ & _ & Hp & _). by symmetry.
Qed.

Lemma handles_ok_initial project delivery :
  handles_ok (initial_app project delivery).
Proof.
  split; [|split].
  - unfold view_weak. simpl.
    split; [constructor|]. split; [constructor|].
    split; [intros j Hj; by apply elem_of_nil in Hj|].
    split; [by intros id|].
    split; [intros j Hj; by apply elem_of_nil in Hj|].
    split; [constructor|]. split; [|done].
    intros p. split; intros Hp;
      [by apply elem_of_nil in Hp | by apply not_elem_of_empty in Hp].
  - by intros id.
  - simpl. split; [done | by intros [? ?]].
Qed.

Lemma handles_ok_reachable a : reachable cfg os_listdir a → handles_ok a.
Proof.
  induction 1 as [project delivery|w i a Hr IH].
  - apply handles_ok_initial.
  - by apply handles_ok_step.
Qed.

(** With distinct ids, the jobs of a callback are the one job its handle
    names, or none. *)
Lemma jobs_of_handle (cb : callback) (queue : list after_job)
    (h : option nat) :
  NoDup (job_id <$> queue) → named_by cb queue h → names_job cb queue h →
  match h with
  | Some id => ∃ j, jobs_of cb queue = [j] ∧ job_id j = id
  | None => jobs_of cb queue = []
  end.
Proof.
  intros Hnd Hby Hname. unfold jobs_of. destruct h as [id|].
  - destruct (Hname id eq_refl) as (j0 & Hj0 & Hid & Hcb).
    exists j0. split; [|done].
    assert (Hall : ∀ j, j ∈ filter (λ j, job_cb j = cb) queue → j = j0).
    { intros j [Hjcb Hj]%list_elem_of_filter.
      apply (unique_id queue); [done..|].
      specialize (Hby j Hj Hjcb). congruence. }
    assert (Hin : j0 ∈ filter (λ j, job_cb j = cb) queue)
      by (by apply list_elem_of_filter).
    assert (Hndf : NoDup (filter (λ j, job_cb j = cb) queue)).
    { apply NoDup_filter. by apply NoDup_fmap_1 in Hnd. }
    destruct (filter (λ j, job_cb j = cb) queue) as [|x [|y l]].
    + by apply elem_of_nil in Hin.
    + f_equal. apply Hall. by left.
    + exfalso. apply NoDup_cons in Hndf as [Hx _]. apply Hx.
      rewrite (Hall x) by (by left). rewrite <- (Hall y) at 1 by (right; by left).
      by left.
  - apply filter_none. rewrite Forall_forall. intros j Hj Hcb.
    specialize (Hby j Hj Hcb). discriminate.
Qed.

Lemma handles_ok_poll (a : App) :
  handles_ok a →
  (clipboard_auto_var a = true →
   ∃ j, pending_poll a = [j] ∧ _clipboard_job a = Some (job_id j)) ∧
  (clipboard_auto_var a = false →
   pending_poll a = [] ∧ _clipboard_job a = None).
Proof.
  intros (Hw & Hn & Ha).
  destruct Hw as (_ & Hnd & _ & _ & Hby & _).
  pose proof (jobs_of_handle cb_poll_clipboard _ _ Hnd Hby Hn) as Hjobs.
  simpl in Hjobs, Ha. split.
  - intros Hauto. apply Ha in Hauto as [id Hcj]. rewrite Hcj in Hjobs.
    destruct Hjobs as (j & Hj & <-). by exists j.
  - intros Hauto.
    destruct (_clipboard_job a) as [id|] eqn:Hcj.
    + assert (clipboard_auto_var a = true) by (apply Ha; by eexists).
      congruence.
    + done.
Qed.

(** X13.  In every reachable state (handlers and callbacks running one
    after the other) the poll timer matches the check box: while
    monitoring is armed exactly one poll job is pending and
    [_clipboard_job] names it; while it is not, no poll job is pending and
    [_clipboard_job] is [None]. *)
Theorem poll_timer_matches_arming (a : App) :
  reachable cfg os_listdir a →
  (clipboard_auto_var a = true →
   ∃ j, pending_poll a = [j] ∧ _clipboard_job a = Some (job_id j)) ∧
  (clipboard_auto_var a = false →
   pending_poll a = [] ∧ _clipboard_job a = None).
Proof. intros Hr. by apply handles_ok_poll, handles_ok_reachable. Qed.

(** X17.  In every reachable state (handlers and callbacks running one
    after the other) [_refresh_job] is accurate: it is [None]
    exactly when no refresh is pending, and otherwise names the one
    pending refresh job. *)
Theorem refresh_handle_accurate (a : App) :
  reachable cfg os_listdir a →
  match _refresh_job a with
  | Some id => ∃ j, pending_refresh a = [j] ∧ job_id j = id
  | None => pending_refresh a = []
  end.
Proof.
  intros Hr. pose proof (handles_ok_reachable a Hr) as (Hw & _ & _).
  destruct Hw as (_ & Hnd & Hby & Hn & _).
  exact (jobs_of_handle cb_run_refresh _ _ Hnd Hby Hn).
Qed.


End HandleInvariant.

Lemma poll_timer_matches_arming_witness :
  let a := step sample_cfg listdir_keys sample_world ClickClipboardWatch
             (initial_app "P" "D") in
  (clipboard_auto_var a = true →
   ∃ j, pending_poll a = [j] ∧ _clipboard_job a = Some (job_id j)) ∧
  (clipboard_auto_var a = false →
   pending_poll a = [] ∧ _clipboard_job a = None).
Proof.
  intros a.
  assert (H1 : reachable sample_cfg listdir_keys a)
    by (apply reachable_step, reachable_init).
  exact (poll_timer_matches_arming sample_cfg listdir_keys a H1).
Defined.

Lemma refresh_handle_accurate_witness :
  let a := step sample_cfg listdir_keys sample_world
             (Deleted {| is_directory := false;
                         src_path := "/srv/review/P/D/input/draft.pdf" |})
             (initial_app "P" "D") in
  match _refresh_job a with
  | Some id => ∃ j, pending_refresh a = [j] ∧ job_id j = id
  | None => pending_refresh a = []
  end.
Proof.
  intros a.
  assert (H1 : reachable sample_cfg listdir_keys a)
    by (apply reachable_step, reachable_init).
  exact (refresh_handle_accurate sample_cfg listdir_keys a H1).
Defined.


Section PollTiming.

Variable cfg : AppConfig.
Variable os_listdir : directory → list string.

Lemma jobs_of_app (cb : callback) (q q' : list after_job) :
  jobs_of cb (q ++ q') = jobs_of cb q ++ jobs_of cb q'.
Proof. apply filter_app. Qed.

Lemma jobs_of_unnamed (cb : callback) (queue : list after_job) :
  named_by cb queue None → jobs_of cb queue = [].
Proof.
  intros Hby. apply filter_none. rewrite Forall_forall. intros j Hj Hcb.
  specialize (Hby j Hj Hcb). discriminate.
Qed.

(** X14.  In a reachable state with monitoring armed, the poll job does
    nothing before it is
    due; fired once due, it leaves monitoring armed with exactly one poll
    job pending, due 700 ms later, whatever the clipboard holds and
    however the export ends. *)
Theorem poll_rescheduled (w : World) (a : App) (j : after_job) :
  reachable cfg os_listdir a →
  pending_poll a = [j] →
  let a' := step cfg os_listdir w (TkFire (job_id j)) a in
  (clock a < job_due j → a' = a) ∧
  (job_due j ≤ clock a →
   clipboard_auto_var a' = true ∧
   ∃ id,
     pending_poll a'
     = [{| job_id := id; job_due := clock a + 700;
           job_cb := cb_poll_clipboard |}] ∧
     _clipboard_job a' = Some id).
Proof.
  intros Hr Hp a'. subst a'.
  pose proof (handles_ok_reachable cfg os_listdir a Hr) as Hok.
  assert (Hj : j ∈ after_queue a ∧ job_cb j = cb_poll_clipboard).
  { assert (j ∈ pending_poll a) as Hin by (rewrite Hp; left).
    unfold pending_poll in Hin. apply list_elem_of_filter in Hin. tauto. }
  destruct Hj as [Hin Hcb].
  assert (Hnd : NoDup (job_id <$> after_queue a)).
  { by destruct Hok as ((_ & Hnd & _) & _). }
  cbn [step]. unfold fire. rewrite (find_unique _ _ Hnd Hin).
  split.
  - intros Hlt. destruct (Nat.leb_spec (job_due j) (clock a)); [lia | done].
  - intros Hle. destruct (Nat.leb_spec (job_due j) (clock a)); [|lia].
    rewrite Hcb. cbn [run_callback].
    destruct (poll_fired_view cfg w a j Hok Hin Hcb)
      as (v3 & Hc & Hv & Hw3 & Hcj3 & Hauto3).
    set (a' := _poll_clipboard cfg w (after_cancel (job_id j) a)) in *.
    destruct (clears_fields _ _ Hc) as (_ & _ & _ & _ & _ & Hclock).
    change (tv_auto (tview_of a') = true ∧
            ∃ id, jobs_of cb_poll_clipboard (tv_queue (tview_of a'))
                  = [{| job_id := id; job_due := clock a + 700;
                        job_cb := cb_poll_clipboard |}] ∧
                  tv_cj (tview_of a') = Some id).
    rewrite Hv. simpl. split; [done|]. exists (tv_seq v3).
    split; [|done].
    rewrite jobs_of_app, jobs_of_unnamed.
    + simpl in Hclock. rewrite Hclock. reflexivity.
    + destruct Hw3 as (_ & _ & _ & _ & Hby & _). by rewrite Hcj3 in Hby.
Qed.

(** X15.  In a reachable state, a click on the check box while
    monitoring is off arms it: the
    snapshot is reset and one poll job is pending, due 10 ms later.  A
    click while it is on disarms it: no poll job is left, and neither the
    snapshot nor the exports change. *)
Theorem toggle_monitoring (w : World) (a : App) :
  reachable cfg os_listdir a →
  let a' := step cfg os_listdir w ClickClipboardWatch a in
  (clipboard_auto_var a = false →
   clipboard_auto_var a' = true ∧ _last_clipboard a' = None ∧
   ∃ id,
     pending_poll a'
     = [{| job_id := id; job_due := clock a + 10;
           job_cb := cb_poll_clipboard |}] ∧
     _clipboard_job a' = Some id) ∧
  (clipboard_auto_var a = true →
   clipboard_auto_var a' = false ∧ pending_poll a' = [] ∧
   _clipboard_job a' = None ∧
   _last_clipboard a' = _last_clipboard a ∧
   export_calls a' = export_calls a).
Proof.
  intros Hr a'.
  pose proof (handles_ok_reachable cfg os_listdir a Hr) as Hok.
  pose proof (handles_ok_poll a Hok) as [Hon Hoff].
  assert (Hok' : handles_ok a') by (by apply handles_ok_step).
  pose proof (handles_ok_poll a' Hok') as [Hon' Hoff'].
  split.
  - intros Hauto. destruct (Hoff Hauto) as [Hp Hcj].
    assert (Hauto' : clipboard_auto_var a' = true).
    { subst a'. cbn [step]. unfold toggle_clipboard_watch.
      replace (clipboard_auto_var (set_clipboard_auto_var _ a))
        with true by (rewrite Hauto; by destruct a).
      destruct (clip_view_last _ _
                  (clip_view_schedule_clipboard_poll true
                     (show_notification "✓ 已啟用剪貼簿監聽"
                        (set_last_clipboard None
                           (set_clipboard_auto_var (negb (clipboard_auto_var a)) a)))))
        as (_ & -> & _).
      rewrite Hauto. by destruct a. }
    split; [done|]. split.
    + subst a'. cbn [step]. unfold toggle_clipboard_watch.
      replace (clipboard_auto_var (set_clipboard_auto_var _ a))
        with true by (rewrite Hauto; by destruct a).
      destruct (clip_view_last _ _
                  (clip_view_schedule_clipboard_poll true
                     (show_notification "✓ 已啟用剪貼簿監聽"
                        (set_last_clipboard None
                           (set_clipboard_auto_var (negb (clipboard_auto_var a)) a)))))
        as (-> & _ & _).
      by destruct a.
    + destruct (Hon' Hauto') as (j' & Hp' & Hcj').
      exists (job_id j'). split; [|done]. rewrite Hp'. f_equal.
      assert (Hin : {| job_id := after_seq a + 1; job_due := clock a + 10;
                       job_cb := cb_poll_clipboard |} ∈ pending_poll a').
      { unfold pending_poll. apply list_elem_of_filter. split; [done|].
        subst a'. cbn [step]. unfold toggle_clipboard_watch.
        replace (clipboard_auto_var (set_clipboard_auto_var _ a))
          with true by (rewrite Hauto; by destruct a).
        destruct a as [? ? ? ? cj ? ? ? ? ? ? ? ? ? ? ? ?].
        simpl in Hcj. subst cj. cbn.
        rewrite !elem_of_app. right. rewrite list_elem_of_singleton.
        f_equal; lia. }
      rewrite Hp' in Hin. apply list_elem_of_singleton in Hin.
      by subst j'.
  - intros Hauto.
    assert (Hv : clipboard_auto_var a' = false ∧
                 _last_clipboard a' = _last_clipboard a ∧
                 export_calls a' = export_calls a).
    { subst a'. cbn [step]. unfold toggle_clipboard_watch.
      replace (clipboard_auto_var (set_clipboard_auto_var _ a))
        with false by (rewrite Hauto; by destruct a).
      clear Hr Hok Hon Hoff Hok' Hon' Hoff'.
      split; [|split].
      - destruct a as [? ? ? ? [cj|] ? ? auto ? ? ? ? ? ? ? ? ?];
          simpl in Hauto; subst auto; by cbn.
      - destruct a as [? ? ? ? [cj|] ? ? auto ? ? ? ? ? ? ? ? ?];
          simpl in Hauto; subst auto; by cbn.
      - apply export_calls_view.
        destruct a as [? ? ? ? [cj|] ? ? auto ? ? ? ? ? ? ? ? ?];
          simpl in Hauto; subst auto; by cbn. }
    destruct Hv as (Hauto' & Hl & He).
    destruct (Hoff' Hauto') as [Hp' Hcj']. done.
Qed.

End PollTiming.

Lemma poll_rescheduled_witness :
  let w := world_failing "A" in
  let a := step sample_cfg listdir_keys w (Elapse 10)
             (step sample_cfg listdir_keys w ClickClipboardWatch
                (initial_app "P" "D")) in
  let j := {| job_id := 1; job_due := 10; job_cb := cb_poll_clipboard |} in
  let a' := step sample_cfg listdir_keys w (TkFire (job_id j)) a in
  (clock a < job_due j → a' = a) ∧
  (job_due j ≤ clock a →
   clipboard_auto_var a' = true ∧
   ∃ id,
     pending_poll a'
     = [{| job_id := id; job_due := clock a + 700;
           job_cb := cb_poll_clipboard |}] ∧
     _clipboard_job a' = Some id).
Proof.
  intros w a j.
  assert (H1 : reachable sample_cfg listdir_keys a)
    by (do 2 apply reachable_step; apply reachable_init).
  assert (H2 : pending_poll a = [j]) by (vm_compute; reflexivity).
  exact (poll_rescheduled sample_cfg listdir_keys w a j H1 H2).
Defined.

Lemma toggle_monitoring_witness :
  let w := sample_world in
  let a := initial_app "P" "D" in
  let a' := step sample_cfg listdir_keys w ClickClipboardWatch a in
  (clipboard_auto_var a = false →
   clipboard_auto_var a' = true ∧ _last_clipboard a' = None ∧
   ∃ id,
     pending_poll a'
     = [{| job_id := id; job_due := clock a + 10;
           job_cb := cb_poll_clipboard |}] ∧
     _clipboard_job a' = Some id) ∧
  (clipboard_auto_var a = true →
   clipboard_auto_var a' = false ∧ pending_poll a' = [] ∧
   _clipboard_job a' = None ∧
   _last_clipboard a' = _last_clipboard a ∧
   export_calls a' = export_calls a).
Proof.
  intros w a.
  assert (H1 : reachable sample_cfg listdir_keys a) by apply reachable_init.
  exact (toggle_monitoring sample_cfg listdir_keys w a H1).
Defined.

Section Disarmed.

Variable cfg : AppConfig.
Variable os_listdir : directory → list string.

Lemma fire_disarmed w id a :
  clipboard_auto_var a = false →
  clipboard_auto_var (fire cfg os_listdir w id a) = false ∧
  _last_clipboard (fire cfg os_listdir w id a) = _last_clipboard a ∧
  export_calls (fire cfg os_listdir w id a) = export_calls a.
Proof.
  intros Hauto. unfold fire.
  destruct (List.find _ _) as [j|]; [|done].
  destruct (job_due j <=? clock a); [|done].
  assert (Hc : clip_view (after_cancel id a) = clip_view a) by (by destruct a).
  destruct (clip_view_last _ _ Hc) as (Hl1 & Ha1 & He1).
  destruct (job_cb j); simpl.
  - assert (Hq : clip_view (_poll_clipboard cfg w (after_cancel id a))
                 = clip_view (after_cancel id a)).
    { apply poll_quiet. left. by rewrite Ha1. }
    destruct (clip_view_last _ _ Hq) as (Hl2 & Ha2 & He2).
    rewrite Hl2, Ha2, He2, Hl1, Ha1, He1. done.
  - unfold _run_refresh.
    destruct (clip_view_refresh_all cfg os_listdir w
                (set_refresh_job None (after_cancel id a))) as (t & u & Hv).
    unfold clip_view in Hv. injection Hv as H1 H2 H3.
    rewrite H1, H2.
    rewrite (export_calls_app (set_refresh_job None (after_cancel id a))
               [RefreshAll t u] _ H3).
    simpl. rewrite app_nil_r.
    replace (export_calls (set_refresh_job None (after_cancel id a)))
      with (export_calls (after_cancel id a)) by (by destruct a).
    rewrite He1. split; [|split; [|done]].
    + rewrite <- Hauto, <- Ha1. by destruct a.
    + rewrite <- Hl1. by destruct a.
  - assert (Hq : clip_view (handle_file w filepath (after_cancel id a))
                 = clip_view (after_cancel id a)).
    { unfold handle_file. destruct (negb _).
      - by destruct a.
      - set (a2 := schedule_refresh 200
                     (show_notification "📥 偵測到新檔案，請標記"
                        (after_cancel id a))).
        transitivity (clip_view a2); [by destruct a2|].
        subst a2.
        by rewrite clip_view_schedule_refresh, clip_view_show_notification. }
    destruct (clip_view_last _ _ Hq) as (Hl2 & Ha2 & He2).
    rewrite Hl2, Ha2, He2, Hl1, Ha1, He1. done.
  - assert (Hq : clip_view (clear_notification (after_cancel id a))
                 = clip_view (after_cancel id a)) by (by destruct a).
    destruct (clip_view_last _ _ Hq) as (Hl2 & Ha2 & He2).
    rewrite Hl2, Ha2, He2, Hl1, Ha1, He1. done.
Qed.

Lemma step_disarmed w i a :
  clipboard_auto_var a = false → i ≠ ClickClipboardWatch →
  clipboard_auto_var (step cfg os_listdir w i a) = false ∧
  _last_clipboard (step cfg os_listdir w i a) = _last_clipboard a ∧
  export_calls (step cfg os_listdir w i a) = export_calls a.
Proof.
  intros Hauto Hclick.
  assert (Hsame : ∀ a', clip_view a' = clip_view a →
            clipboard_auto_var a' = false ∧
            _last_clipboard a' = _last_clipboard a ∧
            export_calls a' = export_calls a).
  { intros a' Hv. destruct (clip_view_last _ _ Hv) as (-> & -> & ->). done. }
  destruct i as [ms|id|ev|ev|ev|ev| |]; simpl.
  - apply Hsame. by destruct a.
  - by apply fire_disarmed.
  - apply Hsame. unfold on_created.
    destruct (is_directory ev); [done|]. destruct (_ || _); [done|].
    by destruct a.
  - apply Hsame. unfold on_modified.
    destruct (is_directory ev); [done|]. destruct (is_skip_file _); [done|].
    apply clip_view_schedule_refresh.
  - apply Hsame. unfold on_moved.
    destruct (is_directory ev); [done|]. apply clip_view_schedule_refresh.
  - apply Hsame. unfold on_deleted.
    destruct (is_directory ev); [done|]. apply clip_view_schedule_refresh.
  - done.
  - destruct (clip_view_generate_prompt cfg os_listdir w a) as (more & Hv & Hno).
    unfold clip_view in Hv. injection Hv as H1 H2 H3.
    split; [congruence|]. split; [done|].
    rewrite (export_calls_app a more _ H3), omap_no_export by done.
    apply app_nil_r.
Qed.

Lemma sr_step_disarmed (p : sr_point) (a : App) :
  clip_view (sr_step p a).2 = clip_view a.
Proof.
  destruct p as [d|d|d|id| |];
    destruct a as [? ? ? [rj|] ? ? ? ? ? ? ? ? ? ? ? ? ?]; by cbn.
Qed.

Lemma move_disarmed (m : thread_move) (s : App * sr_point) :
  clipboard_auto_var s.1 = false →
  (∀ w, m ≠ TkRuns w ClickClipboardWatch) →
  clipboard_auto_var (move cfg os_listdir m s).1 = false ∧
  _last_clipboard (move cfg os_listdir m s).1 = _last_clipboard s.1 ∧
  export_calls (move cfg os_listdir m s).1 = export_calls s.1.
Proof.
  intros Hauto Hclick. destruct s as [a p]. simpl in Hauto.
  destruct m as [w i| i |]; simpl.
  - apply step_disarmed; [done|]. intros ->. by destruct (Hclick w).
  - destruct p; done.
  - pose proof (sr_step_disarmed p a) as Hv.
    destruct (sr_step p a) as [p' a']. simpl in *.
    destruct (clip_view_last _ _ Hv) as (-> & -> & ->). done.
Qed.

(** X16.  While monitoring is off nothing is exported and the snapshot is
    kept, whatever the clipboard holds and whatever else happens, until
    the check box is clicked; also when calls of [schedule_refresh] on
    the observer thread run between the callbacks of the Tk thread. *)
Theorem disarmed_never_exports (ms : list thread_move) (s : App * sr_point) :
  clipboard_auto_var s.1 = false →
  Forall (λ m, ∀ w, m ≠ TkRuns w ClickClipboardWatch) ms →
  clipboard_auto_var (moves cfg os_listdir ms s).1 = false ∧
  _last_clipboard (moves cfg os_listdir ms s).1 = _last_clipboard s.1 ∧
  export_calls (moves cfg os_listdir ms s).1 = export_calls s.1.
Proof.
  revert s. induction ms as [|m ms IH]; intros s Hauto Hall; [done|].
  apply Forall_cons in Hall as [Hm Hall].
  destruct (move_disarmed m s Hauto Hm) as (Ha & Hl & He).
  cbn [moves]. destruct (IH _ Ha Hall) as (Ha' & Hl' & He').
  split; [done|]. split; [by rewrite Hl' | by rewrite He'].
Qed.

End Disarmed.

Lemma disarmed_never_exports_witness :
  let w := world_failing "A" in
  let event := {| is_directory := false;
                  src_path := "/srv/review/P/D/input/draft.pdf" |} in
  let s := (step sample_cfg listdir_keys w ClickClipboardWatch armed_app,
            sr_done) in
  let ms := [TkRuns w (Elapse 700); ObserverEnters (Deleted event);
             TkRuns w (TkFire 0); ObserverSteps; TkRuns w (TkFire 1);
             ObserverSteps; ObserverSteps; TkRuns w ClickGeneratePrompt] in
  clipboard_auto_var (moves sample_cfg listdir_keys ms s).1 = false ∧
  _last_clipboard (moves sample_cfg listdir_keys ms s).1
  = _last_clipboard s.1 ∧
  export_calls (moves sample_cfg listdir_keys ms s).1 = export_calls s.1.
Proof.
  intros w event s ms.
  assert (H1 : clipboard_auto_var s.1 = false) by reflexivity.
  assert (H2 : Forall (λ m, ∀ w, m ≠ TkRuns w ClickClipboardWatch) ms)
    by (repeat constructor; intros ?; discriminate).
  exact (disarmed_never_exports sample_cfg listdir_keys ms s H1 H2).
Defined.

(** ** The catalogue, the review target and the tagger together *)

Section CatalogueMore.

Variable cfg : AppConfig.
Variable os_listdir : directory → list string.

Lemma sorted_unique (l1 l2 : list string) :
  l1 ≡ₚ l2 → Py.sorted l1 = Py.sorted l2.
Proof.
  intros Hp. apply (StronglySorted_unique String.le).
  - apply sorted_StronglySorted.
  - apply sorted_StronglySorted.
  - by rewrite !sorted_Permutation.
Qed.

Lemma all_files_elem (d : directory) (f : string) :
  listdir_ok os_listdir →
  f ∈ filter (λ f, os_path_isfile d f && negb (is_skip_file f)) (os_listdir d)
  ↔ os_path_isfile d f = true ∧ is_skip_file f = false.
Proof.
  intros Hok. rewrite list_elem_of_filter, andb_True, negb_True.
  rewrite Is_true_true, Is_true_false. split; [tauto|].
  intros [Hf Hs]. split; [done|].
  rewrite (Hok d). apply os_path_isfile_spec in Hf as [n [Hn _]].
  apply list_elem_of_fmap. exists (f, n). split; [done|].
  by apply elem_of_map_to_list.
Qed.

Lemma all_files_NoDup (d : directory) :
  listdir_ok os_listdir →
  NoDup (filter (λ f, os_path_isfile d f && negb (is_skip_file f))
           (os_listdir d)).
Proof.
  intros Hok. apply NoDup_filter. rewrite (Hok d).
  apply NoDup_fst_map_to_list.
Qed.

Lemma tagged_elem (fs : filesystem) (project delivery : string)
    (d : directory) (f : string) :
  listdir_ok os_listdir →
  fs !! input_dir cfg project delivery = Some d →
  f ∈ (list_input_files cfg os_listdir fs project delivery).1
  ↔ os_path_isfile d f = true ∧ is_skip_file f = false ∧
    Py.any_startswith f (tags cfg) = true.
Proof.
  intros Hok Hd. rewrite (list_input_files_Some _ _ _ _ _ _ Hd). cbn [fst].
  rewrite sorted_Permutation, list_elem_of_filter, Is_true_true.
  rewrite (all_files_elem d f Hok). tauto.
Qed.

Lemma untagged_elem (fs : filesystem) (project delivery : string)
    (d : directory) (f : string) :
  listdir_ok os_listdir →
  fs !! input_dir cfg project delivery = Some d →
  f ∈ (list_input_files cfg os_listdir fs project delivery).2
  ↔ os_path_isfile d f = true ∧ is_skip_file f = false ∧
    Py.any_startswith f (tags cfg) = false.
Proof.
  intros Hok Hd. rewrite (list_input_files_Some _ _ _ _ _ _ Hd). cbn [snd].
  rewrite sorted_Permutation, list_elem_of_filter, negb_True, Is_true_false.
  rewrite (all_files_elem d f Hok). tauto.
Qed.

Lemma tagged_NoDup (fs : filesystem) (project delivery : string) :
  listdir_ok os_listdir →
  NoDup (list_input_files cfg os_listdir fs project delivery).1.
Proof.
  intros Hok. unfold list_input_files.
  destruct (fs !! _) as [d|]; cbn [fst]; [|constructor].
  rewrite sorted_Permutation. by apply NoDup_filter, all_files_NoDup.
Qed.

Lemma tagged_sorted (fs : filesystem) (project delivery : string) :
  StronglySorted String.le
    (list_input_files cfg os_listdir fs project delivery).1.
Proof.
  unfold list_input_files.
  destruct (fs !! _) as [d|]; cbn [fst]; [|constructor].
  apply sorted_StronglySorted.
Qed.

Lemma StronglySorted_filter (P : string → Prop) `{!∀ x, Decision (P x)}
    (l : list string) :
  StronglySorted String.le l → StronglySorted String.le (filter P l).
Proof.
  induction l as [|x l IH]; intros Hs; [constructor|].
  apply StronglySorted_cons in Hs as [Hx Hs]. rewrite filter_cons.
  destruct (decide (P x)); [|by apply IH].
  apply StronglySorted_cons. split; [|by apply IH].
  rewrite Forall_forall in *. intros y [_ Hy]%list_elem_of_filter.
  by apply Hx.
Qed.

(** X5.  The catalogue does not depend on the order in which the operating
    system lists the directory: two listings of the same entries give the
    same pair of lists. *)
Theorem catalogue_order_independent (listdir1 listdir2 : directory → list string)
    (fs : filesystem) (project delivery : string) :
  listdir_ok listdir1 → listdir_ok listdir2 →
  list_input_files cfg listdir1 fs project delivery
  = list_input_files cfg listdir2 fs project delivery.
Proof.
  intros H1 H2. unfold list_input_files.
  destruct (fs !! _) as [d|]; [|done].
  assert (Hp : listdir1 d ≡ₚ listdir2 d) by (by rewrite (H1 d), (H2 d)).
  f_equal; apply sorted_unique; by rewrite Hp.
Qed.

Lemma review_elem (fs : filesystem) (project delivery f : string) :
  listdir_ok os_listdir → tag_review ∈ tags cfg →
  f ∈ filter (λ f, Py.startswith f tag_review)
        (list_input_files cfg os_listdir fs project delivery).1
  ↔ review_file cfg fs project delivery f.
Proof.
  intros Hok Htag. unfold review_file.
  rewrite list_elem_of_filter, Is_true_true, startswith_begins.
  destruct (fs !! input_dir cfg project delivery) as [d|] eqn:Hd.
  - rewrite (tagged_elem fs project delivery d f Hok Hd).
    rewrite any_startswith_has_tag.
    split.
    + intros (Hb & Hf & Hs & _). exists d. split; [done|].
      split; [|done]. apply visible_listed. by rewrite Hf, Hs.
    + intros (d' & Hd' & Hl & Hb). injection Hd' as <-.
      apply visible_listed in Hl.
      apply andb_True in Hl as [Hf Hs]. apply negb_True in Hs.
      split; [done|]. split; [by apply Is_true_true|]. split.
      * by apply Is_true_false.
      * exists tag_review. done.
  - unfold list_input_files. rewrite Hd. cbn [fst].
    split.
    + intros [_ Hin]. by apply elem_of_nil in Hin.
    + intros (d & Hd' & _). discriminate.
Qed.

(** X6.  After [refresh_all] the review target is the first, in lexical
    order, of the review files of the input folder, whatever was selected
    before, and the option menu offers exactly the review files, in
    order and each once; with no review file the target is the sentinel.
    [generate_prompt] selects the same target. *)
Theorem refresh_selects_first_review (w : World) (a : App) :
  listdir_ok os_listdir → tag_review ∈ tags cfg →
  let is_review :=
    review_file cfg (w_fs w) (current_project a) (current_delivery a) in
  let a' := refresh_all cfg os_listdir w a in
  ((∃ f, is_review f) →
   is_review (combo_review_var a') ∧
   (∀ f, is_review f → String.le (combo_review_var a') f) ∧
   (∀ f, f ∈ combo_review_values a' ↔ is_review f) ∧
   StronglySorted String.le (combo_review_values a') ∧
   NoDup (combo_review_values a')) ∧
  ((∀ f, ¬ is_review f) →
   combo_review_var a' = sentinel_none ∧
   combo_review_values a' = [sentinel_none]) ∧
  combo_review_var (generate_prompt cfg os_listdir w a) = combo_review_var a'.
Proof.
  intros Hok Htag is_review a'. subst is_review a'.
  pose proof (λ f, review_elem (w_fs w) (current_project a)
                     (current_delivery a) f Hok Htag) as Hel.
  pose proof (StronglySorted_filter (λ f, Py.startswith f tag_review) _
                (tagged_sorted (w_fs w) (current_project a)
                   (current_delivery a))) as Hsorted.
  pose proof (NoDup_filter (λ f, Py.startswith f tag_review) _
                (tagged_NoDup (w_fs w) (current_project a)
                   (current_delivery a) Hok)) as Hnd.
  unfold refresh_all, generate_prompt.
  destruct (list_input_files cfg os_listdir (w_fs w) (current_project a)
              (current_delivery a)) as [tagged untagged].
  cbn [fst] in Hel, Hsorted, Hnd.
  unfold refresh_review_combo.
  destruct (filter (λ f, Py.startswith f tag_review) tagged)
    as [|first rest] eqn:Hrev.
  - split; [|split].
    + intros [f Hf]. apply Hel in Hf. by apply elem_of_nil in Hf.
    + intros _. by destruct a.
    + rewrite bool_decide_eq_true_2 by (by destruct a). by destruct a.
  - assert (Hvar : ∀ e, combo_review_var
                          (emit e (set_combo_review first (first :: rest) a))
                        = first) by (intros e; by destruct a).
    assert (Hvals : ∀ e, combo_review_values
                           (emit e (set_combo_review first (first :: rest) a))
                         = first :: rest) by (intros e; by destruct a).
    rewrite Hvar, Hvals. split; [|split].
    + intros _. split; [apply Hel; left|]. split; [|done].
      intros f Hf. apply Hel in Hf.
      apply StronglySorted_cons in Hsorted as [Hle _].
      rewrite Forall_forall in Hle.
      apply elem_of_cons in Hf as [->|Hf]; [reflexivity | by apply Hle].
    + intros Hnone. destruct (Hnone first). apply Hel. left.
    + destruct (bool_decide _); by destruct a.
Qed.

(** X4.  Tagging and the catalogue: when [tag_file] renames a file the
    catalogue shows, with a configured tag, the next catalogue has the
    new name in the tagged list, the old name in neither list, and every
    other name where it was. *)
Theorem tag_then_catalogue (fs : filesystem) (sizes : nat → option nat)
    (project delivery filename tag : string) (d : directory) :
  listdir_ok os_listdir → tag ∈ tags cfg →
  fs !! input_dir cfg project delivery = Some d →
  os_path_isfile d filename = true →
  is_skip_file filename = false →
  d !! (tag +:+ filename) = None →
  is_skip_file (tag +:+ filename) = false →
  let r := list_input_files cfg os_listdir fs project delivery in
  let t := tag_file cfg fs sizes RenameDone project delivery filename tag in
  let r' := list_input_files cfg os_listdir (tr_fs t) project delivery in
  tr_ret t = (true, tag +:+ filename) ∧
  (∀ f, f ∈ r'.1 ↔ f = tag +:+ filename ∨ (f ∈ r.1 ∧ f ≠ filename)) ∧
  (∀ f, f ∈ r'.2 ↔ f ∈ r.2 ∧ f ≠ filename) ∧
  (filename ∉ r'.1) ∧ (filename ∉ r'.2).
Proof.
  intros Hok Htag Hd Hfile Hskip Hfree Hskip' r t r'. subst r t r'.
  destruct (proj1 (os_path_isfile_spec d filename) Hfile) as (n & Hn & Hkind).
  assert (Hne : filename ≠ tag +:+ filename) by congruence.
  set (d' := <[tag +:+ filename := n]> (delete filename d)).
  assert (Hreal : kind n ≠ DanglingLink) by (by rewrite Hkind).
  destruct (tag_file_done cfg fs sizes project delivery filename tag d n
              Hd Hn Hreal
              (entry_exists_absent fs _ _ d Hd Hfree
                 (tag_source_differs d filename tag n Hn Hfree)))
    as [Hret Hfs].
  fold d' in Hfs.
  assert (Hd' : (<[input_dir cfg project delivery := d']> fs)
                !! input_dir cfg project delivery = Some d')
    by apply lookup_insert_eq.
  assert (Hisfile : ∀ f, os_path_isfile d' f = true
                         ↔ f = tag +:+ filename
                           ∨ (os_path_isfile d f = true ∧ f ≠ filename)).
  { intros f. unfold os_path_isfile, d'.
    destruct (decide (f = tag +:+ filename)) as [->|Hf1].
    - rewrite lookup_insert_eq, bool_decide_eq_true. tauto.
    - rewrite lookup_insert_ne by done.
      destruct (decide (f = filename)) as [->|Hf2].
      + rewrite lookup_delete_eq. split; [done|]. intros [?|[_ ?]]; done.
      + rewrite lookup_delete_ne by done. tauto. }
  assert (Hnew : Py.any_startswith (tag +:+ filename) (tags cfg) = true).
  { apply any_startswith_has_tag. exists tag. split; [done|].
    by exists filename. }
  rewrite Hfs. split; [done|].
  assert (H1 : ∀ f,
            f ∈ (list_input_files cfg os_listdir
                   (<[input_dir cfg project delivery := d']> fs)
                   project delivery).1
            ↔ f = tag +:+ filename
              ∨ (f ∈ (list_input_files cfg os_listdir fs project delivery).1
                 ∧ f ≠ filename)).
  { intros f.
    rewrite (tagged_elem _ project delivery d' f Hok Hd').
    rewrite (tagged_elem fs project delivery d f Hok Hd), Hisfile.
    split.
    - intros ([->|[Hf Hne']] & Hs & Ht); [by left | right; tauto].
    - intros [->|[(Hf & Hs & Ht) Hne']]; [|tauto].
      split; [by left|done]. }
  assert (H2 : ∀ f,
            f ∈ (list_input_files cfg os_listdir
                   (<[input_dir cfg project delivery := d']> fs)
                   project delivery).2
            ↔ f ∈ (list_input_files cfg os_listdir fs project delivery).2
              ∧ f ≠ filename).
  { intros f.
    rewrite (untagged_elem _ project delivery d' f Hok Hd').
    rewrite (untagged_elem fs project delivery d f Hok Hd), Hisfile.
    split.
    - intros ([->|[Hf Hne']] & Hs & Ht); [congruence | tauto].
    - intros [(Hf & Hs & Ht) Hne']. tauto. }
  split; [exact H1|]. split; [exact H2|]. split.
  - rewrite H1. intros [?|[_ ?]]; done.
  - rewrite H2. intros [_ ?]. done.
Qed.

End CatalogueMore.

Lemma catalogue_order_independent_witness :
  listdir_ok listdir_keys ∧
  listdir_ok (λ d, reverse (listdir_keys d)) ∧
  list_input_files sample_cfg listdir_keys sample_fs "P" "D"
  = list_input_files sample_cfg (λ d, reverse (listdir_keys d))
      sample_fs "P" "D".
Proof.
  assert (H1 : listdir_ok listdir_keys) by (intros d; reflexivity).
  assert (H2 : listdir_ok (λ d, reverse (listdir_keys d)))
    by (intros d; apply reverse_Permutation).
  split; [exact H1|]. split; [exact H2|].
  exact (catalogue_order_independent sample_cfg listdir_keys
           (λ d, reverse (listdir_keys d)) sample_fs "P" "D" H1 H2).
Defined.

Lemma refresh_selects_first_review_witness :
  let w := sample_world in
  let a := initial_app "P" "D" in
  listdir_ok listdir_keys ∧ tag_review ∈ tags sample_cfg ∧
  let is_review :=
    review_file sample_cfg (w_fs w) (current_project a) (current_delivery a) in
  let a' := refresh_all sample_cfg listdir_keys w a in
  ((∃ f, is_review f) →
   is_review (combo_review_var a') ∧
   (∀ f, is_review f → String.le (combo_review_var a') f) ∧
   (∀ f, f ∈ combo_review_values a' ↔ is_review f) ∧
   StronglySorted String.le (combo_review_values a') ∧
   NoDup (combo_review_values a')) ∧
  ((∀ f, ¬ is_review f) →
   combo_review_var a' = sentinel_none ∧
   combo_review_values a' = [sentinel_none]) ∧
  combo_review_var (generate_prompt sample_cfg listdir_keys w a)
  = combo_review_var a'.
Proof.
  intros w a.
  assert (H1 : listdir_ok listdir_keys) by (intros d; reflexivity).
  assert (H2 : tag_review ∈ tags sample_cfg)
    by (vm_compute; do 2 right; left).
  split; [exact H1|]. split; [exact H2|].
  exact (refresh_selects_first_review sample_cfg listdir_keys w a H1 H2).
Defined.

Lemma tag_then_catalogue_witness :
  let sizes : nat → option nat := λ _, Some 3 in
  listdir_ok listdir_keys ∧ tag_template ∈ tags sample_cfg ∧
  sample_fs !! input_dir sample_cfg "P" "D" = Some sample_dir ∧
  os_path_isfile sample_dir "draft.pdf" = true ∧
  is_skip_file "draft.pdf" = false ∧
  sample_dir !! (tag_template +:+ "draft.pdf") = None ∧
  is_skip_file (tag_template +:+ "draft.pdf") = false ∧
  let r := list_input_files sample_cfg listdir_keys sample_fs "P" "D" in
  let t := tag_file sample_cfg sample_fs sizes RenameDone "P" "D"
             "draft.pdf" tag_template in
  let r' := list_input_files sample_cfg listdir_keys (tr_fs t) "P" "D" in
  tr_ret t = (true, tag_template +:+ "draft.pdf") ∧
  (∀ f, f ∈ r'.1
        ↔ f = tag_template +:+ "draft.pdf" ∨ (f ∈ r.1 ∧ f ≠ "draft.pdf")) ∧
  (∀ f, f ∈ r'.2 ↔ f ∈ r.2 ∧ f ≠ "draft.pdf") ∧
  ("draft.pdf" ∉ r'.1) ∧ ("draft.pdf" ∉ r'.2).
Proof.
  intros sizes.
  assert (H1 : listdir_ok listdir_keys) by (intros d; reflexivity).
  assert (H2 : tag_template ∈ tags sample_cfg)
    by (vm_compute; right; left).
  assert (H3 : sample_fs !! input_dir sample_cfg "P" "D" = Some sample_dir)
    by (vm_compute; reflexivity).
  assert (H4 : os_path_isfile sample_dir "draft.pdf" = true)
    by (vm_compute; reflexivity).
  assert (H5 : is_skip_file "draft.pdf" = false) by (vm_compute; reflexivity).
  assert (H6 : sample_dir !! (tag_template +:+ "draft.pdf") = None)
    by (vm_compute; reflexivity).
  assert (H7 : is_skip_file (tag_template +:+ "draft.pdf") = false)
    by (vm_compute; reflexivity).
  split; [exact H1|]. split; [exact H2|]. split; [exact H3|].
  split; [exact H4|]. split; [exact H5|]. split; [exact H6|].
  split; [exact H7|].
  exact (tag_then_catalogue sample_cfg listdir_keys sample_fs sizes "P" "D"
           "draft.pdf" tag_template sample_dir H1 H2 H3 H4 H5 H6 H7).
Defined.

(** ** The created file, once it has settled *)

Section CreatedFile.

Variable cfg : AppConfig.
Variable os_listdir : directory → list string.

Lemma pending_refresh_cancel_other (j : after_job) (a : App) :
  NoDup (job_id <$> after_queue a) → j ∈ after_queue a →
  job_cb j ≠ cb_run_refresh →
  pending_refresh (after_cancel (job_id j) a) = pending_refresh a.
Proof.
  intros Hnd Hin Hcb.
  replace (pending_refresh (after_cancel (job_id j) a))
    with (filter (λ k, job_cb k = cb_run_refresh)
            (filter (λ k, job_id k ≠ job_id j) (after_queue a)))
    by (by destruct a).
  unfold pending_refresh.
  induction (after_queue a) as [|k queue IH]; [done|].
  rewrite fmap_cons in Hnd. apply NoDup_cons in Hnd as [Hk Hnd].
  rewrite !filter_cons.
  destruct (decide (job_id k ≠ job_id j)) as [Hne|Heq].
  - rewrite filter_cons.
    apply elem_of_cons in Hin as [->|Hin]; [done|].
    destruct (decide (job_cb k = cb_run_refresh)); by rewrite IH.
  - apply dec_stable in Heq.
    apply elem_of_cons in Hin as [->|Hin].
    + destruct (decide (job_cb k = cb_run_refresh)); [done|].
      clear IH. induction queue as [|k' queue IH]; [done|].
      rewrite fmap_cons in Hk, Hnd. apply NoDup_cons in Hnd as [_ Hnd].
      rewrite not_elem_of_cons in Hk. destruct Hk as [Hk1 Hk2].
      rewrite filter_cons.
      destruct (decide (job_id k' ≠ job_id k)) as [|Heq']; [|by destruct Heq'].
      rewrite !filter_cons.
      destruct (decide (job_cb k' = cb_run_refresh)); by rewrite IH.
    + destruct Hk. rewrite Heq. apply list_elem_of_fmap. eauto.
Qed.

(** X19.  When, in a reachable state, the job that [on_created]
    scheduled for a path runs as a whole, the path
    leaves the in-flight set.  If the file is still there the user is
    told and one refresh is requested, 200 ms later; if it has vanished
    nothing is shown and no refresh is requested.  The job neither
    exports nor shows a dialog. *)
Theorem created_file_announced (w : World) (a : App) (j : after_job)
    (path : string) :
  reachable cfg os_listdir a →
  j ∈ after_queue a → job_cb j = cb_handle_file path →
  job_due j ≤ clock a →
  let a' := step cfg os_listdir w (TkFire (job_id j)) a in
  (path ∉ processing a') ∧
  (os_path_exists (w_fs w) path = true →
   notification a' = "  📥 偵測到新檔案，請標記  " ∧
   ∃ id,
     pending_refresh a'
     = [{| job_id := id; job_due := clock a + 200;
           job_cb := cb_run_refresh |}] ∧
     _refresh_job a' = Some id) ∧
  (os_path_exists (w_fs w) path = false →
   notification a' = notification a ∧
   pending_refresh a' = pending_refresh a ∧
   _refresh_job a' = _refresh_job a) ∧
  effects a' = effects a.
Proof.
  intros Hr Hin Hcb Hdue a'. subst a'.
  pose proof (timers_ok_reachable cfg os_listdir a Hr) as Hok.
  assert (Hnd : NoDup (job_id <$> after_queue a)) by apply Hok.
  cbn [step]. unfold fire. rewrite (find_unique _ _ Hnd Hin).
  apply Nat.leb_le in Hdue. rewrite Hdue, Hcb. cbn [run_callback].
  set (a1 := after_cancel (job_id j) a).
  assert (Hok1 : timers_ok a1) by (by apply timers_ok_after_cancel).
  assert (Hsame : notification a1 = notification a ∧
                  _refresh_job a1 = _refresh_job a ∧
                  effects a1 = effects a ∧ clock a1 = clock a)
    by (by destruct a).
  destruct Hsame as (Hn1 & Hr1 & He1 & Hc1).
  assert (Hp1 : pending_refresh a1 = pending_refresh a).
  { apply pending_refresh_cancel_other; [done|done|]. by rewrite Hcb. }
  unfold handle_file.
  destruct (os_path_exists (w_fs w) path) eqn:Hex; cbn [negb].
  - set (a2 := show_notification "📥 偵測到新檔案，請標記" a1).
    assert (Hok2 : timers_ok a2) by (by apply timers_ok_show_notification).
    pose proof (pending_refresh_schedule 200 a2 Hok2) as Hp.
    destruct (schedule_refresh_fields 200 a2) as (Hv & Hc & He & _).
    set (a3 := schedule_refresh 200 a2) in *.
    assert (Hn3 : notification a3 = notification a2)
      by (subst a3; destruct a2 as [? ? ? [id|] ? ? ? ? ? ? ? ? ? ? ? ? ?];
          by cbn).
    assert (Hfinal :
              ∀ P, processing (set_processing P a3) = P ∧
                   notification (set_processing P a3) = notification a3 ∧
                   pending_refresh (set_processing P a3) = pending_refresh a3 ∧
                   _refresh_job (set_processing P a3) = _refresh_job a3 ∧
                   effects (set_processing P a3) = effects a3)
      by (intros P; by destruct a3).
    destruct (Hfinal (processing a3 ∖ {[path]})) as (-> & -> & -> & -> & ->).
    split.
    { rewrite elem_of_difference, elem_of_singleton. tauto. }
    split; [|split; [done|]].
    + intros _. split.
      * rewrite Hn3. subst a2. by destruct a1.
      * exists (after_seq a2). rewrite Hp. unfold refresh_job_of.
        injection Hv as _ _ Hrj. split; [|done].
        do 2 f_equal. subst a2. rewrite <- Hc1. by destruct a1.
    + rewrite He. subst a2. rewrite <- He1. by destruct a1.
  - assert (Hfinal :
              ∀ P, processing (set_processing P a1) = P ∧
                   notification (set_processing P a1) = notification a1 ∧
                   pending_refresh (set_processing P a1) = pending_refresh a1 ∧
                   _refresh_job (set_processing P a1) = _refresh_job a1 ∧
                   effects (set_processing P a1) = effects a1)
      by (intros P; by destruct a1).
    destruct (Hfinal (processing a1 ∖ {[path]})) as (-> & -> & -> & -> & ->).
    split.
    { rewrite elem_of_difference, elem_of_singleton. tauto. }
    split; [done|]. split; [|done].
    intros _. by rewrite Hn1, Hp1, Hr1.
Qed.

End CreatedFile.

Lemma created_file_announced_witness :
  let path := "/srv/review/P/D/input/draft.pdf" in
  let w := sample_world in
  let a := step sample_cfg listdir_keys w (Elapse 800)
             (step sample_cfg listdir_keys w
                (Created {| is_directory := false; src_path := path |})
                (initial_app "P" "D")) in
  let j := {| job_id := 0; job_due := 800; job_cb := cb_handle_file path |} in
  let a' := step sample_cfg listdir_keys w (TkFire (job_id j)) a in
  (path ∉ processing a') ∧
  (os_path_exists (w_fs w) path = true →
   notification a' = "  📥 偵測到新檔案，請標記  " ∧
   ∃ id,
     pending_refresh a'
     = [{| job_id := id; job_due := clock a + 200;
           job_cb := cb_run_refresh |}] ∧
     _refresh_job a' = Some id) ∧
  (os_path_exists (w_fs w) path = false →
   notification a' = notification a ∧
   pending_refresh a' = pending_refresh a ∧
   _refresh_job a' = _refresh_job a) ∧
  effects a' = effects a.
Proof.
  intros path w a j.
  assert (H1 : reachable sample_cfg listdir_keys a)
    by (do 2 apply reachable_step; apply reachable_init).
  assert (H2 : j ∈ after_queue a) by (vm_compute; left).
  assert (H3 : job_cb j = cb_handle_file path) by reflexivity.
  assert (H4 : job_due j ≤ clock a) by (vm_compute; lia).
  exact (created_file_announced sample_cfg listdir_keys w a j path
           H1 H2 H3 H4).
Defined.

(** ** When two exports get the same name *)

Section ExportCollision.

Lemma app_inj_length (a1 b1 a2 b2 : string) :
  a1 +:+ b1 = a2 +:+ b2 → String.length a1 = String.length a2 →
  a1 = a2 ∧ b1 = b2.
Proof.
  revert a2. induction a1 as [|c a1 IH]; intros [|c2 a2] Heq Hlen;
    try discriminate.
  - done.
  - rewrite !app_cons_s in Heq. injection Heq as -> Heq.
    injection Hlen as Hlen. destruct (IH a2 Heq Hlen) as [-> ->]. done.
Qed.

Lemma app_inj_length_r (a1 b1 a2 b2 : string) :
  a1 +:+ b1 = a2 +:+ b2 → String.length b1 = String.length b2 →
  a1 = a2 ∧ b1 = b2.
Proof.
  intros Heq Hlen. apply app_inj_length; [done|].
  apply (f_equal String.length) in Heq. rewrite !length_app_s in Heq. lia.
Qed.

Lemma decimal_year_value (n : Z) :
  (1000 ≤ n ≤ 9999)%Z → digits_value (decimal n) = n.
Proof.
  intros Hn. apply Z.eqb_eq.
  apply (range_check (λ n, digits_value (decimal n) =? n)%Z 1000 9000);
    [|lia].
  vm_compute. reflexivity.
Qed.

Lemma strftime_2_value (n : Z) :
  (0 ≤ n ≤ 99)%Z → digits_value (strftime_2 n) = n.
Proof.
  intros Hn. apply Z.eqb_eq.
  apply (range_check (λ n, digits_value (strftime_2 n) =? n)%Z 0 100);
    [|lia].
  vm_compute. reflexivity.
Qed.

Lemma strftime_2_length (n : Z) :
  (0 ≤ n ≤ 99)%Z → String.length (strftime_2 n) = 2.
Proof. intros Hn. by apply strftime_2_digits. Qed.

Lemma now_ts_length (t : struct_time) :
  valid_time t → String.length (now_ts t) = 15.
Proof.
  intros (Hy & Hmo & Hd & Hh & Hmi & Hs). unfold now_ts.
  rewrite !length_app_s.
  rewrite (proj1 (decimal_year_digits _ Hy)).
  rewrite !strftime_2_length by lia. reflexivity.
Qed.

Lemma now_ts_inj (t1 t2 : struct_time) :
  valid_time t1 → valid_time t2 → now_ts t1 = now_ts t2 → t1 = t2.
Proof.
  intros (Hy1 & Hmo1 & Hd1 & Hh1 & Hmi1 & Hs1)
         (Hy2 & Hmo2 & Hd2 & Hh2 & Hmi2 & Hs2) Heq.
  unfold now_ts in Heq.
  apply app_inj_length in Heq as [Ey Heq];
    [|by rewrite (proj1 (decimal_year_digits _ Hy1)),
                 (proj1 (decimal_year_digits _ Hy2))].
  apply app_inj_length in Heq as [Emo Heq];
    [|by rewrite !strftime_2_length by lia].
  apply app_inj_length in Heq as [Ed Heq];
    [|by rewrite !strftime_2_length by lia].
  apply app_inj_length in Heq as [_ Heq]; [|done].
  apply app_inj_length in Heq as [Eh Heq];
    [|by rewrite !strftime_2_length by lia].
  apply app_inj_length in Heq as [Emi Es];
    [|by rewrite !strftime_2_length by lia].
  apply (f_equal digits_value) in Ey, Emo, Ed, Eh, Emi, Es.
  rewrite !decimal_year_value in Ey by done.
  rewrite !strftime_2_value in Emo, Ed, Eh, Emi, Es by lia.
  destruct t1, t2. simpl in *. congruence.
Qed.

(** X9.  Two exports get the same document name exactly when the sanitized
    source names agree and the two times agree to the second: exports of
    one source at different seconds never overwrite each other, while
    two sources that differ only in forbidden characters, exported
    within the same second, do. *)
Theorem export_name_collision (src1 src2 : string) (t1 t2 : struct_time) :
  valid_time t1 → valid_time t2 →
  export_name src1 t1 = export_name src2 t2
  ↔ sanitize_filename src1 = sanitize_filename src2 ∧ t1 = t2.
Proof.
  intros Hv1 Hv2. split.
  - unfold export_name. intros Heq.
    apply (inj (String.app "Review_")) in Heq.
    apply app_inj_length_r in Heq as [Hs Heq].
    + split; [done|].
      apply (inj (String.app "_")) in Heq.
      apply app_inj_length_r in Heq as [Hts _]; [|done].
      by apply now_ts_inj.
    + rewrite !length_app_s, !now_ts_length by done. done.
  - intros [Hs ->]. unfold export_name. by rewrite Hs.
Qed.

End ExportCollision.

Lemma export_name_collision_witness :
  let t := sample_time in
  valid_time t ∧ valid_time t ∧
  (export_name "a:b.docx" t = export_name "a?b.docx" t
   ↔ sanitize_filename "a:b.docx" = sanitize_filename "a?b.docx" ∧ t = t).
Proof.
  intros t.
  assert (H1 : valid_time t) by (vm_compute; repeat split; discriminate).
  split; [exact H1|]. split; [exact H1|].
  exact (export_name_collision "a:b.docx" "a?b.docx" t t H1 H1).
Defined.

(** ** [shorten_path] *)

Section ShortenPath.

(** X20.  [shorten_path] never returns more than [max_len] characters when
    [max_len] is at least 4: a path that fits is returned as it is, a
    longer one becomes its first [max_len // 2 - 2] characters, three
    dots and its last characters, [max_len] characters in all. *)
Theorem shorten_path_bound (path : codepoints) (max_len : Z) :
  (4 ≤ max_len)%Z →
  let head := Z.to_nat (max_len `div` 2 - 2) in
  let tail := Z.to_nat (max_len - (max_len `div` 2 - 2) - 3) in
  (Z.of_nat (length (shorten_path path max_len)) ≤ max_len)%Z ∧
  ((Z.of_nat (length path) ≤ max_len)%Z → shorten_path path max_len = path) ∧
  ((max_len < Z.of_nat (length path))%Z →
   shorten_path path max_len
   = take head path ++ ellipsis ++ drop (length path - tail) path ∧
   Z.of_nat (length (shorten_path path max_len)) = max_len).
Proof.
  intros Hmax head tail.
  pose proof (Z.div_mod max_len 2 ltac:(lia)) as Hdiv.
  pose proof (Z.mod_pos_bound max_len 2 ltac:(lia)) as Hmod.
  unfold shorten_path.
  destruct (Z.leb_spec (Z.of_nat (length path)) max_len) as [Hfit|Hlong].
  - split; [done|]. split; [done | lia].
  - assert (Heq : slice_to path (max_len `div` 2 - 2) ++ ellipsis
                  ++ slice_from path (- (max_len - (max_len `div` 2 - 2) - 3))
                  = take head path ++ ellipsis
                    ++ drop (length path - tail) path).
    { unfold slice_to, slice_from.
      destruct (Z.ltb_spec (max_len `div` 2 - 2) 0) as [Hneg|_]; [lia|].
      destruct (Z.ltb_spec (- (max_len - (max_len `div` 2 - 2) - 3)) 0)
        as [_|Hpos]; [|lia].
      do 3 f_equal. subst tail. lia. }
    cbv zeta. rewrite Heq.
    assert (Hlen : Z.of_nat (length (take head path ++ ellipsis
                                       ++ drop (length path - tail) path))
                   = max_len).
    { rewrite !length_app, length_take, length_drop. simpl.
      subst head tail. lia. }
    split; [lia|]. split; [lia | done].
Qed.

End ShortenPath.

Lemma shorten_path_bound_witness :
  let path : codepoints := [47; 115; 114; 118; 47; 114; 101; 118]%N in
  let max_len := 6%Z in
  (4 ≤ max_len)%Z ∧
  let head := Z.to_nat (max_len `div` 2 - 2) in
  let tail := Z.to_nat (max_len - (max_len `div` 2 - 2) - 3) in
  (Z.of_nat (length (shorten_path path max_len)) ≤ max_len)%Z ∧
  ((Z.of_nat (length path) ≤ max_len)%Z → shorten_path path max_len = path) ∧
  ((max_len < Z.of_nat (length path))%Z →
   shorten_path path max_len
   = take head path ++ ellipsis ++ drop (length path - tail) path ∧
   Z.of_nat (length (shorten_path path max_len)) = max_len).
Proof.
  intros path max_len.
  assert (H1 : (4 ≤ max_len)%Z) by (vm_compute; discriminate).
  split; [exact H1|].
  exact (shorten_path_bound path max_len H1).
Defined.
